(** * arxiv_scraping: a shallow embedding of [scraping_arxiv.py]

    The development follows the source file top to bottom:

    - [PyStr]     Python strings and the regular expressions the scraper uses;
    - [Ids]       [format_yymm_id], [_is_valid_arxiv_id] and the URL patterns;
    - [Data]      the JSON documents and records the scraper handles;
    - [Eff]       operations, exceptions and thread pools;
    - [Versions]  [_check_version_exists] and [_discover_all_versions];
    - [SS]        the retrying session and [_ss_get_cached];
    - [Refs]      the reference pipeline of [_fetch_references_and_paper_venue];
    - [Download]  the per-revision download pool;
    - [Paper]     [_fetch_metadata_with_complete_versions] and [scrape_single_paper];
    - [Batch]     [_scrape_single_paper_safe] and [scrape_papers];
    - [Counters]  the shared [self.stats] dictionary under interleaved writers;
    - [Shapes]    predicates on strings used to state further properties;
    - [Cli]       [generate_arxiv_ids];
    - [Measures]  readings of runs used to state further properties;
    - [Cache]     the [lru_cache] in front of [_ss_get_cached];
    - [Cleanup]   [remove_non_tex_bib].

    Network answers, completion orders of thread pools and time-outs are inputs
    of the functions that consume them; everything the code computes from them
    is computed here the same way. *)

From Stdlib Require Import Ascii String ZArith Lia DecimalString.
From Stdlib Require DecimalPos.
From stdpp Require Import base strings sorting gmap functions list.

Set Warnings "-register-all,-clear-no-such-hyp".

(* ===================================================================== *)
(** ** Python strings *)
(* ===================================================================== *)

Module PyStr.

(** A Python [str] is a sequence of code points.  The model keeps the code
    points below 256 (Rocq's [ascii]); the character classes below are
    Python's own on that range. *)
Definition pystr := list ascii.

Definition py (s : string) : pystr := list_ascii_of_string s.

(** [f"{n}"] for a natural number and for an integer. *)
Definition str_of_nat (n : nat) : pystr :=
  py (NilZero.string_of_uint (Nat.to_uint n)).
Definition str_of_Z (z : Z) : pystr :=
  py (NilZero.string_of_int (Z.to_int z)).

(** Truth value of a string: [bool(s)]. *)
Definition truthy (s : pystr) : bool :=
  match s with
  | [] => false
  | _ :: _ => true
  end.

Definition code (c : ascii) : nat := nat_of_ascii c.

Definition in_range (lo hi : nat) (c : ascii) : bool :=
  (lo <=? code c) && (code c <=? hi).

(** [\d]: the decimal digits (category Nd has no other member below 256). *)
Definition is_digit (c : ascii) : bool := in_range 48 57 c.

(** [str.isspace], which is what [str.strip()] removes. *)
Definition is_space (c : ascii) : bool :=
  in_range 9 13 c || in_range 28 32 c || (code c =? 133) || (code c =? 160).

(** [\w]: alphanumeric code points and the underscore. *)
Definition is_word (c : ascii) : bool :=
  in_range 48 57 c || in_range 65 90 c || (code c =? 95) || in_range 97 122 c
  || (code c =? 170) || in_range 178 179 c || (code c =? 181)
  || in_range 185 186 c || in_range 188 190 c
  || in_range 192 214 c || in_range 216 246 c || in_range 248 255 c.

Definition ascii_eqb (a b : ascii) : bool := Ascii.eqb a b.

(** Equality of characters under [re.IGNORECASE]; below 256 only the letters
    A-Z and a-z have a second spelling. *)
Definition lower (c : ascii) : ascii :=
  if in_range 65 90 c then ascii_of_nat (code c + 32) else c.

Definition ascii_eqb_ci (a b : ascii) : bool := ascii_eqb (lower a) (lower b).

(** [old in s] for a one-character [old]. *)
Definition contains_char (c : ascii) (s : pystr) : bool :=
  existsb (ascii_eqb c) s.

Fixpoint starts_with (p s : pystr) : bool :=
  match p, s with
  | [], _ => true
  | a :: p', b :: s' => ascii_eqb a b && starts_with p' s'
  | _ :: _, [] => false
  end.

(** [p in s] for a non-empty [p]. *)
Fixpoint contains (p s : pystr) : bool :=
  starts_with p s ||
  match s with
  | [] => false
  | _ :: s' => contains p s'
  end.

(** [s.replace(old, new)] for a non-empty [old]: occurrences are replaced
    from the left and do not overlap.  [skip] counts the characters of an
    occurrence that are still to be dropped. *)
Fixpoint replace_from (old new : pystr) (skip : nat) (s : pystr) : pystr :=
  match s with
  | [] => []
  | c :: s' =>
      match skip with
      | S n => replace_from old new n s'
      | O =>
          if starts_with old s
          then new ++ replace_from old new (Nat.pred (length old)) s'
          else c :: replace_from old new 0 s'
      end
  end.

Definition replace (old new s : pystr) : pystr := replace_from old new 0 s.

Fixpoint lstrip (s : pystr) : pystr :=
  match s with
  | c :: s' => if is_space c then lstrip s' else s
  | [] => []
  end.

Definition rstrip (s : pystr) : pystr := rev (lstrip (rev s)).

(** [s.strip()] *)
Definition strip (s : pystr) : pystr := rstrip (lstrip s).

(** [s.split(sep, 1)] for a one-character [sep] that occurs in [s]: the part
    before the first occurrence and the part after it. *)
Fixpoint split_once (sep : ascii) (s : pystr) : pystr * pystr :=
  match s with
  | [] => ([], [])
  | c :: s' =>
      if ascii_eqb sep c then ([], s')
      else let '(a, b) := split_once sep s' in (c :: a, b)
  end.

(** *** Regular expressions

    The patterns of the scraper quantify character classes only, so the
    abstract syntax has a bounded greedy repetition of a class and no general
    star.  The matcher is a backtracking one in continuation-passing style:
    it tries the alternatives in the order Python's [re] does (greedy
    repetitions longest first, [|] left to right) and returns the first
    success. *)
Inductive regex :=
| Eps
| Chr (p : ascii -> bool)
| Rep (p : ascii -> bool) (lo : nat) (hi : option nat)
| Seq (r1 r2 : regex)
| Alt (r1 r2 : regex)
| Eos.

Definition more_allowed (hi : option nat) : bool :=
  match hi with
  | None => true
  | Some n => negb (n =? 0)
  end.

Definition hi_pred (hi : option nat) : option nat :=
  match hi with
  | None => None
  | Some n => Some (Nat.pred n)
  end.

Definition or_else {A} (x : option A) (y : option A) : option A :=
  match x with
  | Some _ => x
  | None => y
  end.

(** [p{lo,hi}], greedy: take one more character when allowed, and fall back
    to stopping here when the rest does not match. *)
Fixpoint rep_match {A} (p : ascii -> bool) (lo : nat) (hi : option nat)
    (s : pystr) (k : pystr -> option A) : option A :=
  let stop := if lo =? 0 then k s else None in
  match s with
  | c :: s' =>
      if p c && more_allowed hi
      then or_else (rep_match p (Nat.pred lo) (hi_pred hi) s' k) stop
      else stop
  | [] => stop
  end.

(** [$] outside [re.MULTILINE]: the end of the string, or the position just
    before a newline that ends the string. *)
Definition at_eos (s : pystr) : bool :=
  match s with
  | [] => true
  | [c] => code c =? 10
  | _ => false
  end.

Fixpoint rmatch {A} (r : regex) (s : pystr) (k : pystr -> option A)
  : option A :=
  match r with
  | Eps => k s
  | Chr p =>
      match s with
      | c :: s' => if p c then k s' else None
      | [] => None
      end
  | Rep p lo hi => rep_match p lo hi s k
  | Seq r1 r2 => rmatch r1 s (fun s1 => rmatch r2 s1 k)
  | Alt r1 r2 => or_else (rmatch r1 s k) (rmatch r2 s k)
  | Eos => if at_eos s then k s else None
  end.

(** What the matcher decides, stated without the search: [matches r s1 s2]
    says that [r] matches the text [s1] when [s2] is what follows it. *)
Definition within (n lo : nat) (hi : option nat) : Prop :=
  lo ≤ n ∧ match hi with Some h => n ≤ h | None => True end.

Fixpoint matches (r : regex) (s1 s2 : pystr) : Prop :=
  match r with
  | Eps => s1 = []
  | Chr p => ∃ c, s1 = [c] ∧ p c = true
  | Rep p lo hi =>
      Forall (fun c => p c = true) s1 ∧ within (length s1) lo hi
  | Seq r1 r2 =>
      ∃ a b, s1 = a ++ b ∧ matches r1 a (b ++ s2) ∧ matches r2 b s2
  | Alt r1 r2 => matches r1 s1 s2 ∨ matches r2 s1 s2
  | Eos => s1 = [] ∧ at_eos s2 = true
  end.

(** [re.match(r, s)]: the text matched at position 0 and what follows it. *)
Definition re_match (r : regex) (s : pystr) : option (pystr * pystr) :=
  match rmatch r s Some with
  | Some rest => Some (take (length s - length rest) s, rest)
  | None => None
  end.

(** [re.search(r, s)]: the leftmost position where [r] matches. *)
Fixpoint re_search (r : regex) (s : pystr) : option (pystr * pystr) :=
  match re_match r s with
  | Some m => Some m
  | None =>
      match s with
      | [] => None
      | _ :: s' => re_search r s'
      end
  end.

(** [re.sub(r, "", s)] for a pattern that matches no empty text: every
    match, found from the left, is deleted. *)
Fixpoint re_delete_from (r : regex) (skip : nat) (s : pystr) : pystr :=
  match s with
  | [] => []
  | c :: s' =>
      match skip with
      | S n => re_delete_from r n s'
      | O =>
          match re_match r s with
          | Some (_ :: m, _) => re_delete_from r (length m) s'
          | _ => c :: re_delete_from r 0 s'
          end
      end
  end.

Definition re_delete (r : regex) (s : pystr) : pystr := re_delete_from r 0 s.

(** A literal, character by character. *)
Fixpoint Lit (eqb : ascii -> ascii -> bool) (s : pystr) : regex :=
  match s with
  | [] => Eps
  | c :: s' => Seq (Chr (eqb c)) (Lit eqb s')
  end.

Definition Opt (r : regex) : regex := Alt r Eps.
Definition Plus (p : ascii -> bool) : regex := Rep p 1 None.
Definition Star (p : ascii -> bool) : regex := Rep p 0 None.
Definition Exactly (p : ascii -> bool) (n : nat) : regex := Rep p n (Some n).

End PyStr.

(* ===================================================================== *)
(** ** Identifiers *)
(* ===================================================================== *)

Module Ids.
Import PyStr.

(** [r"v\d+$"] *)
Definition re_version_suffix : regex :=
  Seq (Chr (ascii_eqb "v")) (Seq (Plus is_digit) Eos).

(** [format_yymm_id] *)
Definition format_yymm_id (arxiv_id : pystr) : pystr :=
  let arxiv_id := strip (replace (py "arXiv:") [] arxiv_id) in
  let arxiv_id := re_delete re_version_suffix arxiv_id in
  if contains_char "." arxiv_id
  then let '(prefix, num) := split_once "." arxiv_id in
       prefix ++ py "-" ++ num
  else arxiv_id.

(** [r'^(\w+\.)?\d{2}(0[1-9]|1[0-2])\.\d{4,5}$'], used with [re.match], which
    starts at position 0, where [^] holds. *)
Definition re_arxiv_id : regex :=
  Seq (Opt (Seq (Plus is_word) (Chr (ascii_eqb "."))))
  (Seq (Exactly is_digit 2)
  (Seq (Alt (Seq (Chr (ascii_eqb "0")) (Chr (in_range 49 57)))
            (Seq (Chr (ascii_eqb "1")) (Chr (in_range 48 50))))
  (Seq (Chr (ascii_eqb "."))
  (Seq (Rep is_digit 4 (Some 5)) Eos)))).

(** [_is_valid_arxiv_id] *)
Definition _is_valid_arxiv_id (arxiv_id : pystr) : bool :=
  match arxiv_id with
  | [] => false
  | _ =>
      let base := re_delete re_version_suffix arxiv_id in
      match re_match re_arxiv_id base with
      | Some _ => true
      | None => false
      end
  end.

(** The capture group of the two URL patterns: one or more digits or dots,
    an optional [v], any number of digits; compiled with [re.IGNORECASE]. *)
Definition re_url_id : regex :=
  Seq (Plus (fun c => is_digit c || ascii_eqb "." c))
  (Seq (Opt (Chr (ascii_eqb_ci "v"))) (Star is_digit)).

(** What precedes the group in the pattern for [arxiv.org/abs/] and in the
    one for [arxiv.org/pdf/]. *)
Definition re_abs_prefix : regex := Lit ascii_eqb_ci (py "arxiv.org/abs/").
Definition re_pdf_prefix : regex := Lit ascii_eqb_ci (py "arxiv.org/pdf/").

(** [m = re.search(prefix + group, s); m.group(1)]: the prefix is a literal,
    so the leftmost match is the leftmost place where the literal is followed
    by a match of the group, and the group is what the greedy match takes. *)
Fixpoint search_group (prefix group : regex) (s : pystr) : option pystr :=
  let here :=
    match re_match prefix s with
    | Some (_, rest) =>
        match re_match group rest with
        | Some (g, _) => Some g
        | None => None
        end
    | None => None
    end in
  match here with
  | Some g => Some g
  | None =>
      match s with
      | [] => None
      | _ :: s' => search_group prefix group s'
      end
  end.

(** A run of decimal digits. *)
Definition digits (s : pystr) : Prop := Forall (fun c => is_digit c = true) s.

(** The identifier format of [re_arxiv_id], part by part: an optional
    subject class (one or more word characters, then a dot), the two digits
    of the year, a month from 01 to 12, a dot, and four or five digits.
    [rest] is what [$] lets follow: nothing, or one final newline. *)
Definition is_month (a b : ascii) : bool :=
  (ascii_eqb "0" a && in_range 49 57 b) || (ascii_eqb "1" a && in_range 48 50 b).

Inductive subject_class : pystr -> Prop :=
| no_subject : subject_class []
| with_subject w :
    w ≠ [] -> Forall (fun c => is_word c = true) w ->
    subject_class (w ++ ["."%char]).

Inductive id_format : pystr -> Prop :=
| id_format_intro subject y1 y2 m1 m2 num rest :
    subject_class subject ->
    is_digit y1 = true -> is_digit y2 = true ->
    is_month m1 m2 = true ->
    digits num -> 4 ≤ length num ≤ 5 ->
    at_eos rest = true ->
    id_format (subject ++ [y1; y2; m1; m2; "."%char] ++ num ++ rest).

(** The characters of an identifier in dotted or dashed form. *)
Definition id_char (c : ascii) : bool :=
  is_digit c || ascii_eqb "." c || ascii_eqb "-" c.

(** The identifier [d1.d2], with the revision suffix [vk] when [k] is not
    empty, and its dash form [d1-d2]. *)
Definition dotted (d1 d2 k : pystr) : pystr :=
  let base := d1 ++ "."%char :: d2 in
  match k with
  | [] => base
  | _ :: _ => base ++ "v"%char :: k
  end.

Definition dashed (d1 d2 : pystr) : pystr := d1 ++ "-"%char :: d2.

End Ids.

(* ===================================================================== *)
(** ** Data *)
(* ===================================================================== *)

Module Data.
Import PyStr.

(** A [pathlib.Path], as its components. *)
Definition path := list pystr.
Definition path_join (p : path) (name : pystr) : path := p ++ [name].
Definition parent (p : path) : path := removelast p.

(** Truth value of a field that may be absent, [null] or a string. *)
Definition truthy_opt (o : option pystr) : bool :=
  match o with
  | Some s => truthy s
  | None => false
  end.

(** One element of the [references] list of a Semantic Scholar answer.  A
    field is [None] when the key is absent or its value is [null]; the values
    have the types of the Graph API (strings, a list of author objects, an
    integer year). *)
Record raw_ref := {
  ref_externalIds : option (gmap pystr pystr);
  ref_url : option pystr;
  ref_title : option pystr;
  ref_authors : list (option pystr);   (* the [name] of each author object *)
  ref_publicationDate : option pystr;
  ref_year : option Z;
  ref_paperId : option pystr;
}.

(** The paper-level part of an answer.  [ss_publicationVenue] is [Some nm]
    when the field is an object, [nm] being its [name]; an element of
    [ss_references] is [None] when it is not an object. *)
Record ss_paper := {
  ss_publicationVenue : option (option pystr);
  ss_venue : option pystr;
  ss_references : list (option raw_ref);
}.

(** What [_ss_get_cached] hands to its callers when it has data: the empty
    dictionary, or a dictionary with keys. *)
Inductive ss_json :=
| EmptyDict
| PaperDict (d : ss_paper).

(** A value of the reference mapping. *)
Record reference := {
  r_paper_title : pystr;
  r_authors : list pystr;
  r_submission_date : pystr;
  r_semantic_scholar_id : option pystr;
}.

(** The metadata dictionary; [revised_dates] is a key only when dates were
    found. *)
Record metadata := {
  m_paper_title : pystr;
  m_authors : list pystr;
  m_submission_date : pystr;
  m_publication_venue : pystr;
  m_revised_dates : option (list pystr);
}.

(** [meta_result['publication_venue'] = venue] *)
Definition set_publication_venue (m : metadata) (venue : pystr) : metadata :=
  {| m_paper_title := m_paper_title m;
     m_authors := m_authors m;
     m_submission_date := m_submission_date m;
     m_publication_venue := venue;
     m_revised_dates := m_revised_dates m |}.

(** What [_save_json] is given to write. *)
Inductive json_doc :=
| MetadataDoc (m : metadata)
| ReferencesDoc (refs : gmap pystr reference).

(** The entry of the primary source for a paper. *)
Record arxiv_paper := {
  p_title : pystr;
  p_authors : list pystr;
  p_published : option pystr;     (* [published.strftime('%Y-%m-%d')] *)
  p_journal_ref : option pystr;
}.

End Data.

(* ===================================================================== *)
(** ** Effects *)
(* ===================================================================== *)

Module Eff.
Import PyStr Data.

(** The integer entries of [self.stats].  The entries that hold wall-clock
    sums, byte sizes and memory samples are measurements of the machine and
    are not modelled. *)
Inductive counter :=
| papers_attempted | papers_successful | papers_failed
| total_references | references_found | references_with_arxiv
| ss_requests_made | ss_rate_limit_hits | ss_errors
| versions_found | versions_downloaded | version_checks | files_removed.

#[global] Instance counter_eq_dec : EqDecision counter.
Proof. solve_decision. Defined.

(** The exceptions that occur in the modelled code. *)
Inductive exn :=
| TypeError                        (* subscripting [None], [in] on [None] *)
| NoMetadata (base_dot_id : pystr) (* [Exception(f"No metadata for {id}")] *)
| StopIteration                    (* [next] on an empty result generator *)
| RetryError                       (* [requests.exceptions.RetryError] *)
| RequestException                 (* any other failure of an HTTP call *)
| ValueError                       (* a body that is not JSON *)
| TimeoutError                     (* [Future.result(timeout=30)] ran out *)
| OSError.                         (* a broken archive *)

Inductive result (A : Type) :=
| Ok (a : A)
| Raise (e : exn).
Arguments Ok {A} a.
Arguments Raise {A} e.

(** The operations on the outside world.  [Spawn t] is [executor.submit] of
    a task that performs the operations [t] in its own thread; they happen
    after the submission, concurrently with what the submitting thread does
    next. *)
Inductive op :=
| Incr (k : counter) (n : nat)      (* [self.stats[k] += n] *)
| RateLimiterWait                   (* [self.ss_rate_limiter.wait_if_needed()] *)
| HttpHead (url : pystr)
| HttpGet (url : pystr)
| ArxivSearch (arxiv_id : pystr)    (* [next(arxiv.Search(id_list=[id]).results())] *)
| Mkdir (p : path)                  (* [p.mkdir(parents=True, exist_ok=True)] *)
| WriteJson (p : path) (doc : json_doc)
| WriteFile (p : path)              (* the archive streamed to disk *)
| ExtractTar (archive dest : path)
| Unlink (p : path)
| Spawn (task : list op).

(** A computation yields the operations it performed, in order, and a value
    or an exception. *)
Record M (A : Type) : Type := Run { trace : list op; outcome : result A }.
Arguments Run {A} trace outcome.
Arguments trace {A} m.
Arguments outcome {A} m.

Definition ret {A} (a : A) : M A := Run [] (Ok a).
Definition raise {A} (e : exn) : M A := Run [] (Raise e).
Definition emit (o : op) : M unit := Run [o] (Ok tt).

Definition bind {A B} (m : M A) (f : A -> M B) : M B :=
  match outcome m with
  | Ok a => Run (trace m ++ trace (f a)) (outcome (f a))
  | Raise e => Run (trace m) (Raise e)
  end.

(** [try: m  except Exception as e: h e] *)
Definition try_except {A} (m : M A) (h : exn -> M A) : M A :=
  match outcome m with
  | Raise e => Run (trace m ++ trace (h e)) (outcome (h e))
  | Ok _ => m
  end.

#[global] Instance M_ret : MRet M := fun A a => ret a.
#[global] Instance M_bind : MBind M := fun A B f m => bind m f.

(** A [for] loop over [l] that threads an accumulator. *)
Fixpoint for_each {A S} (l : list A) (s : S) (body : S -> A -> M S) : M S :=
  match l with
  | [] => ret s
  | a :: l' => bind (body s a) (fun s' => for_each l' s' body)
  end.

(** *** Thread pools *)

(** A future holds what its task returns or raises. *)
Definition future (A : Type) : Type := result A.

(** [executor.submit(task)] *)
Definition submit {A} (task : M A) : M (future A) :=
  Run [Spawn (trace task)] (Ok (outcome task)).

(** Whether a future is done when the caller's wait ends. *)
Inductive wait := Completed | TimedOut.

(** [fut.result(timeout=...)]; without a timeout the wait is [Completed]. *)
Definition future_result {A} (w : wait) (fut : future A) : M A :=
  match w with
  | TimedOut => raise TimeoutError
  | Completed =>
      match fut with
      | Ok a => ret a
      | Raise e => raise e
      end
  end.

(** [as_completed(futures)] yields the futures in the order in which their
    tasks finish.  Tasks are keyed by a number; [finish key] is the time at
    which the task with that key ends. *)
Definition finishes_before (finish : nat -> nat) {A} (a b : nat * A) : Prop :=
  finish a.1 ≤ finish b.1.

#[global] Instance finishes_before_dec finish {A} :
  RelDecision (@finishes_before finish A).
Proof. intros a b. unfold finishes_before. apply _. Defined.

Definition as_completed {A} (finish : nat -> nat) (futures : list (nat * A))
  : list (nat * A) :=
  merge_sort (finishes_before finish) futures.

(** What the caller has after waiting for a future and catching whatever the
    wait raises: the value of the task, or [otherwise]. *)
Definition awaited {A} (w : wait) (fut : future A) (otherwise : A) : A :=
  match w, fut with
  | Completed, Ok a => a
  | _, _ => otherwise
  end.

(** Every operation of a computation satisfies [P]. *)
Definition only {A} (P : op -> Prop) (m : M A) : Prop := Forall P (trace m).

(** [ensure_dir] *)
Definition ensure_dir (p : path) : M unit := emit (Mkdir p).

(** The counters after the operations of one thread, from the initial value
    0 that [__init__] gives every counter. *)
Definition incr_of (k : counter) (o : op) : nat :=
  match o with
  | Incr k' n => if bool_decide (k = k') then n else 0
  | _ => 0
  end.

Definition counted (k : counter) (t : list op) : nat :=
  sum_list_with (incr_of k) t.

(** Whether an operation, or a task it spawns, writes counter [k]. *)
Fixpoint writes (k : counter) (o : op) : bool :=
  match o with
  | Incr k' _ => bool_decide (k = k')
  | Spawn t => existsb (writes k) t
  | _ => false
  end.

(** The counters that [scrape_papers] itself updates. *)
Definition paper_counter (k : counter) : bool :=
  match k with
  | papers_attempted | papers_successful | papers_failed => true
  | _ => false
  end.

End Eff.

(** Sequencing is stdpp's [m;; k]; binding a result is written [let*]. *)
Notation "'let*' x ':=' m 'in' k" := (Eff.bind m (fun x => k))
  (at level 10, x pattern, m at level 100, k at level 200,
   format "'[v' 'let*'  x  ':='  m  'in' '/' k ']'").

(* ===================================================================== *)
(** ** Version discovery *)
(* ===================================================================== *)

Module Versions.
Import PyStr Data Eff.

Definition ARXIV_EPRINT_URL : pystr := py "https://arxiv.org/e-print/".
Definition ARXIV_ABS_URL : pystr := py "https://arxiv.org/abs/".
Definition MAX_VERSION_TO_CHECK : nat := 8.

(** What [session.head(url, timeout=6, allow_redirects=True)] does: it
    returns a response with a status code, or it raises. *)
Inductive head_outcome :=
| HeadStatus (status_code : Z)
| HeadRaises.

(** [_check_version_exists] *)
Definition _check_version_exists (resp : head_outcome)
    (arxiv_id_with_version : pystr) : M bool :=
  let url := ARXIV_EPRINT_URL ++ arxiv_id_with_version in
  try_except
    (emit (HttpHead url);;
     match resp with
     | HeadStatus status_code =>
         emit (Incr version_checks 1);;
         ret (status_code =? 200)%Z
     | HeadRaises => raise RequestException
     end)
    (fun _ => ret false).

(** The body of [for v in range(1, max(results)+1)] with its [break]. *)
Fixpoint take_contiguous (results : list nat) (vs : list nat) : list nat :=
  match vs with
  | [] => []
  | v :: vs' =>
      if bool_decide (v ∈ results) then v :: take_contiguous results vs' else []
  end.

Definition max_v : nat := Nat.min MAX_VERSION_TO_CHECK 20.

(** [_discover_all_versions].

    [probe v] is the answer to the pooled HEAD request for revision [v];
    [finish v] is the time at which that probe ends; [recheck] is the answer
    to the second, separate HEAD request for revision 1, which is sent only
    when the pooled probes gave no prefix. *)
Definition _discover_all_versions
    (probe : nat -> head_outcome) (finish : nat -> nat)
    (recheck : head_outcome) (arxiv_id : pystr) : M (list nat) :=
  let* futures :=
    for_each (seq 1 max_v) [] (fun futures v =>
      let* fut :=
        submit (_check_version_exists (probe v)
                  (arxiv_id ++ py "v" ++ str_of_nat v)) in
      ret (futures ++ [(v, fut)])) in
  let* results :=
    for_each (as_completed finish futures) [] (fun results '(v, fut) =>
      try_except
        (let* exists_ := future_result Completed fut in
         ret (if exists_ then results ++ [v] else results))
        (fun _ => ret results)) in
  let results := merge_sort Nat.le results in
  let contiguous :=
    match results with
    | [] => []
    | _ => take_contiguous results (seq 1 (max_list results))
    end in
  match contiguous with
  | _ :: _ => ret contiguous
  | [] =>
      let* again :=
        _check_version_exists recheck (arxiv_id ++ py "v1") in
      ret (if again then [1] else [])
  end.

(** A probe confirms a revision when it answers with status 200. *)
Definition confirmed (resp : head_outcome) : bool :=
  match resp with
  | HeadStatus status_code => (status_code =? 200)%Z
  | HeadRaises => false
  end.

(** The set of revisions the pooled probes confirmed. *)
Definition confirmed_set (probe : nat -> head_outcome) : gset nat :=
  list_to_set (filter (fun v => confirmed (probe v)) (seq 1 max_v)).

(** What the loop over [as_completed] keeps of a future. *)
Definition kept (vf : nat * future bool) : option nat :=
  match vf.2 with
  | Ok true => Some vf.1
  | _ => None
  end.

(** The revisions the loop collects, before sorting. *)
Definition collected (probe : nat -> head_outcome) (finish : nat -> nat)
    (arxiv_id : pystr) : list nat :=
  omap kept
    (as_completed finish
       ((fun v => (v, outcome (_check_version_exists (probe v)
                                 (arxiv_id ++ py "v" ++ str_of_nat v))))
          <$> seq 1 max_v)).

(** The probes of the specification's example: revisions 1, 2 and 4 answer
    200, every other one 404. *)
Definition probe_124 (v : nat) : head_outcome :=
  if bool_decide (v ∈ [1; 2; 4]) then HeadStatus 200 else HeadStatus 404.

End Versions.

(* ===================================================================== *)
(** ** The citation-graph client *)
(* ===================================================================== *)

Module SS.
Import PyStr Data Eff.

Definition SEMANTIC_SCHOLAR_BASE : pystr :=
  py "https://api.semanticscholar.org/graph/v1/paper/arXiv:".

(** [urllib3.util.retry.Retry], with the two settings [__init__] gives it. *)
Record Retry := {
  total : nat;
  status_forcelist : list Z;
}.

(** [Retry(total=2, backoff_factor=0.5,
           status_forcelist=[429, 500, 502, 503, 504])], mounted on the
    session for [https://] and [http://]. *)
Definition session_retries : Retry :=
  {| total := 2; status_forcelist := [429; 500; 502; 503; 504]%Z |}.

(** What the server does with one request: it answers with a status, maybe a
    [Retry-After] header, and a body (the JSON it parses to, if it does), or
    the request fails (connection error, time-out). *)
Inductive http_answer :=
| Response (status_code : Z) (retry_after : bool) (body : option ss_json)
| Failure.

Definition RETRY_AFTER_STATUS_CODES : list Z := [413; 429; 503]%Z.

(** [Retry.is_retry] for a GET, with [left] retries remaining. *)
Definition is_retry (r : Retry) (left : nat) (status_code : Z)
    (has_retry_after : bool) : bool :=
  bool_decide (status_code ∈ status_forcelist r)
  || (negb (left =? 0) && has_retry_after
      && bool_decide (status_code ∈ RETRY_AFTER_STATUS_CODES)).

(** The adapter's send loop.  [answers] are the server's answers to the
    successive requests (a request beyond the list fails).  An answer that
    [is_retry] accepts, and a failed request, consume one retry and the
    request is sent again; when none is left the adapter raises. *)
Fixpoint urlopen (r : Retry) (left : nat) (url : pystr)
    (answers : list http_answer) : M (Z * option ss_json) :=
  emit (HttpGet url);;
  match answers with
  | Response status_code retry_after body :: later =>
      if is_retry r left status_code retry_after then
        match left with
        | 0 => raise RetryError
        | S left' => urlopen r left' url later
        end
      else ret (status_code, body)
  | Failure :: later =>
      match left with
      | 0 => raise RequestException
      | S left' => urlopen r left' url later
      end
  | [] =>
      match left with
      | 0 => raise RequestException
      | S left' => urlopen r left' url []
      end
  end.

(** [self.session.get(url, ...)] *)
Definition session_get (url : pystr) (answers : list http_answer)
  : M (Z * option ss_json) :=
  urlopen session_retries (total session_retries) url answers.

(** The body of [_ss_get_cached]. *)
Definition _ss_get (answers : list http_answer) (arxiv_id fields : pystr)
  : M (option ss_json) :=
  emit RateLimiterWait;;
  emit (Incr ss_requests_made 1);;
  let url := SEMANTIC_SCHOLAR_BASE ++ arxiv_id in
  try_except
    (let* resp := session_get url answers in
     let '(status_code, body) := resp in
     if (status_code =? 200)%Z then
       match body with
       | Some data => ret (Some data)
       | None => raise ValueError
       end
     else if (status_code =? 429)%Z then
       emit (Incr ss_rate_limit_hits 1);;
       ret None
     else if (status_code =? 404)%Z then ret (Some EmptyDict)
     else ret (Some EmptyDict))
    (fun _ =>
       emit (Incr ss_errors 1);;
       ret None).

(** [_ss_get_cached]: [functools.lru_cache] in front of the body.  [cached]
    is what the cache holds for the key [(self, arxiv_id, fields)]; on a hit
    the body does not run. *)
Definition _ss_get_cached (cached : option (option ss_json))
    (answers : list http_answer) (arxiv_id fields : pystr)
  : M (option ss_json) :=
  match cached with
  | Some held => ret held
  | None => _ss_get answers arxiv_id fields
  end.

(** The number of requests that went out. *)
Definition is_get (o : op) : bool :=
  match o with
  | HttpGet _ => true
  | _ => false
  end.

Definition requests_sent (t : list op) : nat :=
  sum_list_with (fun o => if is_get o then 1 else 0) t.

End SS.

(* ===================================================================== *)
(** ** References *)
(* ===================================================================== *)

Module Refs.
Import PyStr Ids Data Eff Versions SS.

(** [for key in keys: v = ext_ids.get(key); if v: return v] *)
Fixpoint first_truthy (ext_ids : gmap pystr pystr) (keys : list pystr)
  : option pystr :=
  match keys with
  | [] => None
  | key :: keys' =>
      match ext_ids !! key with
      | Some (c :: v) => Some (c :: v)
      | _ => first_truthy ext_ids keys'
      end
  end.

(** [_extract_arxiv_id_comprehensive] *)
Definition _extract_arxiv_id_comprehensive (ref : raw_ref) : option pystr :=
  let from_ids :=
    match ref_externalIds ref with
    | Some ext_ids =>
        first_truthy ext_ids [py "ArXiv"; py "arXiv"; py "arxiv"; py "ARXIV"]
    | None => None
    end in
  match from_ids with
  | Some v => Some v
  | None =>
      let url := default [] (ref_url ref) in
      if truthy url && contains (py "arxiv.org") url then
        match search_group re_abs_prefix re_url_id url with
        | Some g => Some g
        | None => search_group re_pdf_prefix re_url_id url
        end
      else None
  end.

(** [_get_submission_date_from_arxiv]: the request for the abstract page;
    [abs_date base_id] is the date the function reads off the page, the empty
    string when the request or the search in the page fails. *)
Definition _get_submission_date_from_arxiv (abs_date : pystr -> pystr)
    (arxiv_id : pystr) : M pystr :=
  let base_id := re_delete re_version_suffix arxiv_id in
  emit (HttpGet (ARXIV_ABS_URL ++ base_id));;
  ret (abs_date base_id).

(** [_build_reference_metadata_accurate] *)
Definition _build_reference_metadata_accurate (abs_date : pystr -> pystr)
    (ref : raw_ref) (arxiv_ref_id : pystr) : M (option reference) :=
  try_except
    (let authors :=
       omap (fun author =>
               match author with
               | Some name =>
                   if truthy name && truthy (strip name)
                   then Some (strip name) else None
               | None => None
               end) (ref_authors ref) in
     let pub_date := default [] (ref_publicationDate ref) in
     let submission_date :=
       if truthy pub_date && truthy (strip pub_date)
       then strip pub_date else [] in
     let* submission_date :=
       if truthy submission_date then ret submission_date
       else _get_submission_date_from_arxiv abs_date arxiv_ref_id in
     let submission_date :=
       if truthy submission_date then submission_date
       else
         match ref_year ref with
         | Some year_int =>
             if ((1990 <=? year_int) && (year_int <=? 2030))%Z
             then str_of_Z year_int ++ py "-01-01" else []
         | None => []
         end in
     let metadata :=
       {| r_paper_title := default [] (ref_title ref);
          r_authors := authors;
          r_submission_date := submission_date;
          r_semantic_scholar_id :=
            if truthy_opt (ref_paperId ref) then ref_paperId ref else None |} in
     if negb (truthy (r_paper_title metadata)) then ret None
     else ret (Some metadata))
    (fun _ => ret None).

Definition REFERENCE_FIELDS : pystr :=
  py "paperId,venue,publicationVenue,references,references.externalIds,references.title,references.authors,references.publicationDate,references.paperId,references.venue".

(** The venue [_fetch_references_and_paper_venue] reads off the answer. *)
Definition paper_venue_of (data : ss_paper) : option pystr :=
  let paper_venue :=
    match ss_publicationVenue data with
    | Some (Some nm) =>
        if truthy nm && truthy (strip nm) then Some (strip nm) else None
    | _ => None
    end in
  if truthy_opt paper_venue then paper_venue
  else
    match ss_venue data with
    | Some vs => if truthy (strip vs) then Some (strip vs) else paper_venue
    | None => paper_venue
    end.

(** The body of the loop over the raw references: the mapping and
    [arxiv_refs_count] before and after one reference. *)
Definition reference_step (abs_date : pystr -> pystr)
    (acc : gmap pystr reference * nat) (ref : option raw_ref)
  : M (gmap pystr reference * nat) :=
  let '(references, arxiv_refs_count) := acc in
  match ref with
  | None => ret acc
  | Some ref =>
      match _extract_arxiv_id_comprehensive ref with
      | Some arxiv_ref_id =>
          if truthy arxiv_ref_id && _is_valid_arxiv_id arxiv_ref_id then
            let arxiv_refs_count := S arxiv_refs_count in
            let formatted_ref_id := format_yymm_id arxiv_ref_id in
            let* ref_data :=
              _build_reference_metadata_accurate abs_date ref arxiv_ref_id in
            match ref_data with
            | Some ref_data =>
                ret (<[formatted_ref_id := ref_data]> references,
                     arxiv_refs_count)
            | None => ret (references, arxiv_refs_count)
            end
          else ret acc
      | None => ret acc
      end
  end.

(** [_fetch_references_and_paper_venue] *)
Definition _fetch_references_and_paper_venue
    (cached : option (option ss_json)) (answers : list http_answer)
    (abs_date : pystr -> pystr) (arxiv_id : pystr)
  : M (gmap pystr reference * option pystr) :=
  let* data := _ss_get_cached cached answers arxiv_id REFERENCE_FIELDS in
  match data with
  | None => ret (∅, None)
  | Some EmptyDict => ret (∅, None)
  | Some (PaperDict data) =>
      let paper_venue := paper_venue_of data in
      let refs := ss_references data in
      emit (Incr references_found (length refs));;
      let* done := for_each refs (∅, 0) (reference_step abs_date) in
      let '(references, arxiv_refs_count) := done in
      emit (Incr references_with_arxiv arxiv_refs_count);;
      ret (references, paper_venue)
  end.


(** The three raw references of the specification's examples: an
    identifier in the external ids, an identifier only in a URL, and an
    identifier without a title. *)
Definition ref_with_external_id : raw_ref :=
  {| ref_externalIds := Some {[ py "ArXiv" := py "2401.00001" ]};
     ref_url := None;
     ref_title := Some (py "A cited paper");
     ref_authors := [Some (py "A. Author")];
     ref_publicationDate := Some (py "2024-01-02");
     ref_year := Some 2024%Z;
     ref_paperId := Some (py "s2-a") |}.

Definition ref_with_url : raw_ref :=
  {| ref_externalIds := None;
     ref_url := Some (py "https://arxiv.org/abs/2401.00002");
     ref_title := Some (py "Another cited paper");
     ref_authors := [];
     ref_publicationDate := None;
     ref_year := Some 2024%Z;
     ref_paperId := None |}.

Definition ref_without_title : raw_ref :=
  {| ref_externalIds := Some {[ py "ArXiv" := py "2401.00003" ]};
     ref_url := None;
     ref_title := None;
     ref_authors := [];
     ref_publicationDate := None;
     ref_year := None;
     ref_paperId := None |}.

Definition example_answer : ss_paper :=
  {| ss_publicationVenue := Some (Some (py " NeurIPS "));
     ss_venue := Some (py "Neural Information Processing Systems");
     ss_references :=
       [Some ref_with_external_id; Some ref_with_url; Some ref_without_title] |}.

End Refs.

(* ===================================================================== *)
(** ** Downloads *)
(* ===================================================================== *)

Module Download.
Import PyStr Data Eff Versions.

(** What the GET of an archive does. *)
Inductive download_outcome :=
| DlStatus (status_code : Z)
| DlRaises.

(** What unpacking does: [tarfile.open], [extractall], [flatten_directory]
    and [remove_non_tex_bib] go through and the last one removes that many
    files, or one of them raises. *)
Inductive extract_outcome :=
| Extracted (removed : nat)
| ExtractRaises.

(** [download_eprint_session] *)
Definition download_eprint_session (answer : download_outcome)
    (id_with_version : pystr) (dest : path) : M (option path) :=
  let url := ARXIV_EPRINT_URL ++ id_with_version in
  try_except
    (emit (HttpGet url);;
     match answer with
     | DlStatus status_code =>
         if (status_code =? 200)%Z then
           ensure_dir (parent dest);;
           emit (WriteFile dest);;
           ret (Some dest)
         else ret None
     | DlRaises => raise RequestException
     end)
    (fun _ => ret None).

(** [_download_and_process_version] *)
Definition _download_and_process_version (answer : download_outcome)
    (unpack : extract_outcome) (version_id : pystr)
    (version_dir tex_root : path) (version_folder : pystr) : M bool :=
  ensure_dir version_dir;;
  let tar_path := path_join tex_root (version_folder ++ py ".tar.gz") in
  let* saved := download_eprint_session answer version_id tar_path in
  match saved with
  | Some saved =>
      let* ok :=
        try_except
          (emit (ExtractTar saved version_dir);;
           match unpack with
           | Extracted removed =>
               emit (Incr files_removed removed);;
               ret true
           | ExtractRaises => raise OSError
           end)
          (fun _ => ret false) in
      emit (Unlink saved);;
      ret ok
  | None => ret false
  end.

(** [_download_versions_concurrently]; the answers and the finishing times
    are given per revision number. *)
Definition _download_versions_concurrently (output_dir : path)
    (answer : nat -> download_outcome) (unpack : nat -> extract_outcome)
    (finish : nat -> nat)
    (formatted base_dot_id : pystr) (versions_info : list (nat * pystr))
  : M nat :=
  let tex_root := path_join (path_join output_dir formatted) (py "tex") in
  ensure_dir tex_root;;
  let* future_to_vi :=
    for_each versions_info [] (fun future_to_vi v =>
      let '(version_num, version_id) := v in
      let version_folder := formatted ++ py "v" ++ str_of_nat version_num in
      let version_dir := path_join tex_root version_folder in
      let* fut :=
        submit (_download_and_process_version (answer version_num)
                  (unpack version_num) version_id version_dir tex_root
                  version_folder) in
      ret (future_to_vi ++ [(version_num, fut)])) in
  for_each (as_completed finish future_to_vi) 0 (fun successful_versions vf =>
    try_except
      (let* ok := future_result Completed vf.2 in
       if ok : bool then
         emit (Incr versions_downloaded 1);;
         ret (S successful_versions)
       else ret successful_versions)
      (fun _ => ret successful_versions)).

(** A revision succeeds when its download answers 200 and unpacking goes
    through. *)
Definition version_ok (answer : download_outcome) (unpack : extract_outcome)
  : bool :=
  match answer, unpack with
  | DlStatus status_code, Extracted _ => (status_code =? 200)%Z
  | _, _ => false
  end.

(** Counting the futures that hold [True]. *)
Definition succeeded (fut : future bool) : bool :=
  match fut with
  | Ok true => true
  | _ => false
  end.

Definition tally {X} (good : X -> bool) (l : list X) : nat :=
  sum_list_with (fun x => if good x then 1 else 0) l.

(** A predicate on operations that nothing outside the orchestrator can
    break: it holds of the counters other than the batch counters, of the
    rate limiter, of HEAD requests, of GET requests that are no downloads,
    and of a spawned task whose operations all satisfy it. *)
Record benign (P : op -> Prop) : Prop := {
  benign_incr : ∀ k n, paper_counter k = false -> P (Incr k n);
  benign_rate : P RateLimiterWait;
  benign_head : ∀ url, P (HttpHead url);
  benign_get : ∀ url, starts_with ARXIV_EPRINT_URL url = false -> P (HttpGet url);
  benign_spawn : ∀ t, Forall P t -> P (Spawn t);
}.

(** A predicate that also holds of everything a download task does. *)
Record benign_download (P : op -> Prop) : Prop := {
  benign_any_get : ∀ url, P (HttpGet url);
  benign_mkdir : ∀ p, P (Mkdir p);
  benign_write_file : ∀ p, P (WriteFile p);
  benign_extract : ∀ a d, P (ExtractTar a d);
  benign_unlink : ∀ p, P (Unlink p);
}.

End Download.

(* ===================================================================== *)
(** ** One paper *)
(* ===================================================================== *)

Module Paper.
Import PyStr Ids Data Eff Versions SS Refs Download.

(** What the primary source answers to [arxiv.Search(id_list=[id])]. *)
Inductive lookup_answer :=
| Entry (paper : arxiv_paper)
| NoEntry          (* the result generator is empty: [StopIteration] *)
| LookupRaises.    (* the query itself fails *)

(** What the network does during one call of
    [_fetch_metadata_with_complete_versions]. *)
Record meta_net := {
  mn_lookup : lookup_answer;
  mn_probe : nat -> head_outcome;
  mn_finish : nat -> nat;
  mn_recheck : head_outcome;
  mn_ss_cached : option (option ss_json);
  mn_ss_answers : list http_answer;
  mn_dates : list pystr;   (* what [_scrape_version_dates_light] returns *)
}.

(** [_scrape_version_dates_light]: the request for the abstract page; the dates
    it finds there, deduplicated and sorted, [[]] when anything fails. *)
Definition _scrape_version_dates_light (dates : list pystr)
    (arxiv_id : pystr) : M (list pystr) :=
  emit (HttpGet (ARXIV_ABS_URL ++ arxiv_id));;
  ret dates.

(** The venue the metadata fetch reads off a citation-graph answer. *)
Definition venue_of_answer (data : option ss_json) : pystr :=
  match data with
  | Some (PaperDict data) =>
      match ss_publicationVenue data with
      | Some nm =>
          match nm with
          | Some nm => if truthy nm && truthy (strip nm) then strip nm else []
          | None => []
          end
      | None =>
          match ss_venue data with
          | Some venue => if truthy (strip venue) then strip venue else []
          | None => []
          end
      end
  | _ => []
  end.

(** [_fetch_metadata_with_complete_versions] *)
Definition _fetch_metadata_with_complete_versions (net : meta_net)
    (arxiv_id : pystr) (venue_override : option pystr)
  : M (option metadata * list (nat * pystr)) :=
  try_except
    (emit (ArxivSearch arxiv_id);;
     let* paper :=
       match mn_lookup net with
       | Entry paper => ret paper
       | NoEntry => raise StopIteration
       | LookupRaises => raise RequestException
       end in
     let* all_versions :=
       _discover_all_versions (mn_probe net) (mn_finish net)
         (mn_recheck net) arxiv_id in
     let all_versions :=
       match all_versions with
       | [] => [1]
       | _ => all_versions
       end in
     emit (Incr versions_found (length all_versions));;
     let versions_info :=
       (fun v => (v, arxiv_id ++ py "v" ++ str_of_nat v)) <$> all_versions in
     let* publication_venue :=
       match venue_override with
       | Some (c :: venue) => ret (c :: venue)
       | _ =>
           let* data :=
             _ss_get_cached (mn_ss_cached net) (mn_ss_answers net) arxiv_id
               (py "venue,publicationVenue") in
           let venue := venue_of_answer data in
           ret (if negb (truthy venue) && truthy_opt (p_journal_ref paper)
                then strip (default [] (p_journal_ref paper))
                else venue)
       end in
     let* revised_dates := _scrape_version_dates_light (mn_dates net) arxiv_id in
     let metadata :=
       {| m_paper_title := p_title paper;
          m_authors := p_authors paper;
          m_submission_date := default [] (p_published paper);
          m_publication_venue := publication_venue;
          m_revised_dates :=
            match revised_dates with
            | [] => None
            | _ => Some revised_dates
            end |} in
     ret (Some metadata, versions_info))
    (fun _ => ret (None, [])).

(** What the network and the scheduler do while one paper is processed. *)
Record paper_net := {
  pn_refs_cached : option (option ss_json);
  pn_refs_answers : list http_answer;
  pn_abs_date : pystr -> pystr;
  pn_refs_wait : wait;       (* is the reference task done within 30 s *)
  pn_meta : meta_net;        (* during the pooled metadata task *)
  pn_meta_wait : wait;       (* is the metadata task done within 30 s *)
  pn_retry : meta_net;       (* during the second metadata call *)
  pn_download : nat -> download_outcome;
  pn_unpack : nat -> extract_outcome;
  pn_download_finish : nat -> nat;
}.

(** [_save_json].  The handler logs and returns, so the caller goes on in
    the same way whether or not the write went through. *)
Definition _save_json (p : path) (obj : json_doc) : M unit :=
  try_except
    (ensure_dir (parent p);;
     emit (WriteJson p obj))
    (fun _ => ret tt).

(** The first lines of [scrape_single_paper]: the identifier without prefix
    and revision suffix, and the directory of the paper. *)
Definition base_dot_id_of (arxiv_id : pystr) : pystr :=
  let base_dot_id := strip (replace (py "arXiv:") [] arxiv_id) in
  re_delete re_version_suffix base_dot_id.

Definition paper_dir_of (output_dir : path) (arxiv_id : pystr) : path :=
  let formatted := format_yymm_id (base_dot_id_of arxiv_id) in
  path_join output_dir formatted.

(** [scrape_single_paper] *)
Definition scrape_single_paper (output_dir : path) (net : paper_net)
    (arxiv_id : pystr) : M bool :=
  let base_dot_id := base_dot_id_of arxiv_id in
  let formatted := format_yymm_id base_dot_id in
  let paper_dir := paper_dir_of output_dir arxiv_id in
  ensure_dir paper_dir;;
  let* fut_refs :=
    submit (_fetch_references_and_paper_venue (pn_refs_cached net)
              (pn_refs_answers net) (pn_abs_date net) base_dot_id) in
  let* fut_meta :=
    submit (_fetch_metadata_with_complete_versions (pn_meta net)
              base_dot_id None) in
  let* refs_result :=
    try_except (future_result (pn_refs_wait net) fut_refs)
      (fun _ => ret (∅, None)) in
  let '(references, venue_from_refs) := refs_result in
  emit (Incr total_references (size references));;
  let* meta_pair :=
    try_except (future_result (pn_meta_wait net) fut_meta)
      (fun _ => ret (None, [])) in
  let* meta_pair :=
    match meta_pair.1 with
    | None =>
        _fetch_metadata_with_complete_versions (pn_retry net) base_dot_id
          venue_from_refs
    | Some _ => ret meta_pair
    end in
  let '(meta_result, versions_info) := meta_pair in
  let* meta_result :=
    if truthy_opt venue_from_refs then
      match meta_result with
      | Some m =>
          ret (Some (set_publication_venue m (default [] venue_from_refs)))
      | None => raise TypeError
      end
    else
      match meta_result with
      | Some m => ret (Some m)
      | None => raise TypeError
      end in
  match meta_result with
  | None => raise (NoMetadata base_dot_id)
  | Some meta_result =>
      _save_json (path_join paper_dir (py "metadata.json"))
        (MetadataDoc meta_result);;
      _save_json (path_join paper_dir (py "references.json"))
        (ReferencesDoc references);;
      let* successful_versions :=
        _download_versions_concurrently output_dir (pn_download net)
          (pn_unpack net) (pn_download_finish net) formatted base_dot_id
          versions_info in
      ret true
  end.

(** The pieces of a run of [scrape_single_paper]. *)
Definition refs_task (net : paper_net) (base_dot_id : pystr) :=
  _fetch_references_and_paper_venue (pn_refs_cached net) (pn_refs_answers net)
    (pn_abs_date net) base_dot_id.

Definition meta_task (net : paper_net) (base_dot_id : pystr) :=
  _fetch_metadata_with_complete_versions (pn_meta net) base_dot_id None.

(** What the orchestrator holds after the two waits. *)
Definition refs_got (net : paper_net) (base_dot_id : pystr)
  : gmap pystr reference * option pystr :=
  awaited (pn_refs_wait net) (outcome (refs_task net base_dot_id)) (∅, None).

Definition meta_got (net : paper_net) (base_dot_id : pystr)
  : option metadata * list (nat * pystr) :=
  awaited (pn_meta_wait net) (outcome (meta_task net base_dot_id)) (None, []).

(** The second, synchronous call of the metadata fetch. *)
Definition retry_call (net : paper_net) (base_dot_id : pystr) :=
  _fetch_metadata_with_complete_versions (pn_retry net) base_dot_id
    (refs_got net base_dot_id).2.

(** The venue of the references, when there is one, replaces the venue of
    the metadata. *)
Definition reconcile (venue_from_refs : option pystr) (m : metadata)
  : metadata :=
  if truthy_opt venue_from_refs
  then set_publication_venue m (default [] venue_from_refs)
  else m.

(** The two files of a paper. *)
Definition metadata_json (output_dir : path) (arxiv_id : pystr) : path :=
  path_join (paper_dir_of output_dir arxiv_id) (py "metadata.json").
Definition references_json (output_dir : path) (arxiv_id : pystr) : path :=
  path_join (paper_dir_of output_dir arxiv_id) (py "references.json").

(** What the orchestrator does up to the reconciliation, and from the
    persistence on. *)
Definition prologue (output_dir : path) (net : paper_net) (arxiv_id : pystr)
  : list op :=
  let base := base_dot_id_of arxiv_id in
  [Mkdir (paper_dir_of output_dir arxiv_id);
   Spawn (trace (refs_task net base));
   Spawn (trace (meta_task net base));
   Incr total_references (size (refs_got net base).1)].

Definition download_call (output_dir : path) (net : paper_net)
    (arxiv_id : pystr) (versions_info : list (nat * pystr)) : M nat :=
  let base := base_dot_id_of arxiv_id in
  _download_versions_concurrently output_dir (pn_download net) (pn_unpack net)
    (pn_download_finish net) (format_yymm_id base) base versions_info.

Definition epilogue (output_dir : path) (net : paper_net) (arxiv_id : pystr)
    (m : metadata) (versions_info : list (nat * pystr)) : list op :=
  let base := base_dot_id_of arxiv_id in
  [Mkdir (paper_dir_of output_dir arxiv_id);
   WriteJson (metadata_json output_dir arxiv_id)
     (MetadataDoc (reconcile (refs_got net base).2 m));
   Mkdir (paper_dir_of output_dir arxiv_id);
   WriteJson (references_json output_dir arxiv_id)
     (ReferencesDoc (refs_got net base).1)]
  ++ trace (download_call output_dir net arxiv_id versions_info).

(** Whether the primary source has an entry. *)
Definition has_entry (a : lookup_answer) : bool :=
  match a with
  | Entry _ => true
  | _ => false
  end.

(** Operations on the file system. *)
Definition is_fs_op (o : op) : bool :=
  match o with
  | Mkdir _ | WriteJson _ _ | WriteFile _ | Unlink _ => true
  | _ => false
  end.


(** Classification of operations. *)
Definition is_network (o : op) : bool :=
  match o with
  | HttpHead _ | HttpGet _ | ArxivSearch _ | Spawn _ => true
  | _ => false
  end.

Definition is_write_json (o : op) : bool :=
  match o with
  | WriteJson _ _ => true
  | _ => false
  end.

Definition writes_json_to (p : path) (o : op) : bool :=
  match o with
  | WriteJson q _ => bool_decide (p = q)
  | _ => false
  end.

Definition is_lookup (o : op) : bool :=
  match o with
  | ArxivSearch _ => true
  | _ => false
  end.


(** *** The file system

    Replaying the file operations of a thread on a file system that carries
    them out. *)
Record fs := {
  dirs : gset path;
  files : gmap path (option json_doc);  (* [None]: a file that is no JSON *)
}.

Definition fs_step (o : op) (s : fs) : fs :=
  match o with
  | Mkdir p => {| dirs := {[p]} ∪ dirs s; files := files s |}
  | WriteJson p doc => {| dirs := dirs s; files := <[p := Some doc]> (files s) |}
  | WriteFile p => {| dirs := dirs s; files := <[p := None]> (files s) |}
  | Unlink p => {| dirs := dirs s; files := delete p (files s) |}
  | _ => s
  end.

Definition replay (t : list op) (s : fs) : fs := foldl (flip fs_step) s t.

(** Top-level requests to the primary source in a trace. *)
Definition lookups (t : list op) : list op := List.filter is_lookup t.

(** *** Two networks for the examples

    A paper with an entry, three contiguous revisions and the references of
    [example_answer]; its second revision fails to download.  And a paper
    whose metadata task times out and for which the primary source has no
    entry. *)
Definition example_paper : arxiv_paper :=
  {| p_title := py "A paper";
     p_authors := [py "A. Author"; py "B. Author"];
     p_published := Some (py "2025-04-18");
     p_journal_ref := None |}.

Definition example_meta_net (answer : lookup_answer) : meta_net :=
  {| mn_lookup := answer;
     mn_probe := fun v => if v <=? 3 then HeadStatus 200 else HeadStatus 404;
     mn_finish := fun v => 10 - v;
     mn_recheck := HeadRaises;
     mn_ss_cached := None;
     mn_ss_answers := [Response 404 false None];
     mn_dates := [py "2025-04-18"; py "2025-05-02"] |}.

Definition net_with_entry : paper_net :=
  {| pn_refs_cached := None;
     pn_refs_answers := [Response 200 false (Some (PaperDict example_answer))];
     pn_abs_date := fun _ => py "2024-01-05";
     pn_refs_wait := Completed;
     pn_meta := example_meta_net (Entry example_paper);
     pn_meta_wait := Completed;
     pn_retry := example_meta_net (Entry example_paper);
     pn_download := fun v => if v =? 2 then DlStatus 404 else DlStatus 200;
     pn_unpack := fun _ => Extracted 4;
     pn_download_finish := fun v => v |}.

Definition net_without_entry : paper_net :=
  {| pn_refs_cached := None;
     pn_refs_answers := [Response 200 false (Some (PaperDict example_answer))];
     pn_abs_date := fun _ => py "2024-01-05";
     pn_refs_wait := Completed;
     pn_meta := example_meta_net (Entry example_paper);
     pn_meta_wait := TimedOut;
     pn_retry := example_meta_net NoEntry;
     pn_download := fun _ => DlStatus 200;
     pn_unpack := fun _ => Extracted 0;
     pn_download_finish := fun v => v |}.

Definition empty_fs : fs := {| dirs := ∅; files := ∅ |}.

End Paper.

(* ===================================================================== *)
(** ** The batch *)
(* ===================================================================== *)

Module Batch.
Import PyStr Data Eff Download Paper.

(** [_scrape_single_paper_safe] *)
Definition _scrape_single_paper_safe (output_dir : path) (net : paper_net)
    (arxiv_id : pystr) : M bool :=
  try_except (scrape_single_paper output_dir net arxiv_id)
    (fun _ => ret false).

(** [enumerate(arxiv_ids)]: every submitted task has its position as key. *)
Definition enumerate {A} (l : list A) : list (nat * A) := imap pair l.

(** [scrape_papers]; [nets i] is what the network does for the [i]-th
    identifier, [finish i] the time at which its task ends.  Printing the
    statistics and writing the report only read the counters. *)
Definition scrape_papers (output_dir : path) (nets : nat -> paper_net)
    (finish : nat -> nat) (arxiv_ids : list pystr) : M unit :=
  let* future_to_id :=
    for_each (enumerate arxiv_ids) [] (fun future_to_id ia =>
      let* fut :=
        submit (_scrape_single_paper_safe output_dir (nets ia.1) ia.2) in
      ret (future_to_id ++ [(ia.1, fut)])) in
  for_each (as_completed finish future_to_id) tt (fun _ task =>
    emit (Incr papers_attempted 1);;
    try_except
      (let* ok := future_result Completed task.2 in
       if ok : bool then emit (Incr papers_successful 1)
       else emit (Incr papers_failed 1))
      (fun _ => emit (Incr papers_failed 1))).

(** What the coordinating loop does with one finished paper. *)
Definition reported (task : nat * future bool) : list op :=
  [Incr papers_attempted 1;
   Incr (if succeeded task.2 then papers_successful else papers_failed) 1].

(** The futures of the batch. *)
Definition paper_futures (output_dir : path) (nets : nat -> paper_net)
    (arxiv_ids : list pystr) : list (nat * future bool) :=
  (fun ia : nat * pystr =>
     (ia.1, outcome (_scrape_single_paper_safe output_dir (nets ia.1) ia.2)))
    <$> enumerate arxiv_ids.

(** A paper fails when its orchestration raises. *)
Definition paper_fails (output_dir : path) (net : paper_net)
    (arxiv_id : pystr) : bool :=
  match outcome (scrape_single_paper output_dir net arxiv_id) with
  | Ok ok => negb ok
  | Raise _ => true
  end.

End Batch.

(* ===================================================================== *)
(** ** The shared counters under concurrent writers *)
(* ===================================================================== *)

Module Counters.
Import PyStr Data Eff.

(** [self.stats[k] += n] is a read of the entry, an addition and a write of
    the entry; nothing in the scraper holds a lock around the three.  A
    worker thread is in the middle of an increment when it has read the entry
    and not yet written it. *)
Record thread := {
  loaded : option (counter * nat * nat);  (* key, value read, amount *)
  todo : list (counter * nat);            (* the increments still to do *)
}.

(** The increments a thread performs, from its operations. *)
Definition increments (t : list op) : list (counter * nat) :=
  omap (fun o => match o with
                 | Incr k n => Some (k, n)
                 | _ => None
                 end) t.

Definition start (t : list op) : thread :=
  {| loaded := None; todo := increments t |}.

Abbreviation stats := (counter -> nat).

(** [__init__] sets every counter to 0. *)
Definition init_stats : stats := fun _ => 0.

(** One step of thread [i]: the write that completes its pending increment,
    or the read that begins its next one. *)
Definition step (st : stats * list thread) (i : nat) : stats * list thread :=
  let '(s, ths) := st in
  match ths !! i with
  | None => st
  | Some th =>
      match loaded th with
      | Some (k, v, n) =>
          (<[k := v + n]> s, <[i := {| loaded := None; todo := todo th |}]> ths)
      | None =>
          match todo th with
          | [] => st
          | (k, n) :: rest =>
              (s, <[i := {| loaded := Some (k, s k, n); todo := rest |}]> ths)
          end
      end
  end.

(** A schedule names the thread that moves next. *)
Definition run (schedule : list nat) (st : stats * list thread)
  : stats * list thread :=
  foldl step st schedule.

(** A schedule in which every increment's read is followed at once by its
    write. *)
Definition uninterrupted (choices : list nat) : list nat :=
  choices ≫= (fun i => [i; i]).

(** The increments of counter [k] that remain to be written. *)
Definition amount_of (k : counter) (kn : counter * nat) : nat :=
  if bool_decide (k = kn.1) then kn.2 else 0.

Definition pending_thread (k : counter) (th : thread) : nat :=
  match loaded th with
  | Some (k', _, n) => amount_of k (k', n)
  | None => 0
  end + sum_list_with (amount_of k) (todo th).

Definition pending (k : counter) (ths : list thread) : nat :=
  sum_list_with (pending_thread k) ths.

Definition idle (th : thread) : Prop := loaded th = None.

Definition finished (ths : list thread) : Prop :=
  Forall (fun th => loaded th = None ∧ todo th = []) ths.

(** The invariant of an arbitrary schedule: the counter, and every value a
    thread has read and is about to write back, stay below [B] even with all
    the remaining increments added. *)
Definition bounded (k : counter) (B : nat) (st : stats * list thread) : Prop :=
  st.1 k + pending k st.2 ≤ B ∧
  Forall (fun th =>
            match loaded th with
            | Some (k', v, _) => k' = k -> v + pending k st.2 ≤ B
            | None => True
            end) st.2.

End Counters.


(* ===================================================================== *)
(** ** Shapes of strings *)
(* ===================================================================== *)

Module Shapes.
Import PyStr.

(** A run of white space. *)
Definition spaces (s : pystr) : Prop := Forall (fun c => is_space c = true) s.

(** The characters the group of the URL patterns starts with. *)
Definition digit_or_dot (c : ascii) : bool := is_digit c || ascii_eqb "." c.

(** No letter [a], in either case. *)
Definition no_a (s : pystr) : Prop :=
  Forall (fun c => ascii_eqb_ci "a" c = false) s.

(** A string that is empty or starts with a character outside a class. *)
Definition starts_without (p : ascii -> bool) (s : pystr) : Prop :=
  ∀ c s', s = c :: s' -> p c = false.

(** The four spellings of the key of the external ids that
    [_extract_arxiv_id_comprehensive] tries, in its order. *)
Definition ARXIV_KEYS : list pystr :=
  [py "ArXiv"; py "arXiv"; py "arxiv"; py "ARXIV"].

End Shapes.

(* ===================================================================== *)
(** ** Command-line helpers *)
(* ===================================================================== *)

Module Cli.
Import PyStr.

(** [s.split(sep)] for a one-character [sep]: all the pieces, at least one. *)
Fixpoint split_all (sep : ascii) (s : pystr) : list pystr :=
  match s with
  | [] => [[]]
  | c :: s' =>
      if ascii_eqb sep c then [] :: split_all sep s'
      else
        match split_all sep s' with
        | piece :: pieces => (c :: piece) :: pieces
        | [] => [[c]]
        end
  end.

(** The white space [int] skips around a number: on the code points below
    256 it is tab to carriage return, the space, NEL and the no-break
    space. *)
Definition is_int_space (c : ascii) : bool :=
  in_range 9 13 c || (code c =? 32) || (code c =? 133) || (code c =? 160).

Fixpoint skip_int_space (s : pystr) : pystr :=
  match s with
  | c :: s' => if is_int_space c then skip_int_space s' else s
  | [] => []
  end.

(** The digits of a decimal literal: one or more digits, with single
    underscores allowed between two digits; the underscores are dropped. *)
Fixpoint int_digits (after_digit : bool) (s : pystr) : option pystr :=
  match s with
  | [] => if after_digit then Some [] else None
  | c :: s' =>
      if is_digit c then cons c <$> int_digits true s'
      else if ascii_eqb "_" c && after_digit then int_digits false s'
      else None
  end.

(** [sys.get_int_max_str_digits()], the default. *)
Definition INT_MAX_STR_DIGITS : nat := 4300.

(** The value of a run of decimal digits. *)
Definition decimal_value (ds : pystr) : option Z :=
  Z.of_uint <$> NilZero.uint_of_string (string_of_list_ascii ds).

(** [int(s)] for a string: [None] is [ValueError]. *)
Definition py_int (s : pystr) : option Z :=
  let s := rev (skip_int_space (rev (skip_int_space s))) in
  let '(negative, s) :=
    match s with
    | c :: s' =>
        if ascii_eqb "-" c then (true, s')
        else if ascii_eqb "+" c then (false, s')
        else (false, s)
    | [] => (false, [])
    end in
  match int_digits false s with
  | Some ds =>
      if length ds <=? INT_MAX_STR_DIGITS then
        (fun n => if negative : bool then (- n)%Z else n) <$> decimal_value ds
      else None
  | None => None
  end.

(** [ds.zfill(width)] for a run of digits. *)
Definition zero_fill (width : nat) (ds : pystr) : pystr :=
  replicate (width - length ds) "0"%char ++ ds.

(** [f"{i:05d}"]: the sign counts in the width. *)
Definition format_05d (i : Z) : pystr :=
  if (i <? 0)%Z then "-"%char :: zero_fill 4 (str_of_Z (- i))
  else zero_fill 5 (str_of_Z i).

(** [range(a, b)]: the integers from [a], [b - a] of them. *)
Fixpoint count_from (n : nat) (a : Z) : list Z :=
  match n with
  | 0 => []
  | S n' => a :: count_from n' (a + 1)%Z
  end.

Definition range (a b : Z) : list Z := count_from (Z.to_nat (b - a)) a.

(** What the body of [generate_arxiv_ids] can raise. *)
Inductive failure := IndexError | ValueError.

(** [l[i]] *)
Definition item {A} (l : list A) (i : nat) : failure + A :=
  match l !! i with
  | Some a => inr a
  | None => inl IndexError
  end.

Definition int_of (s : pystr) : failure + Z :=
  match py_int s with
  | Some n => inr n
  | None => inl ValueError
  end.

Definition and_then {A B} (x : failure + A) (f : A -> failure + B)
  : failure + B :=
  match x with
  | inr a => f a
  | inl e => inl e
  end.

(** The [try] block of [generate_arxiv_ids]. *)
Definition generate_arxiv_ids_body (start_id end_id : pystr)
  : failure + list pystr :=
  let sp := split_all "." start_id in
  let ep := split_all "." end_id in
  and_then (item sp 1) (fun s_text =>
  and_then (int_of s_text) (fun s_num =>
  and_then (item ep 1) (fun e_text =>
  and_then (int_of e_text) (fun e_num =>
  and_then (item sp 0) (fun prefix =>
  inr ((fun i => prefix ++ py "." ++ format_05d i)
         <$> range s_num (e_num + 1))))))).

(** [generate_arxiv_ids]: whatever the body raises is logged and the result
    is the empty list. *)
Definition generate_arxiv_ids (start_id end_id : pystr) : list pystr :=
  match generate_arxiv_ids_body start_id end_id with
  | inr ids => ids
  | inl _ => []
  end.

(** The digits of a decimal number, most significant first. *)
Definition uint_digits (d : Decimal.uint) : pystr :=
  py (NilEmpty.string_of_uint d).

End Cli.


(* ===================================================================== *)
(** ** Measures and readings used by the further properties *)
(* ===================================================================== *)

Module Measures.
Import PyStr Ids Data Eff Versions SS Refs Download Paper.

(** The probe of one revision, as the pool runs it. *)
Definition probe_task (probe : nat -> head_outcome) (arxiv_id : pystr)
    (v : nat) : M bool :=
  _check_version_exists (probe v) (arxiv_id ++ py "v" ++ str_of_nat v).


(** The operations of a call of the citation-graph client. *)
Definition is_ss_call (o : op) : bool :=
  match o with
  | RateLimiterWait => true
  | _ => false
  end.

(** The revisions the metadata fetch hands on: what discovery found, or
    revision 1 alone. *)
Definition revisions_info (arxiv_id : pystr) (k : nat) : list (nat * pystr) :=
  (fun v => (v, arxiv_id ++ py "v" ++ str_of_nat v)) <$> seq 1 k.

(** A string [strip] leaves alone: empty, or with a first and a last
    character that are no white space. *)
Definition stripped (s : pystr) : Prop := strip s = s.

(** A venue field that yields a venue: a string that is not blank. *)
Definition usable (o : option pystr) : bool :=
  match o with
  | Some s => truthy s && truthy (strip s)
  | None => false
  end.


(** What [_ss_get_cached] makes of an answer the adapter hands over. *)
Definition read_answer (status_code : Z) (body : option ss_json)
  : list op * option ss_json :=
  if (status_code =? 200)%Z then
    match body with
    | Some data => ([], Some data)
    | None => ([Incr ss_errors 1], None)
    end
  else ([], Some EmptyDict).


(** The task of one revision in [_download_versions_concurrently]. *)
Definition version_task (output_dir : path) (answer : nat -> download_outcome)
    (unpack : nat -> extract_outcome) (formatted : pystr)
    (v : nat * pystr) : M bool :=
  let tex_root := path_join (path_join output_dir formatted) (py "tex") in
  let version_folder := formatted ++ py "v" ++ str_of_nat v.1 in
  _download_and_process_version (answer v.1) (unpack v.1) v.2
    (path_join tex_root version_folder) tex_root version_folder.


End Measures.

(* ===================================================================== *)
(** ** The cache in front of the citation-graph client *)
(* ===================================================================== *)

Module Cache.
Import PyStr Data Eff SS.

(** [@lru_cache(maxsize=1024)] on [_ss_get_cached].  The scraper is the one
    [self], so an entry is keyed by the pair [(arxiv_id, fields)]; the
    entries are kept most recently used first.  Calls are taken one after
    the other. *)
Definition key : Type := pystr * pystr.
Abbreviation lru := (list (key * option ss_json)).

Definition MAXSIZE : nat := 1024.

Fixpoint cache_find (k : key) (c : lru) : option (option ss_json) :=
  match c with
  | [] => None
  | (k', held) :: c' => if decide (k = k') then Some held else cache_find k c'
  end.

Definition cache_remove (k : key) (c : lru) : lru :=
  filter (fun e => e.1 ≠ k) c.

(** A hit moves the entry to the front. *)
Definition cache_hit (k : key) (held : option ss_json) (c : lru) : lru :=
  (k, held) :: cache_remove k c.

(** A miss stores the result in front; a full cache drops its least
    recently used entry. *)
Definition cache_miss (k : key) (r : option ss_json) (c : lru) : lru :=
  take MAXSIZE ((k, r) :: c).

(** One call of the decorated [_ss_get_cached]: the result, and the cache
    after the call. *)
Definition ss_call (c : lru) (answers : list http_answer)
    (arxiv_id fields : pystr) : M (option ss_json * lru) :=
  let k := (arxiv_id, fields) in
  match cache_find k c with
  | Some held =>
      let* r := _ss_get_cached (Some held) answers arxiv_id fields in
      ret (r, cache_hit k held c)
  | None =>
      let* r := _ss_get_cached None answers arxiv_id fields in
      ret (r, cache_miss k r c)
  end.

(** Calls one after the other; each comes with the answers the server
    would give to it. *)
Definition ss_calls (c : lru) (calls : list (key * list http_answer)) : M lru :=
  for_each calls c (fun c call =>
    let* rc := ss_call c call.2 call.1.1 call.1.2 in
    ret rc.2).

End Cache.

(* ===================================================================== *)
(** ** Cleaning an unpacked archive *)
(* ===================================================================== *)

Module Cleanup.
Import PyStr Data Eff.

(** [str.lower]: below 256 the capital letters are A-Z and the code points
    192-214 and 216-222, each 32 below its small letter. *)
Definition lower_char (c : ascii) : ascii :=
  if in_range 65 90 c || in_range 192 214 c || in_range 216 222 c
  then ascii_of_nat (code c + 32) else c.

Definition str_lower (s : pystr) : pystr := lower_char <$> s.

(** [s.rfind(c)] for a one-character [c]; [None] stands for -1. *)
Fixpoint rfind (c : ascii) (s : pystr) : option nat :=
  match s with
  | [] => None
  | x :: s' =>
      match rfind c s' with
      | Some i => Some (S i)
      | None => if ascii_eqb x c then Some 0 else None
      end
  end.

(** [PurePath.name]: the last component. *)
Definition name (p : path) : pystr := List.last p [].

(** [PurePath.suffix]: the name from its last dot on, unless that dot is the
    first or the last character of the name. *)
Definition suffix (p : path) : pystr :=
  match rfind "." (name p) with
  | Some i =>
      if (0 <? i) && (i <? length (name p) - 1) then drop i (name p) else []
  | None => []
  end.

Definition keep_extensions : list pystr := [py ".tex"; py ".bib"].

(** An entry that [directory.rglob('*')] yields: its path, what [is_file]
    answers for it when the loop comes to it, and whether [unlink] goes
    through or raises. *)
Record walked := {
  w_path : path;
  w_is_file : bool;
  w_unlink : bool;
}.

Definition unlink (goes_through : bool) (p : path) : M unit :=
  if goes_through then emit (Unlink p) else raise OSError.

(** [remove_non_tex_bib].  The walk yields [walk] and then ends, or raises
    when [walk_raises]. *)
Definition remove_non_tex_bib (walk : list walked) (walk_raises : bool)
  : M nat :=
  let* removed :=
    for_each walk 0 (fun removed p =>
      if w_is_file p
         && negb (bool_decide (str_lower (suffix (w_path p)) ∈ keep_extensions))
      then
        try_except
          (unlink (w_unlink p) (w_path p);;
           ret (S removed))
          (fun _ => ret removed)
      else ret removed) in
  if walk_raises then raise OSError else ret removed.

(** A name that ends in [.tex] or [.bib], in small or capital letters, after
    at least one character. *)
Definition source_name (n : pystr) : Prop :=
  ∃ stem ext,
    n = stem ++ "."%char :: ext ∧ stem ≠ [] ∧
    (str_lower ext = py "tex" ∨ str_lower ext = py "bib").

(** The entries that the loop removes. *)
Definition goes (e : walked) : bool :=
  w_is_file e
  && negb (bool_decide (str_lower (suffix (w_path e)) ∈ keep_extensions))
  && w_unlink e.

End Cleanup.
(* ===================================================================== *)
(** * Properties *)
(* ===================================================================== *)

Module EffFacts.
Import Data Eff.

Section Laws.
Context {A B : Type}.
Implicit Types (m : M A) (f : A -> M B).

Lemma outcome_bind_ok m f a :
  outcome m = Ok a -> outcome (bind m f) = outcome (f a).
Proof. unfold bind. by intros ->. Qed.

Lemma outcome_bind_raise m f e :
  outcome m = Raise e -> outcome (bind m f) = Raise e.
Proof. unfold bind. by intros ->. Qed.

Lemma trace_bind_ok m f a :
  outcome m = Ok a -> trace (bind m f) = trace m ++ trace (f a).
Proof. unfold bind. by intros ->. Qed.

Lemma trace_bind_raise m f e :
  outcome m = Raise e -> trace (bind m f) = trace m.
Proof. unfold bind. by intros ->. Qed.

Lemma try_except_ok m (h : exn -> M A) a :
  outcome m = Ok a -> try_except m h = m.
Proof. unfold try_except. by intros ->. Qed.

Lemma outcome_try_except_raise m (h : exn -> M A) e :
  outcome m = Raise e -> outcome (try_except m h) = outcome (h e).
Proof. unfold try_except. by intros ->. Qed.

Lemma trace_try_except_raise m (h : exn -> M A) e :
  outcome m = Raise e -> trace (try_except m h) = trace m ++ trace (h e).
Proof. unfold try_except. by intros ->. Qed.
End Laws.

Lemma bind_emit {B} (o : op) (f : unit -> M B) :
  bind (emit o) f = Run (o :: trace (f tt)) (outcome (f tt)).
Proof. reflexivity. Qed.

Lemma bind_ret {A B} (a : A) (f : A -> M B) : bind (ret a) f = f a.
Proof. unfold bind. simpl. by destruct (f a). Qed.

Lemma bind_raise {A B} (e : exn) (f : A -> M B) : bind (raise e) f = raise e.
Proof. reflexivity. Qed.

Lemma for_each_ext {A S} (l : list A) (s : S) (body1 body2 : S -> A -> M S) :
  (∀ s a, body1 s a = body2 s a) ->
  for_each l s body1 = for_each l s body2.
Proof.
  intros Hext. revert s. induction l as [|a l IH]; intros s; simpl; [done|].
  rewrite Hext. unfold bind. destruct (outcome (body2 s a)); [|done].
  by rewrite IH.
Qed.

(** Submitting one task per element: the futures hold the tasks' outcomes
    and the thread performs one [Spawn] per task, in order. *)
Lemma for_each_submit {X A} (key : X -> nat) (task : X -> M A)
    (l : list X) (acc : list (nat * future A)) :
  for_each l acc (fun futures x =>
    let* fut := submit (task x) in ret (futures ++ [(key x, fut)]))
  = Run ((fun x => Spawn (trace (task x))) <$> l)
        (Ok (acc ++ ((fun x => (key x, outcome (task x))) <$> l))).
Proof.
  revert acc. induction l as [|x l IH]; intros acc; simpl.
  - by rewrite app_nil_r.
  - unfold bind at 1. simpl. rewrite IH. simpl.
    by rewrite <- app_assoc.
Qed.

Lemma as_completed_perm {A} finish (futures : list (nat * A)) :
  as_completed finish futures ≡ₚ futures.
Proof. apply merge_sort_Permutation. Qed.

End EffFacts.

(* ===================================================================== *)
(** ** Identifier normalisation *)
(* ===================================================================== *)

Module IdsFacts.
Import PyStr Ids.

Lemma Forall_weaken {A} (P Q : A -> Prop) (l : list A) :
  Forall P l -> (∀ x, P x -> Q x) -> Forall Q l.
Proof. induction 1; constructor; auto. Qed.

(** Facts about single characters are checked on all 256 of them. *)
Ltac all_chars c := destruct c as [[] [] [] [] [] [] [] []]; vm_compute; try done.

Lemma digit_not_space c : is_digit c = true -> is_space c = false.
Proof. all_chars c. Qed.

Lemma digit_not_a c : is_digit c = true -> ascii_eqb "a" c = false.
Proof. all_chars c. Qed.

Lemma digit_not_v c : is_digit c = true -> ascii_eqb "v" c = false.
Proof. all_chars c. Qed.

Lemma digit_not_dot c : is_digit c = true -> ascii_eqb "." c = false.
Proof. all_chars c. Qed.

Lemma id_char_not_space c : id_char c = true -> is_space c = false.
Proof. all_chars c. Qed.

Lemma id_char_not_a c : id_char c = true -> ascii_eqb "a" c = false.
Proof. all_chars c. Qed.

Lemma id_char_not_v c : id_char c = true -> ascii_eqb "v" c = false.
Proof. all_chars c. Qed.

Lemma digit_id_char c : is_digit c = true -> id_char c = true.
Proof. unfold id_char. by intros ->. Qed.

Lemma replace_absent c old new s :
  Forall (fun x => ascii_eqb c x = false) s -> replace (c :: old) new s = s.
Proof.
  unfold replace. induction 1 as [|x s Hx _ IH]; [done|].
  simpl. rewrite Hx. simpl. by rewrite IH.
Qed.

Lemma lstrip_no_space s :
  Forall (fun x => is_space x = false) s -> lstrip s = s.
Proof. destruct 1 as [|x s Hx _]; [done|]. simpl. by rewrite Hx. Qed.

Lemma strip_no_space s :
  Forall (fun x => is_space x = false) s -> strip s = s.
Proof.
  intros H. unfold strip, rstrip. rewrite (lstrip_no_space s H).
  rewrite lstrip_no_space by (by apply Forall_rev).
  apply rev_involutive.
Qed.

Lemma re_match_version_suffix_other x s :
  ascii_eqb "v" x = false -> re_match re_version_suffix (x :: s) = None.
Proof.
  intros Hx. unfold re_match, re_version_suffix. cbn [rmatch]. by rewrite Hx.
Qed.

Lemma re_delete_no_v s :
  Forall (fun x => ascii_eqb "v" x = false) s ->
  re_delete re_version_suffix s = s.
Proof.
  unfold re_delete. induction 1 as [|x s Hx _ IH]; [done|].
  cbn [re_delete_from]. rewrite re_match_version_suffix_other by done.
  by rewrite IH.
Qed.

Lemma re_delete_from_all r s : re_delete_from r (length s) s = [].
Proof.
  assert (H : ∀ t n, length t ≤ n -> re_delete_from r n t = match n with 0 => [] | _ => [] end).
  { induction t as [|x t IH]; intros n Hn; simpl.
    - by destruct n.
    - destruct n as [|n]; simpl in Hn; [lia|].
      rewrite IH by lia. by destruct n. }
  rewrite H by lia. by destruct (length s).
Qed.

(** [\d+$] after a run of digits that ends the string takes all of it. *)
Lemma digits_to_eos lo ds :
  Forall (fun x => is_digit x = true) ds -> lo = 0 ∨ (lo = 1 ∧ ds ≠ []) ->
  rep_match is_digit lo None ds (fun s1 => if at_eos s1 then Some s1 else None)
  = Some [].
Proof.
  intros H. revert lo. induction H as [|x ds Hx _ IH]; intros lo Hlo.
  - destruct Hlo as [->|[_ ?]]; done.
  - simpl. rewrite Hx. simpl.
    rewrite (IH (Nat.pred lo)); [done|].
    left. destruct Hlo as [->|[-> _]]; done.
Qed.

Lemma re_match_version_suffix ds :
  Forall (fun x => is_digit x = true) ds -> ds ≠ [] ->
  re_match re_version_suffix ("v"%char :: ds) = Some ("v"%char :: ds, []).
Proof.
  intros Hd Hne. unfold re_match, re_version_suffix, Plus. cbn [rmatch].
  unfold ascii_eqb at 1. rewrite Ascii.eqb_refl.
  rewrite (digits_to_eos 1 ds Hd) by auto.
  cbn [length]. rewrite Nat.sub_0_r.
  change (S (length ds)) with (length ("v"%char :: ds)).
  by rewrite firstn_all.
Qed.

Lemma re_delete_version_suffix b ds :
  Forall (fun x => ascii_eqb "v" x = false) b ->
  Forall (fun x => is_digit x = true) ds -> ds ≠ [] ->
  re_delete re_version_suffix (b ++ "v"%char :: ds) = b.
Proof.
  intros Hb Hd Hne. unfold re_delete.
  induction Hb as [|x b Hx _ IH].
  - simpl app. cbn [re_delete_from].
    rewrite re_match_version_suffix by done.
    apply re_delete_from_all.
  - cbn [app re_delete_from].
    rewrite re_match_version_suffix_other by done. by rewrite IH.
Qed.

Lemma contains_char_absent c s :
  Forall (fun x => ascii_eqb c x = false) s -> contains_char c s = false.
Proof. induction 1 as [|x s Hx _ IH]; [done|]. simpl. by rewrite Hx. Qed.

Lemma contains_char_app c a b :
  contains_char c (a ++ c :: b) = true.
Proof.
  unfold contains_char. rewrite existsb_app. simpl.
  unfold ascii_eqb. rewrite Ascii.eqb_refl. by rewrite orb_true_r.
Qed.

Lemma split_once_first c a b :
  Forall (fun x => ascii_eqb c x = false) a ->
  split_once c (a ++ c :: b) = (a, b).
Proof.
  induction 1 as [|x a Hx _ IH]; simpl.
  - unfold ascii_eqb. by rewrite Ascii.eqb_refl.
  - by rewrite Hx, IH.
Qed.

(** A string of digits and dashes is its own normal form. *)
Lemma format_yymm_id_fixed s :
  Forall (fun x => is_digit x || ascii_eqb "-" x = true) s ->
  format_yymm_id s = s.
Proof.
  intros H. unfold format_yymm_id.
  assert (Hc : ∀ (P : ascii -> bool),
             (∀ x, is_digit x || ascii_eqb "-" x = true -> P x = false) ->
             Forall (fun x => P x = false) s).
  { intros P HP. eapply Forall_weaken; [exact H|]. intros x. apply HP. }
  change (py "arXiv:") with ("a"%char :: py "rXiv:").
  rewrite replace_absent by (apply Hc; intros x; all_chars x).
  rewrite strip_no_space by (apply Hc; intros x; all_chars x).
  rewrite re_delete_no_v by (apply Hc; intros x; all_chars x).
  rewrite contains_char_absent by (apply Hc; intros x; all_chars x).
  done.
Qed.

Lemma format_yymm_id_base d1 d2 :
  Forall (fun x => is_digit x = true) d1 ->
  Forall (fun x => is_digit x = true) d2 ->
  format_yymm_id (d1 ++ "."%char :: d2) = d1 ++ "-"%char :: d2.
Proof.
  intros H1 H2. unfold format_yymm_id.
  assert (Hc : ∀ (P : ascii -> bool),
             (∀ x, id_char x = true -> P x = false) ->
             Forall (fun x => P x = false) (d1 ++ "."%char :: d2)).
  { intros P HP. apply Forall_app. split; [|constructor].
    - eapply Forall_weaken; [exact H1|]. intros x Hx. by apply HP, digit_id_char.
    - by apply HP.
    - eapply Forall_weaken; [exact H2|]. intros x Hx. by apply HP, digit_id_char. }
  change (py "arXiv:") with ("a"%char :: py "rXiv:").
  rewrite replace_absent by (apply Hc, id_char_not_a).
  rewrite strip_no_space by (apply Hc, id_char_not_space).
  rewrite re_delete_no_v by (apply Hc, id_char_not_v).
  rewrite contains_char_app, split_once_first; [done|].
  eapply Forall_weaken; [exact H1|]. apply digit_not_dot.
Qed.

Lemma format_yymm_id_revision d1 d2 k :
  Forall (fun x => is_digit x = true) d1 ->
  Forall (fun x => is_digit x = true) d2 ->
  Forall (fun x => is_digit x = true) k -> k ≠ [] ->
  format_yymm_id ((d1 ++ "."%char :: d2) ++ "v"%char :: k) = d1 ++ "-"%char :: d2.
Proof.
  intros H1 H2 Hk Hne.
  rewrite <- (format_yymm_id_base d1 d2 H1 H2). unfold format_yymm_id.
  assert (Hb : ∀ (P : ascii -> bool),
             (∀ x, id_char x = true -> P x = false) ->
             Forall (fun x => P x = false) (d1 ++ "."%char :: d2)).
  { intros P HP. apply Forall_app. split; [|constructor].
    - eapply Forall_weaken; [exact H1|]. intros x Hx. by apply HP, digit_id_char.
    - by apply HP.
    - eapply Forall_weaken; [exact H2|]. intros x Hx. by apply HP, digit_id_char. }
  assert (Hs : ∀ (P : ascii -> bool),
             (∀ x, id_char x = true -> P x = false) -> P "v"%char = false ->
             Forall (fun x => P x = false)
                    ((d1 ++ "."%char :: d2) ++ "v"%char :: k)).
  { intros P HP Hv. apply Forall_app. split; [by apply Hb|]. constructor; [done|].
    eapply Forall_weaken; [exact Hk|]. intros x Hx. by apply HP, digit_id_char. }
  change (py "arXiv:") with ("a"%char :: py "rXiv:").
  rewrite !replace_absent by
    (first [apply Hs; [apply id_char_not_a|done] | apply Hb, id_char_not_a]).
  rewrite !strip_no_space by
    (first [apply Hs; [apply id_char_not_space|done] | apply Hb, id_char_not_space]).
  rewrite re_delete_version_suffix by (try done; apply Hb, id_char_not_v).
  rewrite re_delete_no_v by apply Hb, id_char_not_v.
  done.
Qed.

(** *** What the patterns accept *)

Lemma is_Some_or_else {A} (x y : option A) :
  is_Some (or_else x y) ↔ is_Some x ∨ is_Some y.
Proof.
  destruct x as [a|]; simpl.
  - split; [by left|]. by intros _.
  - split; [by right|]. intros [H|H]; [by destruct H|done].
Qed.

(** The greedy repetition finds a match exactly when some admissible number
    of characters of the class can be followed by a match of the rest. *)
Lemma rep_match_is_Some {A} p lo hi s (k : pystr -> option A) :
  is_Some (rep_match p lo hi s k) ↔
  ∃ s1 s2, s = s1 ++ s2 ∧ Forall (fun c => p c = true) s1 ∧
           within (length s1) lo hi ∧ is_Some (k s2).
Proof.
  revert lo hi. induction s as [|c s IH]; intros lo hi.
  - cbn [rep_match]. split.
    + destruct (lo =? 0) eqn:Hlo; [|by intros []].
      apply Nat.eqb_eq in Hlo as ->. intros Hk.
      exists [], []. repeat split; [done|simpl; lia|by destruct hi; simpl; lia|done].
    + intros (s1 & s2 & Hs & _ & [Hlo _] & Hk).
      symmetry in Hs. apply app_eq_nil in Hs as [-> ->]. simpl in Hlo.
      assert (lo = 0) as -> by lia. done.
  - cbn [rep_match].
    assert (Hstop : is_Some (if lo =? 0 then k (c :: s) else None) ↔
                    lo = 0 ∧ is_Some (k (c :: s))).
    { destruct (lo =? 0) eqn:Hlo.
      - apply Nat.eqb_eq in Hlo. naive_solver.
      - apply Nat.eqb_neq in Hlo. split; [by intros []|naive_solver]. }
    destruct (p c && more_allowed hi) eqn:Hpc.
    + apply andb_true_iff in Hpc as [Hp Hmore].
      rewrite is_Some_or_else, IH, Hstop. split.
      * intros [(s1 & s2 & -> & Hall & [Hlo Hhi] & Hk)|[-> Hk]].
        -- exists (c :: s1), s2. repeat split; [by constructor|simpl; lia| |done].
           destruct hi as [h|]; [|done]. simpl in *.
           apply negb_true_iff, Nat.eqb_neq in Hmore. lia.
        -- exists [], (c :: s). repeat split; [done|simpl; lia| |done].
           destruct hi; simpl; [lia|done].
      * intros (s1 & s2 & Hs & Hall & [Hlo Hhi] & Hk).
        destruct s1 as [|c' s1].
        -- right. simpl in Hs, Hlo. subst s2. split; [lia|done].
        -- left. simpl in Hs. injection Hs as <- ->.
           exists s1, s2. repeat split; [by inversion Hall|simpl in Hlo; lia| |done].
           destruct hi as [h|]; [|done]. simpl in *. lia.
    + rewrite Hstop. split.
      * intros [-> Hk]. exists [], (c :: s).
        repeat split; [done|simpl; lia| |done].
        destruct hi; simpl; [lia|done].
      * intros (s1 & s2 & Hs & Hall & [Hlo Hhi] & Hk).
        destruct s1 as [|c' s1].
        -- simpl in Hs, Hlo. subst s2. split; [lia|done].
        -- exfalso. simpl in Hs. injection Hs as <- ->.
           inversion Hall as [|? ? Hp _]; subst.
           rewrite Hp in Hpc. simpl in Hpc.
           destruct hi as [h|]; [|done]. simpl in *.
           apply negb_false_iff, Nat.eqb_eq in Hpc. lia.
Qed.

(** The backtracking matcher succeeds exactly when the string splits into a
    text the expression matches and a rest the continuation accepts. *)
Lemma rmatch_is_Some {A} r s (k : pystr -> option A) :
  is_Some (rmatch r s k) ↔
  ∃ s1 s2, s = s1 ++ s2 ∧ matches r s1 s2 ∧ is_Some (k s2).
Proof.
  revert s k. induction r as [|p|p lo hi|r1 IH1 r2 IH2|r1 IH1 r2 IH2|];
    intros s k; cbn [rmatch matches].
  - split.
    + intros Hk. by exists [], s.
    + by intros (s1 & s2 & -> & -> & Hk).
  - split.
    + destruct s as [|c s]; [by intros []|].
      destruct (p c) eqn:Hp; [|by intros []].
      intros Hk. exists [c], s. split; [done|]. split; [by exists c|done].
    + intros (s1 & s2 & -> & (c & -> & Hp) & Hk). simpl. by rewrite Hp.
  - rewrite rep_match_is_Some. naive_solver.
  - rewrite IH1. split.
    + intros (a & rest & -> & H1 & H2). apply IH2 in H2 as (b & s2 & -> & H2 & Hk).
      exists (a ++ b), s2. split; [by rewrite app_assoc|]. split; [|done].
      by exists a, b.
    + intros (s1 & s2 & -> & (a & b & -> & H1 & H2) & Hk).
      exists a, (b ++ s2). split; [by rewrite app_assoc|]. split; [done|].
      apply IH2. by exists b, s2.
  - rewrite is_Some_or_else, IH1, IH2. naive_solver.
  - split.
    + destruct (at_eos s) eqn:He; [|by intros []].
      intros Hk. by exists [], s.
    + intros (s1 & s2 & -> & [-> He] & Hk). simpl. by rewrite He.
Qed.

Lemma re_match_is_Some r s :
  is_Some (re_match r s) ↔ ∃ s1 s2, s = s1 ++ s2 ∧ matches r s1 s2.
Proof.
  transitivity (is_Some (rmatch r s Some)).
  - unfold re_match. destruct (rmatch r s Some); split; intros []; eauto; done.
  - rewrite rmatch_is_Some. naive_solver.
Qed.

Lemma ascii_eqb_eq a b : ascii_eqb a b = true ↔ a = b.
Proof. apply Ascii.eqb_eq. Qed.

(** The strings [re_arxiv_id] matches are those of the identifier format. *)
Lemma re_arxiv_id_format s :
  is_Some (re_match re_arxiv_id s) ↔ id_format s.
Proof.
  rewrite re_match_is_Some. unfold re_arxiv_id, Opt, Plus, Exactly.
  cbn [matches]. split.
  - intros (s1 & s2 & -> & sub & b & -> & Hsub & yy & b1 & -> & [Hyy [Hlo Hhi]]
              & mm & b2 & -> & Hmm & dot & b3 & -> & (c & -> & Hdot)
              & num & e & -> & [Hnum Hlen] & -> & Heos).
    apply ascii_eqb_eq in Hdot as <-.
    destruct yy as [|y1 [|y2 [|]]]; simpl in Hlo, Hhi; try lia.
    inversion Hyy as [|? ? Hy1 Hyy']; subst. inversion Hyy' as [|? ? Hy2 _]; subst.
    assert (∃ m1 m2, mm = [m1; m2] ∧ is_month m1 m2 = true) as (m1 & m2 & -> & Hm).
    { unfold is_month.
      destruct Hmm as [(a & b & -> & (m1 & -> & H1) & (m2 & -> & H2))
                      |(a & b & -> & (m1 & -> & H1) & (m2 & -> & H2))];
        exists m1, m2; rewrite H1, H2; split; try done. by rewrite orb_true_r. }
    replace ((sub ++ [y1; y2] ++ [m1; m2] ++ ["."%char] ++ num ++ []) ++ s2)
      with (sub ++ [y1; y2; m1; m2; "."%char] ++ num ++ s2).
    2: { rewrite app_nil_r, <- !app_assoc. done. }
    constructor; [|done..].
    destruct Hsub as [(w & d & -> & [Hw [Hlw _]] & (c & -> & Hc))| ->];
      [|constructor].
    apply ascii_eqb_eq in Hc as <-. constructor; [|done].
    intros ->. simpl in Hlw. lia.
  - intros [sub y1 y2 m1 m2 num rest Hsub Hy1 Hy2 Hm Hnum Hlen Heos].
    exists (sub ++ [y1; y2; m1; m2; "."%char] ++ num), rest.
    split; [by rewrite <- !app_assoc|].
    exists sub, ([y1; y2; m1; m2; "."%char] ++ num). split; [done|]. split.
    { destruct Hsub as [|w Hne Hw]; [by right|]. left.
      exists w, ["."%char]. split; [done|]. split.
      - split; [done|]. split; [|done]. destruct w; [done|simpl; lia].
      - by exists "."%char. }
    exists [y1; y2], ([m1; m2; "."%char] ++ num). split; [done|]. split.
    { split; [by repeat constructor|]. split; simpl; lia. }
    exists [m1; m2], ("."%char :: num). split; [done|]. split.
    { unfold is_month in Hm. apply orb_true_iff in Hm as [Hm|Hm];
        apply andb_true_iff in Hm as [H1 H2]; [left|right];
        exists [m1], [m2]; (split; [done|]); split; eauto. }
    exists ["."%char], num. split; [done|]. split; [by exists "."%char|].
    exists num, []. split; [by rewrite app_nil_r|]. split; [|done].
    split; [done|]. split; simpl; lia.
Qed.

(** [_is_valid_arxiv_id] accepts the identifiers that have the format once
    the revision suffix is deleted. *)
Lemma is_valid_arxiv_id_spec id :
  _is_valid_arxiv_id id = true ↔ id_format (re_delete re_version_suffix id).
Proof.
  rewrite <- re_arxiv_id_format. unfold _is_valid_arxiv_id.
  destruct id as [|c id].
  - split; [done|]. by intros [m Hm].
  - destruct (re_match re_arxiv_id _) as [m|].
    + split; [|done]. intros _. by exists m.
    + split; [done|]. by intros [].
Qed.

(** The identifiers of the specification's examples are valid, with and
    without a revision suffix; a month 13 and a three-digit number are not.
    Python's [$] also holds before a newline that ends the string. *)
Example valid_examples :
  _is_valid_arxiv_id (py "2401.00001") = true ∧
  _is_valid_arxiv_id (py "2504.13946v2") = true ∧
  _is_valid_arxiv_id (py "cs.2401.00001") = true ∧
  _is_valid_arxiv_id (py "2413.00001") = false ∧
  _is_valid_arxiv_id (py "2401.001") = false ∧
  _is_valid_arxiv_id (py "2401.00001" ++ [ascii_of_nat 10]) = true.
Proof. repeat split; vm_compute; reflexivity. Qed.

(** C9, as stated: normalising twice is not normalising once for every
    string.  The subject-class form [cs.2401.00001], which
    [_is_valid_arxiv_id] accepts and [format_yymm_id] is then called on,
    loses one dot per application. *)
Lemma format_yymm_id_not_idempotent :
  _is_valid_arxiv_id (py "cs.2401.00001") = true ∧
  format_yymm_id (py "cs.2401.00001") = py "cs-2401.00001" ∧
  format_yymm_id (format_yymm_id (py "cs.2401.00001")) = py "cs-2401-00001" ∧
  format_yymm_id (format_yymm_id (py "cs.2401.00001"))
    ≠ format_yymm_id (py "cs.2401.00001").
Proof. repeat split; vm_compute; congruence. Qed.

(** C9, amended: on the dotted identifiers [d1.d2] and [d1.d2vk] (digits, one
    dot, digits, with or without a revision suffix) the normal form is the
    dash form [d1-d2] of the base, and normalising it again changes nothing. *)
Theorem format_yymm_id_idempotent_dotted (d1 d2 k : pystr) :
  digits d1 -> digits d2 -> digits k ->
  format_yymm_id (dotted d1 d2 k) = dashed d1 d2 ∧
  format_yymm_id (format_yymm_id (dotted d1 d2 k))
    = format_yymm_id (dotted d1 d2 k).
Proof.
  intros H1 H2 Hk.
  assert (Hnf : format_yymm_id (dotted d1 d2 k) = dashed d1 d2).
  { unfold dotted, dashed. destruct k as [|c k].
    - by apply format_yymm_id_base.
    - by apply format_yymm_id_revision. }
  split; [done|]. rewrite Hnf. unfold dashed.
  apply format_yymm_id_fixed.
  apply Forall_app. split; [|constructor; [done|]].
  - eapply Forall_weaken; [exact H1|]. by intros x ->.
  - eapply Forall_weaken; [exact H2|]. by intros x ->.
Qed.

Lemma format_yymm_id_idempotent_dotted_witness :
  dotted (py "2504") (py "13946") (py "2") = py "2504.13946v2" ∧
  format_yymm_id (py "2504.13946v2") = py "2504-13946" ∧
  format_yymm_id (format_yymm_id (py "2504.13946v2"))
    = format_yymm_id (py "2504.13946v2").
Proof.
  split; [reflexivity|].
  apply (format_yymm_id_idempotent_dotted (py "2504") (py "13946") (py "2"));
    unfold digits; repeat constructor.
Defined.

End IdsFacts.

(* ===================================================================== *)
(** ** Version discovery returns the contiguous prefix *)
(* ===================================================================== *)

Module VersionsFacts.
Import PyStr Data Eff EffFacts Versions.

Lemma check_outcome resp id :
  outcome (_check_version_exists resp id) = Ok (confirmed resp).
Proof. destruct resp; reflexivity. Qed.

Lemma collect_loop_outcome (l : list (nat * future bool)) (acc : list nat) :
  outcome
    (for_each l acc (fun results '(v, fut) =>
       try_except
         (let* exists_ := future_result Completed fut in
          ret (if exists_ then results ++ [v] else results))
         (fun _ => ret results)))
  = Ok (acc ++ omap kept l).
Proof.
  revert acc. induction l as [|[v fut] l IH]; intros acc; cbn [for_each].
  - cbn. by rewrite app_nil_r.
  - erewrite outcome_bind_ok; [rewrite IH|].
    2: { instantiate (1 := acc ++ from_option (fun v => [v]) [] (kept (v, fut))).
         destruct fut as [[]|e]; cbn; by rewrite ?app_nil_r. }
    rewrite <- app_assoc. by destruct fut as [[]|e].
Qed.

Lemma take_contiguous_seq (results : list nat) a n :
  ∃ j, j ≤ n ∧ take_contiguous results (seq a n) = seq a j ∧
       (∀ v, a ≤ v < a + j → v ∈ results) ∧
       (j < n → a + j ∉ results).
Proof.
  revert a. induction n as [|n IH]; intros a; simpl.
  - exists 0. repeat split; [lia|lia|lia].
  - case_bool_decide as Hin.
    + destruct (IH (S a)) as (j & Hj & Heq & Hall & Hstop).
      exists (S j). simpl. rewrite Heq. repeat split; [lia| |].
      * intros v Hv. destruct (decide (v = a)) as [->|]; [done|].
        apply Hall. lia.
      * intros Hlt. replace (a + S j) with (S a + j) by lia. apply Hstop. lia.
    + exists 0. simpl. repeat split; [lia|lia|].
      intros _. by rewrite Nat.add_0_r.
Qed.

Lemma discover_outcome probe finish recheck arxiv_id :
  outcome (_discover_all_versions probe finish recheck arxiv_id) =
    let results := merge_sort Nat.le (collected probe finish arxiv_id) in
    let contiguous :=
      match results with
      | [] => []
      | _ => take_contiguous results (seq 1 (max_list results))
      end in
    match contiguous with
    | _ :: _ => Ok contiguous
    | [] => Ok (if confirmed recheck then [1] else [])
    end.
Proof.
  unfold _discover_all_versions.
  rewrite (for_each_submit (fun v => v)
             (fun v => _check_version_exists (probe v)
                         (arxiv_id ++ py "v" ++ str_of_nat v))).
  erewrite outcome_bind_ok by reflexivity. simpl app.
  erewrite outcome_bind_ok by apply collect_loop_outcome.
  simpl app. fold (collected probe finish arxiv_id). cbv zeta.
  destruct (match merge_sort Nat.le _ with [] => [] | _ => _ end); [|done].
  erewrite outcome_bind_ok by apply check_outcome. done.
Qed.

Lemma elem_of_collected probe finish arxiv_id v :
  v ∈ collected probe finish arxiv_id ↔ v ∈ confirmed_set probe.
Proof.
  unfold collected, confirmed_set.
  rewrite list_elem_of_omap, elem_of_list_to_set, list_elem_of_filter.
  split.
  - intros ([w fut] & Hin & Hkept).
    rewrite as_completed_perm, list_elem_of_fmap in Hin.
    destruct Hin as (u & [= -> ->] & Hu).
    unfold kept in Hkept. simpl in Hkept. rewrite check_outcome in Hkept.
    destruct (confirmed (probe u)) eqn:Hc; [|done].
    injection Hkept as <-. by rewrite Hc.
  - intros [Hc Hv]. exists (v, Ok true). split.
    + rewrite as_completed_perm, list_elem_of_fmap. exists v. split; [|done].
      rewrite check_outcome. by destruct (confirmed (probe v)).
    + done.
Qed.

(** C1. For every probe outcome and every order in which the pooled probes
    finish, the result is [1, ..., k] in ascending order, where [{1..k}] is
    the maximal gap-free prefix of the confirmed set; when that prefix is
    empty the result is [[1]] if the separate re-check of revision 1 succeeds
    and [[]] otherwise.  The function always returns. *)
Theorem discover_all_versions_contiguous_prefix
    (probe : nat -> head_outcome) (finish : nat -> nat)
    (recheck : head_outcome) (arxiv_id : pystr) :
  ∃ k : nat,
    (∀ v, 1 ≤ v ≤ k -> v ∈ confirmed_set probe) ∧
    ((k + 1) ∉ confirmed_set probe) ∧
    outcome (_discover_all_versions probe finish recheck arxiv_id) =
      Ok (match k with
          | 0 => if confirmed recheck then [1] else []
          | S _ => seq 1 k
          end).
Proof.
  rewrite discover_outcome. cbv zeta.
  set (results := merge_sort Nat.le (collected probe finish arxiv_id)).
  assert (Hmem : ∀ v, v ∈ results ↔ v ∈ confirmed_set probe).
  { intros v. unfold results.
    by rewrite merge_sort_Permutation, elem_of_collected. }
  destruct (take_contiguous_seq results 1 (max_list results))
    as (j & Hj & Heq & Hall & Hstop).
  exists j. split; [|split].
  - intros v Hv. apply Hmem, Hall. lia.
  - rewrite <- Hmem. destruct (decide (j < max_list results)) as [Hlt|Hge].
    + rewrite Nat.add_comm. by apply Hstop.
    + intros Hin. apply max_list_elem_of_le in Hin. lia.
  - destruct results as [|r rs] eqn:Hres.
    + assert (j = 0) as -> by (simpl in Hj; lia). done.
    + rewrite Heq. destruct j as [|j]; done.
Qed.

(** The examples of the specification, with probes that finish in reverse
    order of submission. *)
Example discover_124 :
  outcome (_discover_all_versions probe_124 (fun v => 10 - v) HeadRaises
             (py "2504.13946"))
  = Ok [1; 2].
Proof. vm_compute. reflexivity. Qed.

Example discover_13 :
  outcome (_discover_all_versions
             (fun v => if bool_decide (v ∈ [1; 3]) then HeadStatus 200
                       else HeadRaises)
             (fun v => v) (HeadStatus 200) (py "2504.13946"))
  = Ok [1].
Proof. vm_compute. reflexivity. Qed.

Example discover_23_recheck :
  outcome (_discover_all_versions
             (fun v => if bool_decide (v ∈ [2; 3]) then HeadStatus 200
                       else HeadStatus 404)
             (fun v => v) (HeadStatus 404) (py "2504.13946")) = Ok []
  ∧ outcome (_discover_all_versions
             (fun v => if bool_decide (v ∈ [2; 3]) then HeadStatus 200
                       else HeadStatus 404)
             (fun v => v) (HeadStatus 200) (py "2504.13946")) = Ok [1].
Proof. split; vm_compute; reflexivity. Qed.

End VersionsFacts.

(* ===================================================================== *)
(** ** The citation-graph call: 429 and 404 *)
(* ===================================================================== *)

Module SSFacts.
Import PyStr Data Eff EffFacts SS.

(** The adapter sends the request at least once and at most once more than
    it has retries, and does nothing else. *)
Lemma urlopen_trace r left url answers :
  ∃ n, 1 ≤ n ≤ S left ∧
       trace (urlopen r left url answers) = replicate n (HttpGet url).
Proof.
  revert answers. induction left as [|left IH]; intros answers.
  - exists 1. split; [lia|].
    destruct answers as [|[status ra body|] later]; cbn; [done| |done].
    by destruct (is_retry r 0 status ra).
  - destruct answers as [|[status ra body|] later]; cbn [urlopen].
    + destruct (IH []) as (n & Hn & Heq). exists (S n). split; [lia|].
      cbn. by rewrite Heq.
    + destruct (is_retry r (S left) status ra).
      * destruct (IH later) as (n & Hn & Heq). exists (S n). split; [lia|].
        cbn. by rewrite Heq.
      * exists 1. split; [lia|done].
    + destruct (IH later) as (n & Hn & Heq). exists (S n). split; [lia|].
      cbn. by rewrite Heq.
Qed.

Lemma urlopen_retry r left url status ra body later :
  is_retry r (S left) status ra = true ->
  trace (urlopen r (S left) url (Response status ra body :: later))
  = HttpGet url :: trace (urlopen r left url later).
Proof. intros H. cbn [urlopen]. unfold mbind, M_bind. by rewrite bind_emit, H. Qed.

(** An answer on the force list is never handed to the caller. *)
Lemma urlopen_not_forced r left url answers status body :
  outcome (urlopen r left url answers) = Ok (status, body) ->
  status ∉ status_forcelist r.
Proof.
  revert answers. induction left as [|left IH]; intros answers;
    destruct answers as [|[st ra bd|] later]; cbn [urlopen];
    unfold mbind, M_bind; rewrite bind_emit; cbn [outcome];
    try done; try apply IH.
  - unfold is_retry. case_bool_decide as Hin; cbn; [done|].
    by intros [= <- <-].
  - destruct (is_retry r (S left) st ra) eqn:Hretry; [apply IH|].
    cbn. intros [= <- <-]. unfold is_retry in Hretry.
    case_bool_decide; [done|done].
Qed.

Lemma requests_sent_replicate n url :
  requests_sent (replicate n (HttpGet url)) = n.
Proof.
  unfold requests_sent. induction n as [|n IH]; [done|].
  change (S n) with (1 + n) at 2. rewrite <- IH at 2. reflexivity.
Qed.

Lemma requests_sent_app t1 t2 :
  requests_sent (t1 ++ t2) = requests_sent t1 + requests_sent t2.
Proof. apply sum_list_with_app. Qed.

(** The shape of every call that reaches the network: the limiter, the
    request counter, the requests of the adapter, and at most one counter
    after them. *)
Lemma ss_get_shape answers arxiv_id fields :
  ∃ n tail r,
    1 ≤ n ≤ 3 ∧
    _ss_get answers arxiv_id fields =
      Run ([RateLimiterWait; Incr ss_requests_made 1]
             ++ replicate n (HttpGet (SEMANTIC_SCHOLAR_BASE ++ arxiv_id))
             ++ tail) (Ok r) ∧
    (tail = [] ∨ tail = [Incr ss_errors 1]) ∧
    requests_sent (trace (urlopen session_retries 2
                            (SEMANTIC_SCHOLAR_BASE ++ arxiv_id) answers)) = n.
Proof.
  unfold _ss_get, session_get. set (url := SEMANTIC_SCHOLAR_BASE ++ arxiv_id).
  change (total session_retries) with 2.
  destruct (urlopen_trace session_retries 2 url answers) as (n & Hn & Htr).
  pose proof (urlopen_not_forced session_retries 2 url answers) as Hnf.
  rewrite Htr, requests_sent_replicate.
  destruct (urlopen session_retries 2 url answers) as [t [[status body]|e]];
    cbn [trace outcome] in *; subst t.
  - specialize (Hnf status body eq_refl).
    destruct (status =? 200)%Z eqn:H200.
    + destruct body as [data|].
      * exists n, [], (Some data).
        split_and!; [lia|lia| |by left|done].
        cbn. rewrite H200. cbn. by rewrite ?app_nil_r.
      * exists n, [Incr ss_errors 1], None.
        split_and!; [lia|lia| |by right|done].
        cbn. rewrite H200. cbn. by rewrite ?app_nil_r.
    + destruct (status =? 429)%Z eqn:H429.
      { exfalso. apply Hnf. apply Z.eqb_eq in H429 as ->. by constructor. }
      exists n, [], (Some EmptyDict).
      split_and!; [lia|lia| |by left|done].
      cbn. rewrite H200, H429.
      by destruct (status =? 404)%Z; cbn; rewrite ?app_nil_r.
  - exists n, [Incr ss_errors 1], None.
    split_and!; [lia|lia| |by right|done].
    cbn. by rewrite ?app_nil_r.
Qed.

(** C8, as stated: a 429 answer is sent again inside the call.  When the
    second answer is 200 the call made two requests, returns data and leaves
    the rate-limit counter alone; when all three answers are 429 the call
    made three requests, again without touching the rate-limit counter. *)
Lemma ss_get_cached_429_is_retried :
  let id := py "2504.13946" in
  let fields := py "venue,publicationVenue" in
  let once :=
    _ss_get_cached None
      [Response 429 false None; Response 200 false (Some EmptyDict)]
      id fields in
  let thrice :=
    _ss_get_cached None
      [Response 429 false None; Response 429 false None;
       Response 429 false None] id fields in
  requests_sent (trace once) = 2 ∧
  counted ss_rate_limit_hits (trace once) = 0 ∧
  outcome once = Ok (Some EmptyDict) ∧
  requests_sent (trace thrice) = 3 ∧
  counted ss_rate_limit_hits (trace thrice) = 0 ∧
  counted ss_errors (trace thrice) = 1 ∧
  outcome thrice = Ok None ∧
  ¬ (counted ss_rate_limit_hits (trace once) = 1 ∧
     outcome once = Ok None ∧
     requests_sent (trace once) = 1).
Proof.
  cbv zeta. repeat split; try (vm_compute; reflexivity).
  intros (H & _ & _). vm_compute in H. discriminate.
Qed.

(** C8, amended.  A call that reaches the network never raises and sends
    between one and three requests.  After a 429 answer the adapter sends the
    request again (two or three requests in all); the call then returns the
    data of a 200 answer to the second request, and no data when all three
    requests are answered 429.  A 404 answer is not sent again and gives the
    empty result. *)
Theorem ss_get_cached_429_404 (arxiv_id fields : pystr) :
  let url := SEMANTIC_SCHOLAR_BASE ++ arxiv_id in
  let call answers := _ss_get_cached None answers arxiv_id fields in
  (∀ answers, ∃ r, outcome (call answers) = Ok r ∧
                   1 ≤ requests_sent (trace (call answers)) ≤ 3) ∧
  (∀ ra body later,
     2 ≤ requests_sent (trace (call (Response 429 ra body :: later))) ≤ 3) ∧
  (∀ ra body ra' data later,
     call (Response 429 ra body :: Response 200 ra' (Some data) :: later) =
       Run [RateLimiterWait; Incr ss_requests_made 1; HttpGet url; HttpGet url]
           (Ok (Some data))) ∧
  (∀ ra1 b1 ra2 b2 ra3 b3 later,
     call (Response 429 ra1 b1 :: Response 429 ra2 b2 :: Response 429 ra3 b3
             :: later) =
       Run [RateLimiterWait; Incr ss_requests_made 1;
            HttpGet url; HttpGet url; HttpGet url; Incr ss_errors 1]
           (Ok None)) ∧
  (∀ ra body later,
     call (Response 404 ra body :: later) =
       Run [RateLimiterWait; Incr ss_requests_made 1; HttpGet url]
           (Ok (Some EmptyDict))).
Proof.
  cbv zeta. unfold _ss_get_cached. split_and!.
  - intros answers.
    destruct (ss_get_shape answers arxiv_id fields)
      as (n & tail & r & Hn & -> & Htail & _).
    exists r. split; [done|]. cbn [trace].
    rewrite !requests_sent_app, requests_sent_replicate.
    destruct Htail as [-> | ->]; cbn; lia.
  - intros ra body later.
    destruct (ss_get_shape (Response 429 ra body :: later) arxiv_id fields)
      as (n & tail & r & Hn & -> & Htail & Hsent).
    assert (2 ≤ n).
    { rewrite <- Hsent.
      rewrite (urlopen_retry session_retries 1) by (by destruct ra).
      destruct (urlopen_trace session_retries 1
                  (SEMANTIC_SCHOLAR_BASE ++ arxiv_id) later) as (m & Hm & ->).
      change (HttpGet ?u :: replicate m (HttpGet ?u))
        with (replicate (S m) (HttpGet u)).
      rewrite requests_sent_replicate. lia. }
    cbn [trace]. rewrite !requests_sent_app, requests_sent_replicate.
    destruct Htail as [-> | ->]; cbn; lia.
  - intros ra body ra' data later. destruct ra, ra'; reflexivity.
  - intros ra1 b1 ra2 b2 ra3 b3 later. destruct ra1, ra2, ra3; reflexivity.
  - intros ra body later. destruct ra; reflexivity.
Qed.

(** The branch of [_ss_get_cached] for status 429 lies behind the adapter,
    which never hands a 429 answer over: no call adds to
    [ss_rate_limit_hits]. *)
Lemma ss_rate_limit_hits_untouched cached answers arxiv_id fields :
  counted ss_rate_limit_hits
    (trace (_ss_get_cached cached answers arxiv_id fields)) = 0.
Proof.
  destruct cached as [held|]; [done|]. cbn [_ss_get_cached].
  destruct (ss_get_shape answers arxiv_id fields)
    as (n & tail & r & Hn & -> & Htail & _).
  cbn [trace]. unfold counted. rewrite !sum_list_with_app.
  assert (Hrep : sum_list_with (incr_of ss_rate_limit_hits)
            (replicate n (HttpGet (SEMANTIC_SCHOLAR_BASE ++ arxiv_id))) = 0).
  { clear. induction n as [|n IH]; [done|exact IH]. }
  rewrite Hrep. by destruct Htail as [-> | ->].
Qed.

End SSFacts.

(* ===================================================================== *)
(** ** Which references enter the mapping *)
(* ===================================================================== *)

Module RefsFacts.
Import PyStr Ids Data Eff EffFacts IdsFacts SS Refs.







(** The examples of the specification. *)
Example extract_from_external_ids :
  _extract_arxiv_id_comprehensive ref_with_external_id = Some (py "2401.00001")
  ∧ format_yymm_id (py "2401.00001") = py "2401-00001".
Proof. split; vm_compute; reflexivity. Qed.

Example extract_from_url :
  _extract_arxiv_id_comprehensive ref_with_url = Some (py "2401.00002")
  ∧ format_yymm_id (py "2401.00002") = py "2401-00002".
Proof. split; vm_compute; reflexivity. Qed.

Example example_mapping :
  ∃ references,
    outcome (_fetch_references_and_paper_venue
               (Some (Some (PaperDict example_answer))) []
               (fun _ => py "2024-01-05") (py "2504.13946"))
      = Ok (references, Some (py "NeurIPS")) ∧
    r_paper_title <$> references !! py "2401-00001" = Some (py "A cited paper") ∧
    r_submission_date <$> references !! py "2401-00002" = Some (py "2024-01-05") ∧
    references !! py "2401-00003" = None ∧
    size references = 2.
Proof. eexists. split; [reflexivity|]. repeat split; vm_compute; reflexivity. Qed.

(** The external ids take priority over the URL, and among them the
    spellings are tried in the order ArXiv, arXiv, arxiv, ARXIV; an
    identifier found there is not replaced by the one of the URL even when it
    is not valid. *)
Lemma extract_priority (ext_ids : gmap pystr pystr) url title c v :
  ext_ids !! py "ArXiv" = Some (c :: v) ->
  _extract_arxiv_id_comprehensive
    {| ref_externalIds := Some ext_ids; ref_url := url; ref_title := title;
       ref_authors := []; ref_publicationDate := None; ref_year := None;
       ref_paperId := None |} = Some (c :: v).
Proof.
  intros H. unfold _extract_arxiv_id_comprehensive.
  cbn [ref_externalIds first_truthy]. by rewrite H.
Qed.

End RefsFacts.

(* ===================================================================== *)
(** ** The count of downloaded revisions *)
(* ===================================================================== *)

Module DownloadFacts.
Import PyStr Data Eff EffFacts Versions Download.

(** The task of one revision returns, and it returns [True] exactly when
    its own download answers 200 and its own archive unpacks. *)
Lemma process_version_outcome answer unpack version_id version_dir tex_root
    version_folder :
  outcome (_download_and_process_version answer unpack version_id version_dir
             tex_root version_folder)
  = Ok (version_ok answer unpack).
Proof.
  unfold _download_and_process_version, download_eprint_session, version_ok.
  destruct answer as [status|]; [|by destruct unpack].
  destruct (status =? 200)%Z; destruct unpack; reflexivity.
Qed.

Lemma tally_perm {X} (good : X -> bool) (l1 l2 : list X) :
  l1 ≡ₚ l2 -> tally good l1 = tally good l2.
Proof.
  unfold tally. induction 1 as [|x l1 l2 _ IH|x y l|l1 l2 l3 _ IH1 _ IH2];
    cbn; [done|by rewrite IH|lia|congruence].
Qed.

Lemma tally_ext {X} (good1 good2 : X -> bool) (l : list X) :
  (∀ x, good1 x = good2 x) -> tally good1 l = tally good2 l.
Proof.
  intros H. unfold tally. induction l as [|x l IH]; cbn; [done|].
  by rewrite H, IH.
Qed.

Lemma tally_fmap {X Y} (good : Y -> bool) (f : X -> Y) (l : list X) :
  tally good (f <$> l) = tally (fun x => good (f x)) l.
Proof. unfold tally. induction l as [|x l IH]; cbn; [done|by rewrite IH]. Qed.

Lemma tally_filter {X} (good : X -> bool) (l : list X) :
  tally good l = length (filter (fun x => good x = true) l).
Proof.
  unfold tally. induction l as [|x l IH]; [done|].
  rewrite filter_cons. cbn. rewrite IH.
  destruct (good x); by case_decide.
Qed.

(** The loop over the finished downloads counts the futures that hold
    [True]. *)
Lemma count_loop_outcome (l : list (nat * future bool)) (n : nat) :
  outcome
    (for_each l n (fun successful_versions vf =>
       try_except
         (let* ok := future_result Completed vf.2 in
          if ok : bool then
            emit (Incr versions_downloaded 1);;
            ret (S successful_versions)
          else ret successful_versions)
         (fun _ => ret successful_versions)))
  = Ok (n + tally (fun vf => succeeded vf.2) l).
Proof.
  revert n. induction l as [|[v fut] l IH]; intros n; cbn [for_each].
  - cbn. by rewrite Nat.add_0_r.
  - erewrite outcome_bind_ok; [rewrite IH|].
    2: { instantiate (1 := if succeeded fut then S n else n).
         by destruct fut as [[]|e]. }
    unfold tally. cbn. f_equal. destruct (succeeded fut); lia.
Qed.

Lemma download_versions_outcome output_dir answer unpack finish formatted
    base_dot_id versions_info :
  outcome (_download_versions_concurrently output_dir answer unpack finish
             formatted base_dot_id versions_info)
  = Ok (tally (fun v : nat * pystr => version_ok (answer v.1) (unpack v.1))
          versions_info).
Proof.
  unfold _download_versions_concurrently, ensure_dir, mbind, M_bind.
  rewrite bind_emit. cbn [outcome].
  set (tex_root := path_join (path_join output_dir formatted) (py "tex")).
  set (task := fun v : nat * pystr =>
         _download_and_process_version (answer v.1) (unpack v.1) v.2
           (path_join tex_root (formatted ++ py "v" ++ str_of_nat v.1))
           tex_root (formatted ++ py "v" ++ str_of_nat v.1)).
  rewrite (for_each_ext versions_info [] _
             (fun futs v =>
                let* fut := submit (task v) in ret (futs ++ [(v.1, fut)])))
    by (by intros futs [version_num version_id]).
  rewrite (for_each_submit (fun v : nat * pystr => v.1) task).
  erewrite outcome_bind_ok by reflexivity. cbn [app].
  rewrite count_loop_outcome. cbn [Nat.add]. f_equal.
  rewrite (tally_perm _ _ _ (as_completed_perm finish _)).
  rewrite tally_fmap.
  apply tally_ext. intros v. cbn [snd]. unfold task.
  by rewrite process_version_outcome; destruct (version_ok _ _).
Qed.

(** C7. The download step returns, and the count it returns is the number
    of revisions whose own download answered 200 and whose own archive
    unpacked.  The result of the task of a revision is a function of the
    answers for that revision: answers that differ for one revision only
    leave the result of every other task as it was.  The count lies between
    0 and the number of revisions. *)
Theorem download_count_is_successes
    (output_dir : path) (answer : nat -> download_outcome)
    (unpack : nat -> extract_outcome) (finish : nat -> nat)
    (formatted base_dot_id : pystr) (versions_info : list (nat * pystr)) :
  let tex_root := path_join (path_join output_dir formatted) (py "tex") in
  let task answer unpack (v : nat * pystr) :=
    _download_and_process_version (answer v.1) (unpack v.1) v.2
      (path_join tex_root (formatted ++ py "v" ++ str_of_nat v.1)) tex_root
      (formatted ++ py "v" ++ str_of_nat v.1) in
  let successes :=
    length (filter (fun v => version_ok (answer v.1) (unpack v.1) = true)
              versions_info) in
  (∀ v, outcome (task answer unpack v)
        = Ok (version_ok (answer v.1) (unpack v.1))) ∧
  (∀ answer' unpack' (failing : nat) v,
     (∀ w, w ≠ failing -> answer' w = answer w ∧ unpack' w = unpack w) ->
     v.1 ≠ failing ->
     outcome (task answer' unpack' v) = outcome (task answer unpack v)) ∧
  outcome (_download_versions_concurrently output_dir answer unpack finish
             formatted base_dot_id versions_info) = Ok successes ∧
  0 ≤ successes ≤ length versions_info.
Proof.
  cbv zeta. split_and!.
  - intros v. apply process_version_outcome.
  - intros answer' unpack' failing v Hsame Hv.
    rewrite !process_version_outcome.
    by destruct (Hsame v.1 Hv) as [-> ->].
  - by rewrite download_versions_outcome, tally_filter.
  - lia.
  - apply length_filter.
Qed.

Lemma download_count_is_successes_witness :
  let answer v := if v =? 2 then DlStatus 404 else DlStatus 200 in
  let answer' (v : nat) := DlStatus 200 in
  let unpack (v : nat) := Extracted 4 in
  let versions_info :=
    [(1, py "2504.13946v1"); (2, py "2504.13946v2"); (3, py "2504.13946v3")] in
  outcome (_download_versions_concurrently [py "23120067"] answer unpack
             (fun v => 3 - v) (py "2504-13946") (py "2504.13946")
             versions_info) = Ok 2 ∧
  outcome (_download_versions_concurrently [py "23120067"] answer' unpack
             (fun v => 3 - v) (py "2504-13946") (py "2504.13946")
             versions_info) = Ok 3 ∧
  ∀ v : nat * pystr, v.1 ≠ 2 ->
    outcome (_download_and_process_version (answer' v.1) (unpack v.1) v.2
               (path_join [py "23120067"; py "2504-13946"; py "tex"]
                  (py "2504-13946" ++ py "v" ++ str_of_nat v.1))
               [py "23120067"; py "2504-13946"; py "tex"]
               (py "2504-13946" ++ py "v" ++ str_of_nat v.1))
    = outcome (_download_and_process_version (answer v.1) (unpack v.1) v.2
               (path_join [py "23120067"; py "2504-13946"; py "tex"]
                  (py "2504-13946" ++ py "v" ++ str_of_nat v.1))
               [py "23120067"; py "2504-13946"; py "tex"]
               (py "2504-13946" ++ py "v" ++ str_of_nat v.1)).
Proof.
  cbv zeta.
  destruct (download_count_is_successes [py "23120067"]
              (fun v => if v =? 2 then DlStatus 404 else DlStatus 200)
              (fun _ => Extracted 4) (fun v => 3 - v)
              (py "2504-13946") (py "2504.13946")
              [(1, py "2504.13946v1"); (2, py "2504.13946v2");
               (3, py "2504.13946v3")])
    as (_ & Hother & Hcount & _).
  split; [rewrite Hcount; reflexivity|]. split; [vm_compute; reflexivity|].
  intros v Hv.
  apply (Hother (fun _ => DlStatus 200)
           (fun _ => Extracted 4) 2 v); [|exact Hv].
  intros w Hw. split; [|reflexivity].
  destruct (Nat.eqb_spec w 2); [contradiction|reflexivity].
Defined.

End DownloadFacts.

(* ===================================================================== *)
(** ** Which operations a function performs *)
(* ===================================================================== *)

Module OnlyFacts.
Import PyStr Ids Data Eff EffFacts Versions SS Refs Download.

Section Only.
Context (P : op -> Prop).

Lemma only_ret {A} (a : A) : only P (ret a).
Proof. constructor. Qed.

Lemma only_raise {A} (e : exn) : only P (@raise A e).
Proof. constructor. Qed.

Lemma only_emit (o : op) : P o -> only P (emit o).
Proof. intros H. by repeat constructor. Qed.

Lemma only_bind {A B} (m : M A) (f : A -> M B) :
  only P m -> (∀ a, only P (f a)) -> only P (bind m f).
Proof.
  unfold only, bind. intros Hm Hf. destruct (outcome m) as [a|e]; cbn; [|done].
  apply Forall_app. split; [done|apply Hf].
Qed.

Lemma only_try {A} (m : M A) (h : exn -> M A) :
  only P m -> (∀ e, only P (h e)) -> only P (try_except m h).
Proof.
  unfold only, try_except. intros Hm Hh.
  destruct (outcome m) as [a|e]; cbn; [done|].
  apply Forall_app. split; [done|apply Hh].
Qed.

Lemma only_for_each {A S} (l : list A) (s : S) (body : S -> A -> M S) :
  (∀ s a, only P (body s a)) -> only P (for_each l s body).
Proof.
  intros Hbody. revert s. induction l as [|a l IH]; intros s; cbn [for_each].
  - apply only_ret.
  - apply only_bind; [apply Hbody|apply IH].
Qed.

Lemma only_submit {A} (task : M A) :
  P (Spawn (trace task)) -> only P (submit task).
Proof. intros H. by repeat constructor. Qed.

Lemma only_future_result {A} (w : wait) (fut : future A) :
  only P (future_result w fut).
Proof. destruct w, fut; constructor. Qed.

End Only.

(** One step through the structure of a computation. *)
Ltac only_step :=
  lazymatch goal with
  | |- only _ (ret _) => apply only_ret
  | |- only _ (raise _) => apply only_raise
  | |- only _ (emit _) => apply only_emit
  | |- only _ (ensure_dir _) => apply only_emit
  | |- only _ (bind _ _) => apply only_bind; [|intros ?]
  | |- only _ (mbind _ _) => apply only_bind; [|intros ?]
  | |- only _ (try_except _ _) => apply only_try; [|intros ?]
  | |- only _ (for_each _ _ _) => apply only_for_each; intros ? ?
  | |- only _ (submit _) => apply only_submit
  | |- only _ (future_result _ _) => apply only_future_result
  | |- only _ (match ?x with _ => _ end) => destruct x
  end.

Section Benign.
Context (P : op -> Prop) (HP : benign P).

Lemma check_only resp id : only P (_check_version_exists resp id).
Proof.
  unfold _check_version_exists. repeat only_step.
  - apply (benign_head P HP).
  - by apply (benign_incr P HP).
Qed.

Lemma discover_only probe finish recheck arxiv_id :
  only P (_discover_all_versions probe finish recheck arxiv_id).
Proof.
  unfold _discover_all_versions. repeat only_step.
  all: try apply check_only.
  apply (benign_spawn P HP), check_only.
Qed.

Lemma urlopen_only r left url answers :
  starts_with ARXIV_EPRINT_URL url = false ->
  only P (urlopen r left url answers).
Proof.
  intros Hurl. revert answers.
  induction left as [|left IH]; intros answers;
    destruct answers as [|[status ra body|] later]; cbn [urlopen];
    repeat only_step; try apply IH; by apply (benign_get P HP).
Qed.

Lemma ss_get_cached_only cached answers arxiv_id fields :
  only P (_ss_get_cached cached answers arxiv_id fields).
Proof.
  unfold _ss_get_cached, _ss_get, session_get.
  destruct cached; repeat only_step.
  all: try (by apply (benign_incr P HP)).
  - apply (benign_rate P HP).
  - by apply urlopen_only.
Qed.

Lemma build_only abs_date ref arxiv_ref_id :
  only P (_build_reference_metadata_accurate abs_date ref arxiv_ref_id).
Proof.
  unfold _build_reference_metadata_accurate, _get_submission_date_from_arxiv.
  repeat only_step. by apply (benign_get P HP).
Qed.

Lemma reference_step_only abs_date acc ref :
  only P (reference_step abs_date acc ref).
Proof.
  unfold reference_step. destruct acc. repeat only_step.
  apply build_only.
Qed.

Lemma fetch_references_only cached answers abs_date arxiv_id :
  only P (_fetch_references_and_paper_venue cached answers abs_date arxiv_id).
Proof.
  unfold _fetch_references_and_paper_venue. repeat only_step.
  all: try (by apply (benign_incr P HP)).
  - apply ss_get_cached_only.
  - apply reference_step_only.
Qed.

End Benign.

Section BenignDownload.
Context (P : op -> Prop) (HP : benign P) (HD : benign_download P).

Lemma process_version_only answer unpack version_id version_dir tex_root
    version_folder :
  only P (_download_and_process_version answer unpack version_id version_dir
            tex_root version_folder).
Proof.
  unfold _download_and_process_version, download_eprint_session.
  repeat only_step.
  all: first [ apply (benign_mkdir P HD) | apply (benign_any_get P HD)
             | apply (benign_write_file P HD) | apply (benign_extract P HD)
             | apply (benign_unlink P HD) | by apply (benign_incr P HP) ].
Qed.

Lemma download_versions_only output_dir answer unpack finish formatted
    base_dot_id versions_info :
  only P (_download_versions_concurrently output_dir answer unpack finish
            formatted base_dot_id versions_info).
Proof.
  unfold _download_versions_concurrently. repeat only_step.
  - apply (benign_mkdir P HD).
  - apply (benign_spawn P HP), process_version_only.
  - by apply (benign_incr P HP).
Qed.

End BenignDownload.

End OnlyFacts.

(* ===================================================================== *)
(** ** One paper: retry, persistence, failure *)
(* ===================================================================== *)

Module PaperFacts.
Import PyStr Ids Data Eff EffFacts Versions SS Refs Download Paper.
Import VersionsFacts SSFacts DownloadFacts OnlyFacts.

Lemma trace_try_ret {A} (m : M A) (a : A) :
  trace (try_except m (fun _ => ret a)) = trace m.
Proof.
  unfold try_except. destruct (outcome m); [done|]. cbn. by rewrite app_nil_r.
Qed.

Lemma eta {A} (m : M A) : Run (trace m) (outcome m) = m.
Proof. by destruct m. Qed.

Lemma bind_submit {A B} (task : M A) (f : future A -> M B) :
  bind (submit task) f
  = Run (Spawn (trace task) :: trace (f (outcome task)))
        (outcome (f (outcome task))).
Proof. reflexivity. Qed.

Lemma bind_awaited {A B} (w : wait) (fut : future A) (otherwise : A)
    (f : A -> M B) :
  bind (try_except (future_result w fut) (fun _ => ret otherwise)) f
  = f (awaited w fut otherwise).
Proof.
  destruct w, fut; cbn; unfold bind; cbn; apply eta.
Qed.

Lemma discover_returns probe finish recheck arxiv_id :
  ∃ l, outcome (_discover_all_versions probe finish recheck arxiv_id) = Ok l.
Proof.
  rewrite discover_outcome. cbv zeta.
  destruct (match merge_sort Nat.le _ with [] => [] | _ => _ end); by eexists.
Qed.

Lemma ss_get_cached_returns cached answers arxiv_id fields :
  ∃ r, outcome (_ss_get_cached cached answers arxiv_id fields) = Ok r.
Proof.
  destruct cached as [held|]; cbn [_ss_get_cached]; [by eexists|].
  destruct (ss_get_shape answers arxiv_id fields) as (n & tl & r & _ & -> & _).
  by eexists.
Qed.

(** The metadata fetch never raises.  It asks the primary source once, first
    of all, and it yields metadata exactly when the primary source has an
    entry: nothing that happens to the revision probes, to the venue lookup
    or to the revision dates changes that. *)
Lemma fetch_metadata_outcome net arxiv_id venue_override :
  if has_entry (mn_lookup net)
  then ∃ m versions_info,
         outcome (_fetch_metadata_with_complete_versions net arxiv_id
                    venue_override) = Ok (Some m, versions_info)
  else _fetch_metadata_with_complete_versions net arxiv_id venue_override
       = Run [ArxivSearch arxiv_id] (Ok (None, [])).
Proof.
  unfold _fetch_metadata_with_complete_versions.
  destruct (mn_lookup net) as [paper| |]; cbn [has_entry]; [|done|done].
  unfold mbind, M_bind.
  destruct (discover_returns (mn_probe net) (mn_finish net) (mn_recheck net)
              arxiv_id) as (versions & Hversions).
  match goal with |- context [try_except ?m _] => set (inner := m) end.
  assert (Hinner : ∃ m versions_info, outcome inner = Ok (Some m, versions_info)).
  { subst inner. rewrite bind_emit. cbn [outcome]. rewrite bind_ret.
    erewrite outcome_bind_ok by exact Hversions.
    rewrite bind_emit. cbn [outcome].
    destruct (ss_get_cached_returns (mn_ss_cached net) (mn_ss_answers net)
                arxiv_id (py "venue,publicationVenue")) as (r & Hr).
    destruct venue_override as [[|c venue]|].
    - erewrite (outcome_bind_ok (bind _ _)).
      2: { erewrite outcome_bind_ok by exact Hr. reflexivity. }
      by eexists _, _.
    - by eexists _, _.
    - erewrite (outcome_bind_ok (bind _ _)).
      2: { erewrite outcome_bind_ok by exact Hr. reflexivity. }
      by eexists _, _. }
  destruct Hinner as (m & versions_info & Hinner).
  exists m, versions_info. by erewrite try_except_ok by exact Hinner.
Qed.

Lemma fetch_metadata_returns net arxiv_id venue_override :
  ∃ r, outcome (_fetch_metadata_with_complete_versions net arxiv_id
                  venue_override) = Ok r.
Proof.
  pose proof (fetch_metadata_outcome net arxiv_id venue_override) as H.
  destruct (has_entry (mn_lookup net)).
  - destruct H as (m & vi & ->). eauto.
  - rewrite H. eauto.
Qed.

Lemma fetch_metadata_trace (P : op -> Prop) net arxiv_id venue_override :
  benign P ->
  ∃ rest,
    trace (_fetch_metadata_with_complete_versions net arxiv_id venue_override)
    = ArxivSearch arxiv_id :: rest ∧ Forall P rest.
Proof.
  intros HP. unfold _fetch_metadata_with_complete_versions.
  rewrite trace_try_ret. unfold mbind at 1, M_bind at 1. rewrite bind_emit.
  eexists. split; [reflexivity|].
  cbn [trace].
  match goal with |- Forall P (trace ?m) => change (only P m) end.
  unfold _scrape_version_dates_light.
  repeat only_step.
  all: try (by apply (benign_incr P HP)).
  all: try (by apply (benign_get P HP)).
  all: try apply (discover_only P HP).
  all: try apply (ss_get_cached_only P HP).
Qed.

Lemma save_json_run (dir : path) (name : pystr) (doc : json_doc) :
  _save_json (path_join dir name) doc
  = Run [Mkdir dir; WriteJson (path_join dir name) doc] (Ok tt).
Proof.
  unfold _save_json, ensure_dir, parent, path_join.
  by rewrite removelast_last.
Qed.

Lemma download_returns output_dir net arxiv_id :
  ∀ versions_info,
    ∃ n, outcome (download_call output_dir net arxiv_id versions_info) = Ok n.
Proof.
  intros versions_info. unfold download_call. eexists.
  apply download_versions_outcome.
Qed.

(** What a run of [scrape_single_paper] does, by the outcome of the two
    metadata calls. *)
Lemma scrape_shape output_dir net arxiv_id :
  let base := base_dot_id_of arxiv_id in
  scrape_single_paper output_dir net arxiv_id =
    match (meta_got net base).1 with
    | Some m =>
        Run (prologue output_dir net arxiv_id
               ++ epilogue output_dir net arxiv_id m (meta_got net base).2)
            (Ok true)
    | None =>
        match outcome (retry_call net base) with
        | Ok (Some m, versions_info) =>
            Run (prologue output_dir net arxiv_id
                   ++ trace (retry_call net base)
                   ++ epilogue output_dir net arxiv_id m versions_info)
                (Ok true)
        | Ok (None, _) =>
            Run (prologue output_dir net arxiv_id
                   ++ trace (retry_call net base))
                (Raise TypeError)
        | Raise e =>
            Run (prologue output_dir net arxiv_id
                   ++ trace (retry_call net base))
                (Raise e)
        end
    end.
Proof.
  cbv zeta. unfold scrape_single_paper. cbv zeta.
  unfold ensure_dir, mbind, M_bind.
  rewrite bind_emit, !bind_submit. cbn [trace outcome].
  rewrite bind_awaited.
  fold (refs_task net (base_dot_id_of arxiv_id)).
  fold (meta_task net (base_dot_id_of arxiv_id)).
  fold (refs_got net (base_dot_id_of arxiv_id)).
  set (base := base_dot_id_of arxiv_id).
  assert (Hretry : ∀ venue, (refs_got net base).2 = venue ->
            _fetch_metadata_with_complete_versions (pn_retry net) base venue
            = retry_call net base).
  { intros venue <-. reflexivity. }
  unfold prologue, epilogue. cbv zeta. fold base.
  pose proof (download_returns output_dir net arxiv_id) as Hdl.
  unfold download_call in *. cbv zeta in *. fold base in Hdl |- *.
  destruct (refs_got net base) as [references venue] eqn:Hrefs.
  specialize (Hretry venue eq_refl). cbn [fst snd].
  rewrite bind_emit. cbn [trace outcome].
  rewrite bind_awaited. fold (meta_got net base).
  match goal with
  | |- context [bind (match _ with Some _ => _ | None => _ end) ?k] =>
      set (K := k)
  end.
  assert (HK : ∀ m vi,
    K (Some m, vi) =
      Run ([Mkdir (paper_dir_of output_dir arxiv_id);
            WriteJson (metadata_json output_dir arxiv_id)
              (MetadataDoc (reconcile venue m));
            Mkdir (paper_dir_of output_dir arxiv_id);
            WriteJson (references_json output_dir arxiv_id)
              (ReferencesDoc references)]
           ++ trace (_download_versions_concurrently output_dir
                       (pn_download net) (pn_unpack net)
                       (pn_download_finish net) (format_yymm_id base) base vi))
          (Ok true)).
  { intros m vi. subst K. cbv beta iota.
    assert (Hrec :
      (if truthy_opt venue
       then ret (Some (set_publication_venue m (default [] venue)))
       else ret (Some m)) = (ret (Some (reconcile venue m)) : M _)).
    { unfold reconcile. by destruct (truthy_opt venue). }
    rewrite Hrec, bind_ret, !save_json_run.
    destruct (Hdl vi) as [n Hn].
    unfold bind at 1 2. cbn [trace outcome].
    unfold bind. rewrite Hn. cbn [trace outcome app].
    by rewrite app_nil_r. }
  assert (HK' : ∀ vi, K (None, vi) = raise TypeError).
  { intros vi. subst K. cbv beta iota.
    assert (Hrec :
      (if truthy_opt venue then raise TypeError else raise TypeError)
      = (raise TypeError : M (option metadata))).
    { by destruct (truthy_opt venue). }
    by rewrite Hrec, bind_raise. }
  clearbody K.
  destruct (meta_got net base) as [[m|] versions_info] eqn:Hmeta; cbn [fst snd].
  - by rewrite bind_ret, HK.
  - rewrite Hretry.
    destruct (retry_call net base) as [t [[[m|] vi]|e]];
      unfold bind; cbn [trace outcome]; [|by rewrite HK', app_nil_r|done].
    rewrite HK. cbn [trace outcome]. done.
Qed.

(** *** The predicates used below are benign *)

Lemma no_lookup_benign : benign (fun o => is_lookup o = false).
Proof. by constructor. Qed.

Lemma no_lookup_benign_download : benign_download (fun o => is_lookup o = false).
Proof. by constructor. Qed.

Lemma no_fs_benign : benign (fun o => is_fs_op o = false).
Proof. by constructor. Qed.

Lemma existsb_false {A} (f : A -> bool) (l : list A) :
  Forall (fun x => f x = false) l -> existsb f l = false.
Proof. induction 1 as [|x l Hx _ IH]; [done|]. cbn. by rewrite Hx, IH. Qed.


Lemma filter_none {A} (f : A -> bool) (l : list A) :
  Forall (fun x => f x = false) l -> List.filter f l = [].
Proof. induction 1 as [|x l Hx _ IH]; [done|]. cbn. by rewrite Hx. Qed.


Lemma replay_no_fs t s :
  Forall (fun o => is_fs_op o = false) t -> replay t s = s.
Proof.
  intros H. revert s. induction H as [|o t Ho _ IH]; intros s; [done|].
  cbn. rewrite <- (IH s) at 2. unfold replay. f_equal.
  by destruct o.
Qed.


(** The first metadata attempt leaves nothing exactly when its wait times
    out or the primary source has no entry. *)
Lemma meta_got_none net base :
  (meta_got net base).1 = None ↔
  pn_meta_wait net = TimedOut ∨ has_entry (mn_lookup (pn_meta net)) = false.
Proof.
  unfold meta_got, meta_task, awaited.
  pose proof (fetch_metadata_outcome (pn_meta net) base None) as H.
  destruct (pn_meta_wait net); [|split; [by left|done]].
  destruct (has_entry (mn_lookup (pn_meta net))).
  - destruct H as (m & vi & ->). cbn. split; [done|]. by intros [|].
  - rewrite H. cbn. split; auto.
Qed.

Lemma retry_outcome net base :
  if has_entry (mn_lookup (pn_retry net))
  then ∃ m vi, outcome (retry_call net base) = Ok (Some m, vi)
  else retry_call net base = Run [ArxivSearch base] (Ok (None, [])).
Proof. apply fetch_metadata_outcome. Qed.

Lemma retry_lookups net base :
  lookups (trace (retry_call net base)) = [ArxivSearch base].
Proof.
  unfold retry_call.
  destruct (fetch_metadata_trace (fun o => is_lookup o = false) (pn_retry net)
              base (refs_got net base).2 no_lookup_benign)
    as (rest & -> & Hrest).
  unfold lookups. cbn. by rewrite filter_none.
Qed.

Lemma epilogue_lookups output_dir net arxiv_id m vi :
  lookups (epilogue output_dir net arxiv_id m vi) = [].
Proof.
  unfold epilogue, lookups. cbv zeta. rewrite List.filter_app.
  rewrite (filter_none _ (trace _)); [reflexivity|].
  apply (download_versions_only _ no_lookup_benign no_lookup_benign_download).
Qed.

Lemma prologue_lookups output_dir net arxiv_id :
  lookups (prologue output_dir net arxiv_id) = [].
Proof. reflexivity. Qed.

Lemma lookups_app t1 t2 : lookups (t1 ++ t2) = lookups t1 ++ lookups t2.
Proof. apply List.filter_app. Qed.

(** C2. When the pooled metadata fetch fails or times out, the orchestrator
    calls the fetch again exactly once, in its own thread, with the venue the
    reference fetch obtained; when the fetch succeeded it is not called
    again.  The paper fails, with an exception, exactly when metadata is
    absent after that: the first attempt gave nothing and the primary source
    has no entry at the second.  Whatever happens to the revision probes, the
    venue lookup and the revision dates, a fetch that finds an entry yields
    metadata. *)
Theorem metadata_retried_once_then_fatal
    (output_dir : path) (net : paper_net) (arxiv_id : pystr) :
  let base := base_dot_id_of arxiv_id in
  let run := scrape_single_paper output_dir net arxiv_id in
  let retry :=
    _fetch_metadata_with_complete_versions (pn_retry net) base
      (refs_got net base).2 in
  ((meta_got net base).1 = None ↔
     pn_meta_wait net = TimedOut ∨
     has_entry (mn_lookup (pn_meta net)) = false) ∧
  ((meta_got net base).1 = None ->
     lookups (trace run) = [ArxivSearch base] ∧
     ∃ tail, trace run = prologue output_dir net arxiv_id ++ trace retry ++ tail) ∧
  ((meta_got net base).1 ≠ None ->
     lookups (trace run) = [] ∧ outcome run = Ok true) ∧
  ((∃ e, outcome run = Raise e) ↔
     (meta_got net base).1 = None ∧
     has_entry (mn_lookup (pn_retry net)) = false) ∧
  (outcome run = Ok true ∨ outcome run = Raise TypeError) ∧
  (∀ (n : meta_net) (id : pystr) (venue_override : option pystr),
     has_entry (mn_lookup n) = true ->
     ∃ m versions_info,
       outcome (_fetch_metadata_with_complete_versions n id venue_override)
       = Ok (Some m, versions_info)).
Proof.
  cbv zeta. fold (retry_call net (base_dot_id_of arxiv_id)).
  set (base := base_dot_id_of arxiv_id).
  pose proof (scrape_shape output_dir net arxiv_id) as Hshape.
  cbv zeta in Hshape. fold base in Hshape.
  pose proof (retry_outcome net base) as Hretry.
  pose proof (retry_lookups net base) as Hlook.
  split_and!.
  - apply meta_got_none.
  - intros Hnone. rewrite Hnone in Hshape. rewrite Hshape.
    destruct (has_entry (mn_lookup (pn_retry net))).
    + destruct Hretry as (m & vi & Hretry). rewrite Hretry. cbn [trace].
      split; [|by eexists].
      by rewrite !lookups_app, prologue_lookups, Hlook, epilogue_lookups.
    + rewrite Hretry in Hlook |- *. cbn [trace outcome].
      split; [|by exists []; rewrite app_nil_r].
      by rewrite lookups_app, prologue_lookups.
  - intros Hsome. destruct ((meta_got net base).1) as [m|]; [|done].
    rewrite Hshape. cbn [trace outcome]. split; [|done].
    by rewrite lookups_app, prologue_lookups, epilogue_lookups.
  - rewrite Hshape. destruct ((meta_got net base).1) as [m|].
    + cbn. split; [by intros [e ?]|by intros [? _]].
    + destruct (has_entry (mn_lookup (pn_retry net))).
      * destruct Hretry as (m & vi & ->). cbn.
        split; [by intros [e ?]|by intros [_ ?]].
      * rewrite Hretry. cbn. split; [done|]. intros _. by eexists.
  - rewrite Hshape. destruct ((meta_got net base).1) as [m|]; [by left|].
    destruct (has_entry (mn_lookup (pn_retry net))).
    + destruct Hretry as (m & vi & ->). by left.
    + rewrite Hretry. by right.
  - intros n id venue_override Hentry.
    pose proof (fetch_metadata_outcome n id venue_override) as H.
    by rewrite Hentry in H.
Qed.

Lemma metadata_retried_once_then_fatal_witness :
  let base := base_dot_id_of (py "arXiv:2504.13946v2") in
  let run :=
    scrape_single_paper [py "23120067"] net_without_entry
      (py "arXiv:2504.13946v2") in
  (meta_got net_without_entry base).1 = None ∧
  has_entry (mn_lookup (pn_retry net_without_entry)) = false ∧
  lookups (trace run) = [ArxivSearch (py "2504.13946")] ∧
  outcome run = Raise TypeError.
Proof.
  cbv zeta.
  destruct (metadata_retried_once_then_fatal [py "23120067"] net_without_entry
              (py "arXiv:2504.13946v2")) as (_ & Honce & _ & _ & Hor & _).
  assert (Hnone : (meta_got net_without_entry
                     (base_dot_id_of (py "arXiv:2504.13946v2"))).1 = None)
    by reflexivity.
  destruct (Honce Hnone) as (Hlook & _).
  split; [exact Hnone|]. split; [reflexivity|]. split; [exact Hlook|].
  vm_compute. reflexivity.
Defined.

(** Every operation of a run satisfies a predicate that holds of the
    operations of the pieces. *)
Lemma scrape_only (P : op -> Prop) output_dir net arxiv_id :
  benign P -> benign_download P ->
  (∀ id, P (ArxivSearch id)) -> (∀ p doc, P (WriteJson p doc)) ->
  only P (scrape_single_paper output_dir net arxiv_id).
Proof.
  intros HP HD Hsearch Hwrite. unfold only.
  assert (Hfetch : ∀ n id vo,
            Forall P (trace (_fetch_metadata_with_complete_versions n id vo))).
  { intros n id vo.
    destruct (fetch_metadata_trace P n id vo HP) as (rest & -> & Hrest).
    by constructor. }
  assert (Hpro : Forall P (prologue output_dir net arxiv_id)).
  { unfold prologue. cbv zeta. repeat constructor.
    - apply (benign_mkdir P HD).
    - apply (benign_spawn P HP), (fetch_references_only P HP).
    - apply (benign_spawn P HP), Hfetch.
    - by apply (benign_incr P HP). }
  assert (Hepi : ∀ m vi, Forall P (epilogue output_dir net arxiv_id m vi)).
  { intros m vi. unfold epilogue. cbv zeta. apply Forall_app. split.
    - repeat constructor; first [apply (benign_mkdir P HD) | apply Hwrite].
    - apply (download_versions_only P HP HD). }
  rewrite scrape_shape. cbv zeta.
  destruct ((meta_got net (base_dot_id_of arxiv_id)).1) as [m|].
  - apply Forall_app. by split.
  - destruct (outcome (retry_call net (base_dot_id_of arxiv_id)))
      as [[[m|] vi]|e]; cbn [trace]; rewrite ?Forall_app;
      split_and?; try done; apply Hfetch.
Qed.

(** *** Persistence comes before the downloads *)









(** *** A failed paper leaves its directory behind *)

(** C10. The first operation of a run creates the directory of the paper,
    so it precedes every fetch.  When the run raises, metadata was absent
    after the second call; no JSON document was written; and on the file
    system the directory of the paper exists while the files are what they
    were before the run. *)
Theorem directory_precedes_fetches_and_survives_failure
    (output_dir : path) (net : paper_net) (arxiv_id : pystr) (s : fs) :
  let base := base_dot_id_of arxiv_id in
  let run := scrape_single_paper output_dir net arxiv_id in
  (∃ rest, trace run = Mkdir (paper_dir_of output_dir arxiv_id) :: rest) ∧
  (∀ e, outcome run = Raise e ->
     (meta_got net base).1 = None ∧
     has_entry (mn_lookup (pn_retry net)) = false ∧
     List.filter is_write_json (trace run) = [] ∧
     paper_dir_of output_dir arxiv_id ∈ dirs (replay (trace run) s) ∧
     files (replay (trace run) s) = files s).
Proof.
  cbv zeta. set (base := base_dot_id_of arxiv_id).
  pose proof (scrape_shape output_dir net arxiv_id) as Hshape.
  cbv zeta in Hshape. fold base in Hshape.
  pose proof (retry_outcome net base) as Hretry.
  split.
  - rewrite Hshape.
    destruct ((meta_got net base).1) as [m|];
      [|destruct (outcome (retry_call net base)) as [[[m|] vi]|e]];
      by eexists.
  - intros e. rewrite Hshape.
    destruct ((meta_got net base).1) as [m|]; [done|].
    destruct (has_entry (mn_lookup (pn_retry net))).
    + destruct Hretry as (m & vi & ->). done.
    + rewrite Hretry. cbn [outcome trace]. intros _.
      split_and!; try done.
      cbn. set_solver.
Qed.

Lemma directory_precedes_fetches_and_survives_failure_witness :
  let out := [py "23120067"] in
  let id := py "arXiv:2504.13946v2" in
  let run := scrape_single_paper out net_without_entry id in
  outcome run = Raise TypeError ∧
  paper_dir_of out id = [py "23120067"; py "2504-13946"] ∧
  List.filter is_write_json (trace run) = [] ∧
  paper_dir_of out id ∈ dirs (replay (trace run) empty_fs) ∧
  files (replay (trace run) empty_fs) = files empty_fs.
Proof.
  cbv zeta.
  assert (H : outcome (scrape_single_paper [py "23120067"] net_without_entry
                         (py "arXiv:2504.13946v2")) = Raise TypeError)
    by (vm_compute; reflexivity).
  destruct (directory_precedes_fetches_and_survives_failure [py "23120067"]
              net_without_entry (py "arXiv:2504.13946v2") empty_fs)
    as (_ & Hfail).
  destruct (Hfail TypeError H) as (_ & _ & Hw & Hd & Hf).
  split; [exact H|]. split; [reflexivity|]. by split_and!.
Defined.

End PaperFacts.

(* ===================================================================== *)
(** ** The batch survives a failed paper *)
(* ===================================================================== *)

Module BatchFacts.
Import PyStr Ids Data Eff EffFacts Versions SS Refs Download Paper Batch.
Import DownloadFacts OnlyFacts PaperFacts.

(** The safe wrapper returns whatever the orchestrator does. *)
Lemma safe_outcome output_dir net arxiv_id :
  outcome (_scrape_single_paper_safe output_dir net arxiv_id)
  = Ok (negb (paper_fails output_dir net arxiv_id)).
Proof.
  unfold _scrape_single_paper_safe, paper_fails, try_except.
  destruct (outcome (scrape_single_paper output_dir net arxiv_id)) as [b|e]
    eqn:Hrun; [|done].
  by rewrite Hrun, negb_involutive.
Qed.

Lemma safe_trace output_dir net arxiv_id :
  trace (_scrape_single_paper_safe output_dir net arxiv_id)
  = trace (scrape_single_paper output_dir net arxiv_id).
Proof. apply trace_try_ret. Qed.

(** The operations of the loop over the finished papers. *)
Lemma batch_loop_run (l : list (nat * future bool)) (u : unit) :
  for_each l u (fun _ task =>
    emit (Incr papers_attempted 1);;
    try_except
      (let* ok := future_result Completed task.2 in
       if ok : bool then emit (Incr papers_successful 1)
       else emit (Incr papers_failed 1))
      (fun _ => emit (Incr papers_failed 1)))
  = Run (l ≫= reported) (Ok tt).
Proof.
  revert u. induction l as [|[i fut] l IH]; intros []; [done|].
  cbn [for_each]. unfold bind at 1.
  destruct fut as [[]|e]; cbn; by rewrite IH.
Qed.

Lemma counted_app k t1 t2 : counted k (t1 ++ t2) = counted k t1 + counted k t2.
Proof. apply sum_list_with_app. Qed.

Lemma counted_spawns {X} k (f : X -> list op) (l : list X) :
  counted k ((fun x => Spawn (f x)) <$> l) = 0.
Proof. induction l as [|x l IH]; [done|exact IH]. Qed.

Lemma counted_reported (l : list (nat * future bool)) :
  counted papers_attempted (l ≫= reported) = length l ∧
  counted papers_successful (l ≫= reported)
    = tally (fun task => succeeded task.2) l ∧
  counted papers_failed (l ≫= reported)
    = tally (fun task => negb (succeeded task.2)) l.
Proof.
  induction l as [|[i fut] l (IH1 & IH2 & IH3)]; [done|].
  cbn [mbind list_bind]. rewrite !counted_app, IH1, IH2, IH3.
  unfold tally, reported, counted. cbn [sum_list_with length snd].
  destruct (succeeded fut); cbn; split_and!;
    repeat case_bool_decide; try done; lia.
Qed.

Lemma tally_negb {X} (good : X -> bool) (l : list X) :
  tally good l + tally (fun x => negb (good x)) l = length l.
Proof.
  unfold tally. induction l as [|x l IH]; [done|].
  cbn. destruct (good x); cbn; lia.
Qed.

Lemma scrape_papers_run output_dir nets finish arxiv_ids :
  scrape_papers output_dir nets finish arxiv_ids
  = Run (((fun ia : nat * pystr =>
             Spawn (trace (_scrape_single_paper_safe output_dir (nets ia.1)
                             ia.2))) <$> enumerate arxiv_ids)
         ++ (as_completed finish (paper_futures output_dir nets arxiv_ids)
               ≫= reported))
        (Ok tt).
Proof.
  unfold scrape_papers.
  rewrite (for_each_submit (fun ia : nat * pystr => ia.1)
             (fun ia : nat * pystr =>
                _scrape_single_paper_safe output_dir (nets ia.1) ia.2)).
  unfold bind at 1. cbn [trace outcome app].
  fold (paper_futures output_dir nets arxiv_ids).
  by rewrite batch_loop_run.
Qed.

Lemma no_write_benign k :
  paper_counter k = true -> benign (fun o => writes k o = false).
Proof.
  intros Hk. constructor; try done.
  - intros k' n Hk'. cbn. case_bool_decide; congruence.
  - intros t Ht. cbn. by apply existsb_false.
Qed.

Lemma no_write_benign_download k :
  benign_download (fun o => writes k o = false).
Proof. by constructor. Qed.

(** C5. The batch always runs to its end.  Every paper is submitted and
    reported once: the coordinating loop adds 1 to [papers_attempted] for
    every identifier, 1 to [papers_failed] for every paper whose
    orchestration raises and 1 to [papers_successful] for every other one, so
    that attempted = successful + failed; whether a paper fails depends on
    its own network only; and no spawned task writes one of the three
    counters. *)
Theorem batch_isolation
    (output_dir : path) (nets : nat -> paper_net) (finish : nat -> nat)
    (arxiv_ids : list pystr) :
  let run := scrape_papers output_dir nets finish arxiv_ids in
  let failed :=
    length (filter (fun ia : nat * pystr =>
                      paper_fails output_dir (nets ia.1) ia.2 = true)
              (enumerate arxiv_ids)) in
  outcome run = Ok tt ∧
  counted papers_attempted (trace run) = length arxiv_ids ∧
  counted papers_failed (trace run) = failed ∧
  counted papers_successful (trace run) = length arxiv_ids - failed ∧
  counted papers_attempted (trace run)
    = counted papers_successful (trace run) + counted papers_failed (trace run) ∧
  (∀ ia, ia ∈ enumerate arxiv_ids ->
     Spawn (trace (scrape_single_paper output_dir (nets ia.1) ia.2))
       ∈ trace run) ∧
  (∀ k t, paper_counter k = true -> Spawn t ∈ trace run ->
          existsb (writes k) t = false).
Proof.
  cbv zeta. rewrite scrape_papers_run. cbn [trace outcome].
  set (spawns := (fun ia : nat * pystr => Spawn _) <$> enumerate arxiv_ids).
  set (done := as_completed finish (paper_futures output_dir nets arxiv_ids)).
  destruct (counted_reported done) as (Hatt & Hsucc & Hfail).
  assert (Hlen : length done = length arxiv_ids).
  { unfold done. rewrite (as_completed_perm finish).
    unfold paper_futures, enumerate. by rewrite length_fmap, length_imap. }
  assert (Hfailed : tally (fun task : nat * future bool => negb (succeeded task.2))
                      done
                    = length (filter (fun ia : nat * pystr =>
                                paper_fails output_dir (nets ia.1) ia.2 = true)
                                (enumerate arxiv_ids))).
  { unfold done. rewrite (tally_perm _ _ _ (as_completed_perm finish _)).
    unfold paper_futures. rewrite tally_fmap, <- tally_filter.
    apply tally_ext. intros ia. cbn [snd]. rewrite safe_outcome.
    by destruct (paper_fails _ _ _). }
  pose proof (tally_negb (fun task : nat * future bool => succeeded task.2) done)
    as Hsum.
  cbn beta in Hsum.
  assert (Hsp : ∀ k, counted k spawns = 0) by (intros k; apply counted_spawns).
  rewrite !counted_app, !Hsp, Hatt, Hsucc, Hfail, <- Hfailed, <- Hlen.
  split_and!; try done; try lia.
  - intros ia Hia. apply elem_of_app. left. unfold spawns.
    apply list_elem_of_fmap. exists ia. by rewrite safe_trace.
  - intros k t Hk Ht. apply elem_of_app in Ht as [Ht|Ht].
    + unfold spawns in Ht. apply list_elem_of_fmap in Ht as (ia & [= ->] & _).
      rewrite safe_trace. apply existsb_false.
      apply (scrape_only (fun o => writes k o = false));
        [by apply no_write_benign|apply no_write_benign_download|done|done].
    + exfalso. clear -Ht. induction done as [|[i fut] l IH]; cbn in Ht.
      * by apply elem_of_nil in Ht.
      * apply elem_of_cons in Ht as [Ht|Ht]; [done|].
        apply elem_of_cons in Ht as [Ht|Ht]; [by destruct (succeeded fut)|].
        by apply IH.
Qed.

Lemma batch_isolation_witness :
  let out := [py "23120067"] in
  let ids := [py "2504.13946"; py "2504.13947"; py "2504.13948"] in
  let nets i := if i =? 1 then net_without_entry else net_with_entry in
  let run := scrape_papers out nets (fun i => 3 - i) ids in
  (1, py "2504.13947") ∈ enumerate ids ∧
  paper_fails out (nets 1) (py "2504.13947") = true ∧
  Spawn (trace (scrape_single_paper out (nets 1) (py "2504.13947")))
    ∈ trace run ∧
  outcome run = Ok tt ∧
  counted papers_attempted (trace run) = 3 ∧
  counted papers_failed (trace run) = 1 ∧
  counted papers_successful (trace run) = 2.
Proof.
  cbv zeta.
  destruct (batch_isolation [py "23120067"]
              (fun i => if i =? 1 then net_without_entry else net_with_entry)
              (fun i => 3 - i)
              [py "2504.13946"; py "2504.13947"; py "2504.13948"])
    as (Hout & Hatt & Hfail & Hsucc & _ & Hspawn & _).
  assert (Hin : (1, py "2504.13947")
                  ∈ enumerate [py "2504.13946"; py "2504.13947"; py "2504.13948"]).
  { apply elem_of_cons. right. by left. }
  split; [exact Hin|]. split; [vm_compute; reflexivity|].
  split; [exact (Hspawn _ Hin)|]. split; [exact Hout|].
  split; [exact Hatt|].
  rewrite Hsucc, Hfail. split; vm_compute; reflexivity.
Defined.

End BatchFacts.

(* ===================================================================== *)
(** ** The shared counters under concurrent writers *)
(* ===================================================================== *)

Module CountersFacts.
Import PyStr Data Eff SS Counters.

Lemma pending_insert k ths i th th' :
  ths !! i = Some th ->
  pending k (<[i := th']> ths) + pending_thread k th
  = pending k ths + pending_thread k th'.
Proof.
  unfold pending. revert i.
  induction ths as [|x ths IH]; intros i Hi; [done|].
  destruct i as [|i]; simpl in Hi |- *.
  - injection Hi as ->. lia.
  - specialize (IH i Hi). lia.
Qed.

(** *** No interleaving: nothing is lost *)

Lemma step_missing s ths i : ths !! i = None -> step (s, ths) i = (s, ths).
Proof. intros H. unfold step. by rewrite H. Qed.

Lemma step_done s ths i th :
  ths !! i = Some th -> loaded th = None -> todo th = [] ->
  step (s, ths) i = (s, ths).
Proof. intros H Hl Ht. unfold step. by rewrite H, Hl, Ht. Qed.

Lemma step_load s ths i th k n rest :
  ths !! i = Some th -> loaded th = None -> todo th = (k, n) :: rest ->
  step (s, ths) i
  = (s, <[i := {| loaded := Some (k, s k, n); todo := rest |}]> ths).
Proof. intros H Hl Ht. unfold step. by rewrite H, Hl, Ht. Qed.

Lemma step_store s ths i th k v n :
  ths !! i = Some th -> loaded th = Some (k, v, n) ->
  step (s, ths) i
  = (<[k := v + n]> s, <[i := {| loaded := None; todo := todo th |}]> ths).
Proof. intros H Hl. unfold step. by rewrite H, Hl. Qed.

Lemma uninterrupted_step (s : stats) (ths : list thread) (i : nat) (k : counter) :
  Forall idle ths ->
  let st' := run [i; i] (s, ths) in
  Forall idle st'.2 ∧ st'.1 k + pending k st'.2 = s k + pending k ths.
Proof.
  intros Hidle. cbv zeta.
  change (run [i; i] (s, ths)) with (step (step (s, ths) i) i).
  destruct (ths !! i) as [th|] eqn:Hi.
  2: { by rewrite !step_missing. }
  assert (Hth : loaded th = None).
  { eapply Forall_lookup_1 in Hidle; [|exact Hi]. exact Hidle. }
  destruct (todo th) as [|[k' n] rest] eqn:Htodo.
  { by rewrite !(step_done s ths i th). }
  rewrite (step_load s ths i th k' n rest) by done.
  erewrite step_store;
    [|apply list_lookup_insert_eq; by eapply lookup_lt_Some|reflexivity].
  cbn [loaded todo fst snd]. rewrite list_insert_insert_eq. split.
  - by apply Forall_insert.
  - pose proof (pending_insert k ths i th {| loaded := None; todo := rest |} Hi)
      as Hp.
    unfold pending_thread in Hp. rewrite Hth, Htodo in Hp.
    simpl in Hp. unfold amount_of in Hp. simpl in Hp.
    destruct (decide (k = k')) as [<-|Hne].
    + rewrite fn_lookup_insert. rewrite bool_decide_eq_true_2 in Hp by done. lia.
    + rewrite fn_lookup_insert_ne by done.
      rewrite bool_decide_eq_false_2 in Hp by done. lia.
Qed.

Lemma uninterrupted_run (choices : list nat) (s : stats) (ths : list thread)
    (k : counter) :
  Forall idle ths ->
  let st' := run (uninterrupted choices) (s, ths) in
  Forall idle st'.2 ∧ st'.1 k + pending k st'.2 = s k + pending k ths.
Proof.
  revert s ths. induction choices as [|i choices IH]; intros s ths Hidle; [done|].
  cbv zeta. unfold uninterrupted. cbn [mbind list_bind].
  change (([i; i] ++ (choices ≫= λ i0, [i0; i0])))
    with ([i; i] ++ uninterrupted choices).
  unfold run. rewrite foldl_app. fold (run [i; i] (s, ths)).
  fold (run (uninterrupted choices) (run [i; i] (s, ths))).
  destruct (uninterrupted_step s ths i k Hidle) as [Hidle' Heq].
  destruct (run [i; i] (s, ths)) as [s1 ths1]. cbn [fst snd] in *.
  destruct (IH s1 ths1 Hidle') as [Hidle'' Heq'].
  split; [done|]. lia.
Qed.

(** *** Any interleaving: nothing is invented *)

Lemma bounded_step k B st i : bounded k B st -> bounded k B (step st i).
Proof.
  destruct st as [s ths]. intros [Hs Hths]. cbn [fst snd] in Hs, Hths.
  destruct (ths !! i) as [th|] eqn:Hi; [|by rewrite step_missing].
  pose proof (Forall_lookup_1 _ _ _ _ Hths Hi) as Hth. cbn beta in Hth.
  destruct (loaded th) as [[[k' v] n]|] eqn:Hload.
  - rewrite (step_store s ths i th k' v n) by done.
    pose proof (pending_insert k ths i th {| loaded := None; todo := todo th |} Hi)
      as Hp.
    unfold pending_thread at 1 2 in Hp. rewrite Hload in Hp.
    simpl in Hp. unfold amount_of in Hp. simpl in Hp.
    split; cbn [fst snd].
    + destruct (decide (k' = k)) as [->|Hne].
      * rewrite fn_lookup_insert.
        rewrite bool_decide_eq_true_2 in Hp by done.
        specialize (Hth eq_refl). lia.
      * rewrite fn_lookup_insert_ne by done.
        rewrite bool_decide_eq_false_2 in Hp by (by intros ->). lia.
    + apply Forall_insert; [|done].
      eapply Forall_impl; [exact Hths|]. intros th2 H2. cbn beta in H2 |- *.
      destruct (loaded th2) as [[[k2 v2] n2]|]; [|done].
      intros ->. specialize (H2 eq_refl). case_bool_decide; lia.
  - destruct (todo th) as [|[k' n] rest] eqn:Htodo;
      [by rewrite (step_done s ths i th)|].
    rewrite (step_load s ths i th k' n rest) by done.
    pose proof (pending_insert k ths i th
                  {| loaded := Some (k', s k', n); todo := rest |} Hi) as Hp.
    unfold pending_thread at 1 2 in Hp. rewrite Hload, Htodo in Hp.
    simpl in Hp.
    split; cbn [fst snd]; [lia|].
    apply Forall_insert.
    + eapply Forall_impl; [exact Hths|]. intros th2 H2. cbn beta in H2 |- *.
      destruct (loaded th2) as [[[k2 v2] n2]|]; [|done].
      intros ->. specialize (H2 eq_refl). lia.
    + cbn [loaded]. intros ->. lia.
Qed.

Lemma bounded_run k B schedule st :
  bounded k B st -> bounded k B (run schedule st).
Proof.
  revert st. induction schedule as [|i schedule IH]; intros st H; [done|].
  cbn. apply IH. by apply bounded_step.
Qed.

Lemma pending_finished k ths : finished ths -> pending k ths = 0.
Proof.
  unfold pending. induction 1 as [|th ths [Hl Ht] _ IH]; [done|].
  simpl. unfold pending_thread at 1. by rewrite Hl, Ht, IH.
Qed.

(** C4, as stated: two workers that each make one citation-graph call, each
    call adding 1 to [ss_requests_made].  When the second worker reads the
    counter before the first has written it, both run to their end and the
    counter is 1: one update is lost. *)
Lemma concurrent_increment_lost :
  let call id :=
    _ss_get_cached None [Response 404 false None] id
      (py "venue,publicationVenue") in
  let workers :=
    [start (trace (call (py "2504.13946")));
     start (trace (call (py "2504.13947")))] in
  let final := run [0; 1; 0; 1] (init_stats, workers) in
  pending ss_requests_made workers = 2 ∧
  finished final.2 ∧
  final.1 ss_requests_made = 1 ∧
  final.1 ss_requests_made ≠ init_stats ss_requests_made
                             + pending ss_requests_made workers.
Proof.
  cbv zeta. split; [reflexivity|]. split; [by repeat constructor|].
  split; [reflexivity|]. vm_compute. discriminate.
Qed.

(** C4, amended.  An increment is a read and a later write with nothing to
    hold other threads off in between.  Under every schedule the counter
    ends at most at its initial value plus the increments of the workers:
    updates can be lost, never invented.  Under a schedule in which no other
    thread moves between the read and the write of an increment, the counter
    moves by exactly the increments carried out, so that it ends at the
    initial value plus all increments once the workers are done. *)
Theorem counter_updates_unsynchronized
    (k : counter) (s : stats) (workers : list thread) :
  Forall idle workers ->
  (∀ schedule,
     (run schedule (s, workers)).1 k ≤ s k + pending k workers) ∧
  (∀ choices,
     let final := run (uninterrupted choices) (s, workers) in
     final.1 k + pending k final.2 = s k + pending k workers ∧
     (finished final.2 -> final.1 k = s k + pending k workers)).
Proof.
  intros Hidle. split.
  - intros schedule.
    assert (Hinit : bounded k (s k + pending k workers) (s, workers)).
    { split; [done|]. cbn [snd]. eapply Forall_impl; [exact Hidle|].
      intros th Hth. unfold idle in Hth. by rewrite Hth. }
    destruct (bounded_run k _ schedule _ Hinit) as [H _]. lia.
  - intros choices. cbv zeta.
    destruct (uninterrupted_run choices s workers k Hidle) as [_ Heq].
    split; [exact Heq|].
    intros Hfin. rewrite <- Heq.
    pose proof (pending_finished k _ Hfin). lia.
Qed.

Lemma counter_updates_unsynchronized_witness :
  let call id :=
    _ss_get_cached None [Response 404 false None] id
      (py "venue,publicationVenue") in
  let workers :=
    [start (trace (call (py "2504.13946")));
     start (trace (call (py "2504.13947")))] in
  let final := run (uninterrupted [0; 1]) (init_stats, workers) in
  Forall idle workers ∧
  finished final.2 ∧
  final.1 ss_requests_made = 2 ∧
  (run [0; 1; 0; 1] (init_stats, workers)).1 ss_requests_made ≤ 2.
Proof.
  cbv zeta.
  set (workers := [start _; start _]).
  assert (Hidle : Forall idle workers) by (by repeat constructor).
  destruct (counter_updates_unsynchronized ss_requests_made init_stats workers
              Hidle) as [Hle Hexact].
  destruct (Hexact [0; 1]) as [_ Hfin].
  assert (Hdone : finished (run (uninterrupted [0; 1]) (init_stats, workers)).2)
    by (by repeat constructor).
  split; [exact Hidle|]. split; [exact Hdone|].
  split; [exact (Hfin Hdone)|]. exact (Hle [0; 1; 0; 1]).
Defined.

End CountersFacts.

(* ===================================================================== *)
(** ** Spellings of an identifier *)
(* ===================================================================== *)

Module SpellingFacts.
Import PyStr Ids Data Eff EffFacts IdsFacts Refs Paper Shapes.

Lemma app_first_sep (c : ascii) (a b a' b' : pystr) :
  c ∉ a -> c ∉ a' -> a ++ c :: b = a' ++ c :: b' -> a = a' ∧ b = b'.
Proof.
  revert a'. induction a as [|x a IH]; intros [|x' a'] Ha Ha' H; simpl in H.
  - by injection H as ->.
  - injection H as <- _. exfalso. apply Ha'. by left.
  - injection H as -> _. exfalso. apply Ha. by left.
  - injection H as <- H.
    destruct (IH a') as [-> ->]; [set_solver|set_solver|done|done].
Qed.

Lemma digits_no (c : ascii) (d : pystr) :
  is_digit c = false -> digits d -> c ∉ d.
Proof.
  intros Hc Hd Hin. unfold digits in Hd. rewrite Forall_forall in Hd.
  apply Hd in Hin. congruence.
Qed.

Lemma format_yymm_id_dotted d1 d2 k :
  digits d1 -> digits d2 -> digits k ->
  format_yymm_id (dotted d1 d2 k) = dashed d1 d2.
Proof.
  intros H1 H2 Hk. unfold dotted, dashed. destruct k as [|c k].
  - by apply format_yymm_id_base.
  - by apply format_yymm_id_revision.
Qed.

(** Two dotted identifiers have the same normal form exactly when they are
    revisions of the same paper. *)
Theorem format_yymm_id_separates_papers (d1 d2 k d1' d2' k' : pystr) :
  digits d1 -> digits d2 -> digits k ->
  digits d1' -> digits d2' -> digits k' ->
  format_yymm_id (dotted d1 d2 k) = format_yymm_id (dotted d1' d2' k')
  ↔ d1 = d1' ∧ d2 = d2'.
Proof.
  intros H1 H2 Hk H1' H2' Hk'.
  rewrite !format_yymm_id_dotted by done. unfold dashed. split.
  - apply app_first_sep; by apply digits_no.
  - by intros [-> ->].
Qed.

Lemma format_yymm_id_separates_papers_witness :
  format_yymm_id (py "2504.13946v2") = format_yymm_id (py "2504.13946")
  ∧ format_yymm_id (py "2504.13946v2") ≠ format_yymm_id (py "2504.13947v2").
Proof.
  assert (D : ∀ s, forallb is_digit s = true -> digits s).
  { intros s Hs. apply Forall_forall. intros c Hc.
    rewrite forallb_forall in Hs. apply Hs. by apply list_elem_of_In. }
  split.
  - apply (format_yymm_id_separates_papers
             (py "2504") (py "13946") (py "2") (py "2504") (py "13946") []);
      by (done || apply D).
  - intros H.
    apply (format_yymm_id_separates_papers
             (py "2504") (py "13946") (py "2") (py "2504") (py "13947") (py "2"))
      in H as [_ H]; by (done || apply D || discriminate).
Defined.

Lemma replace_skip c old new ws s :
  Forall (fun x => ascii_eqb c x = false) ws ->
  replace (c :: old) new (ws ++ s) = ws ++ replace (c :: old) new s.
Proof.
  unfold replace. induction 1 as [|x ws Hx _ IH]; [done|].
  simpl. rewrite Hx. simpl. by rewrite IH.
Qed.

Lemma replace_arxiv_prefix s :
  replace (py "arXiv:") [] (py "arXiv:" ++ s) = replace (py "arXiv:") [] s.
Proof. reflexivity. Qed.

Lemma lstrip_spaces ws c s :
  spaces ws -> is_space c = false -> lstrip (ws ++ c :: s) = c :: s.
Proof.
  induction 1 as [|x ws Hx _ IH]; intros Hc; simpl.
  - by rewrite Hc.
  - rewrite Hx. by apply IH.
Qed.

Lemma strip_spaces a core b :
  spaces a -> spaces b -> core ≠ [] ->
  Forall (fun x => is_space x = false) core ->
  strip (a ++ core ++ b) = core.
Proof.
  intros Ha Hb Hne Hcore. unfold strip, rstrip.
  destruct core as [|c core]; [done|].
  inversion Hcore as [|? ? Hc Hcore']; subst.
  rewrite <- app_comm_cons, lstrip_spaces by done.
  rewrite app_comm_cons, rev_app_distr.
  destruct (rev (c :: core)) as [|z zs] eqn:Hrev.
  { apply (f_equal (@length _)) in Hrev. rewrite length_rev in Hrev. done. }
  assert (Hz : is_space z = false).
  { assert (Hin : z ∈ rev (c :: core)) by (rewrite Hrev; by left).
    rewrite list_elem_of_In, <- in_rev, <- list_elem_of_In in Hin.
    rewrite Forall_forall in Hcore. by apply Hcore. }
  rewrite lstrip_spaces; [|by apply Forall_rev|done].
  by rewrite <- Hrev, rev_involutive.
Qed.

Lemma base_chars (P : ascii -> bool) d1 d2 :
  digits d1 -> digits d2 ->
  (∀ x, id_char x = true -> P x = false) ->
  Forall (fun x => P x = false) (d1 ++ "."%char :: d2).
Proof.
  intros H1 H2 HP.
  assert (Hd : ∀ d, digits d -> Forall (fun x => P x = false) d).
  { intros d Hd. eapply Forall_weaken; [exact Hd|].
    intros x Hx. by apply HP, digit_id_char. }
  apply Forall_app. split; [by apply Hd|].
  constructor; [by apply HP|by apply Hd].
Qed.

Lemma dotted_chars (P : ascii -> bool) d1 d2 k :
  digits d1 -> digits d2 -> digits k ->
  (∀ x, id_char x = true -> P x = false) -> P "v"%char = false ->
  Forall (fun x => P x = false) (dotted d1 d2 k).
Proof.
  intros H1 H2 Hk HP Hv. unfold dotted.
  pose proof (base_chars P d1 d2 H1 H2 HP) as Hb.
  destruct k as [|c k]; [done|].
  apply Forall_app. split; [done|]. constructor; [done|].
  eapply Forall_weaken; [exact Hk|].
  intros x Hx. by apply HP, digit_id_char.
Qed.

Lemma dotted_nonempty d1 d2 k : dotted d1 d2 k ≠ [].
Proof. unfold dotted. destruct k, d1; done. Qed.

Lemma re_delete_dotted d1 d2 k :
  digits d1 -> digits d2 -> digits k ->
  re_delete re_version_suffix (dotted d1 d2 k) = dotted d1 d2 [].
Proof.
  intros H1 H2 Hk.
  assert (Hb : Forall (fun x => ascii_eqb "v" x = false) (d1 ++ "."%char :: d2)).
  { apply base_chars; try done. apply id_char_not_v. }
  unfold dotted. destruct k as [|c k].
  - by apply re_delete_no_v.
  - by apply re_delete_version_suffix.
Qed.

Lemma space_not_a c : is_space c = true -> ascii_eqb "a" c = false.
Proof. all_chars c. Qed.

(** [scrape_single_paper] finds the same paper, and the same directory,
    under every spelling of a dotted identifier: with or without the
    [arXiv:] prefix, a revision suffix, and white space around either. *)
Theorem paper_dir_ignores_spelling
    (output_dir : path) (d1 d2 k ws1 ws2 ws3 prefix : pystr) :
  digits d1 -> digits d2 -> digits k ->
  spaces ws1 -> spaces ws2 -> spaces ws3 ->
  prefix = [] ∨ prefix = py "arXiv:" ->
  let spelled := ws1 ++ prefix ++ ws2 ++ dotted d1 d2 k ++ ws3 in
  base_dot_id_of spelled = dotted d1 d2 [] ∧
  paper_dir_of output_dir spelled = path_join output_dir (dashed d1 d2).
Proof.
  intros H1 H2 Hk Hw1 Hw2 Hw3 Hprefix. cbv zeta.
  assert (Hbase : base_dot_id_of (ws1 ++ prefix ++ ws2 ++ dotted d1 d2 k ++ ws3)
                  = dotted d1 d2 []).
  { unfold base_dot_id_of.
    assert (Ha : ∀ ws, spaces ws -> Forall (fun x => ascii_eqb "a" x = false) ws).
    { intros ws Hws. eapply Forall_weaken; [exact Hws|]. apply space_not_a. }
    assert (Hrest : replace (py "arXiv:") [] (ws2 ++ dotted d1 d2 k ++ ws3)
                    = ws2 ++ dotted d1 d2 k ++ ws3).
    { change (py "arXiv:") with ("a"%char :: py "rXiv:").
      apply replace_absent. rewrite !Forall_app. split_and!; [by apply Ha| |by apply Ha].
      by apply dotted_chars; [..|apply id_char_not_a|]. }
    assert (Hrep : replace (py "arXiv:") []
                     (ws1 ++ prefix ++ ws2 ++ dotted d1 d2 k ++ ws3)
                   = (ws1 ++ ws2) ++ dotted d1 d2 k ++ ws3).
    { change (py "arXiv:") with ("a"%char :: py "rXiv:") at 1.
      rewrite replace_skip by (by apply Ha).
      change ("a"%char :: py "rXiv:") with (py "arXiv:").
      destruct Hprefix as [-> | ->].
      - simpl app at 2. by rewrite Hrest, app_assoc.
      - by rewrite replace_arxiv_prefix, Hrest, app_assoc. }
    rewrite Hrep, strip_spaces; [by apply re_delete_dotted| |done| |].
    - by apply Forall_app.
    - apply dotted_nonempty.
    - apply dotted_chars; try done. intros x Hx. by apply id_char_not_space. }
  split; [done|]. unfold paper_dir_of. rewrite Hbase.
  rewrite (format_yymm_id_dotted d1 d2 []); [done..|]. constructor.
Qed.

Lemma paper_dir_ignores_spelling_witness :
  base_dot_id_of (py " arXiv: 2504.13946v12 ") = py "2504.13946" ∧
  paper_dir_of [py "23120067"] (py " arXiv: 2504.13946v12 ")
  = [py "23120067"; py "2504-13946"].
Proof.
  assert (D : ∀ s, forallb is_digit s = true -> digits s).
  { intros s Hs. apply Forall_forall. intros c Hc.
    rewrite forallb_forall in Hs. apply Hs. by apply list_elem_of_In. }
  assert (W : spaces (py " ")) by (unfold spaces; cbn; by repeat constructor).
  exact (paper_dir_ignores_spelling [py "23120067"] (py "2504") (py "13946")
           (py "12") (py " ") (py " ") (py " ") (py "arXiv:")
           (D (py "2504") eq_refl) (D (py "13946") eq_refl)
           (D (py "12") eq_refl) W W W
           (or_intror eq_refl)).
Defined.

Lemma month_digits a b :
  is_month a b = true -> is_digit a = true ∧ is_digit b = true.
Proof.
  unfold is_month. intros H.
  apply orb_true_iff in H as [H|H]; apply andb_true_iff in H as [Ha Hb];
    apply ascii_eqb_eq in Ha as <-; (split; [done|]); revert Hb; all_chars b.
Qed.

Lemma word_not_dot c : is_word c = true -> c ≠ "."%char.
Proof. all_chars c. Qed.

Lemma at_eos_digits rest : at_eos rest = true -> digits rest -> rest = [].
Proof.
  destruct rest as [|c [|c' rest]]; [done| |done].
  intros Hc Hd. inversion Hd as [|? ? Hdc _]; subst. exfalso.
  revert Hc Hdc. simpl. all_chars c.
Qed.

(** Among the dotted identifiers [_is_valid_arxiv_id] accepts exactly those
    whose first part is a two-digit year and a month from 01 to 12 and whose
    second part has four or five digits, whatever the revision. *)
Theorem valid_dotted_iff (d1 d2 k : pystr) :
  digits d1 -> digits d2 -> digits k ->
  _is_valid_arxiv_id (dotted d1 d2 k) = true
  ↔ (∃ y1 y2 m1 m2, d1 = [y1; y2; m1; m2] ∧ is_month m1 m2 = true)
    ∧ 4 ≤ length d2 ≤ 5.
Proof.
  intros H1 H2 Hk.
  rewrite is_valid_arxiv_id_spec, re_delete_dotted by done.
  unfold dotted. split.
  - intros H. inversion H as [sub y1 y2 m1 m2 num rest Hsub Hy1 Hy2 Hm Hnum Hlen Heos Heq].
    destruct (month_digits m1 m2 Hm) as [Hm1 Hm2].
    destruct Hsub as [|w Hne Hw].
    + apply (app_first_sep "."%char [y1; y2; m1; m2] (num ++ rest) d1 d2)
        in Heq as [<- <-].
      * apply Forall_app in H2 as [_ Hrest].
        rewrite (at_eos_digits rest Heos Hrest), app_nil_r.
        split; [|done]. by exists y1, y2, m1, m2.
      * apply digits_no; [done|]. by repeat constructor.
      * by apply digits_no.
    + exfalso. rewrite <- !app_assoc in Heq.
      apply (app_first_sep "."%char w ([y1; y2; m1; m2; "."%char] ++ num ++ rest)
               d1 d2) in Heq as [<- <-].
      * inversion H2 as [|? ? _ H2']; subst. inversion H2' as [|? ? _ H3]; subst.
        inversion H3 as [|? ? _ H4]; subst. inversion H4 as [|? ? _ H5]; subst.
        by inversion H5.
      * intros Hin. rewrite Forall_forall in Hw. by apply Hw, word_not_dot in Hin.
      * by apply digits_no.
  - intros [(y1 & y2 & m1 & m2 & -> & Hm) Hlen].
    inversion H1 as [|? ? Hy1 H1']; subst. inversion H1' as [|? ? Hy2 _]; subst.
    replace ([y1; y2; m1; m2] ++ "."%char :: d2)
      with ([] ++ [y1; y2; m1; m2; "."%char] ++ d2 ++ [])
      by (by rewrite app_nil_r).
    constructor; try done. constructor.
Qed.

Lemma valid_dotted_iff_witness :
  _is_valid_arxiv_id (py "2504.13946v2") = true ∧
  _is_valid_arxiv_id (py "2513.13946") = false.
Proof.
  assert (D : ∀ s, forallb is_digit s = true -> digits s).
  { intros s Hs. apply Forall_forall. intros c Hc.
    rewrite forallb_forall in Hs. apply Hs. by apply list_elem_of_In. }
  split.
  - apply (valid_dotted_iff (py "2504") (py "13946") (py "2")
             (D (py "2504") eq_refl) (D (py "13946") eq_refl)
             (D (py "2") eq_refl)).
    split; [|simpl; lia]. by exists "2"%char, "5"%char, "0"%char, "4"%char.
  - apply not_true_is_false. intros H.
    apply (valid_dotted_iff (py "2513") (py "13946") []
             (D (py "2513") eq_refl) (D (py "13946") eq_refl)
             (D [] eq_refl)) in H as [(y1 & y2 & m1 & m2 & Heq & Hm) _].
    injection Heq as <- <- <- <-. done.
Defined.

End SpellingFacts.

(* ===================================================================== *)
(** ** Identifiers in URLs *)
(* ===================================================================== *)

Module UrlFacts.
Import PyStr Ids Data Eff EffFacts IdsFacts Refs Paper Shapes SpellingFacts.

Lemma rep_match_greedy {A} p lo ds s (k : pystr -> option A) :
  Forall (fun c => p c = true) ds ->
  (∀ c s', s = c :: s' -> p c = false) ->
  lo ≤ length ds -> is_Some (k s) ->
  rep_match p lo None (ds ++ s) k = k s.
Proof.
  intros Hds Hs. revert lo. induction Hds as [|d ds Hd _ IH]; intros lo Hlo Hk.
  - simpl in Hlo. assert (lo = 0) as -> by lia. simpl.
    destruct s as [|c s']; [done|]. simpl. by rewrite (Hs c s').
  - simpl. rewrite Hd. simpl. rewrite IH by (simpl in Hlo; lia || done).
    by destruct Hk as [x ->].
Qed.

Lemma take_matched (g tail : pystr) :
  take (length (g ++ tail) - length tail) (g ++ tail) = g.
Proof.
  rewrite length_app, Nat.add_sub. by rewrite take_app_length.
Qed.

Lemma re_match_rest r g tail :
  rmatch r (g ++ tail) Some = Some tail -> re_match r (g ++ tail) = Some (g, tail).
Proof. intros H. unfold re_match. by rewrite H, take_matched. Qed.

Lemma star_digits k tail :
  digits k -> starts_without is_digit tail ->
  rep_match is_digit 0 None (k ++ tail) Some = Some tail.
Proof.
  intros Hk Ht. rewrite rep_match_greedy; [done..|lia|by eexists].
Qed.

Lemma url_id_plain run tail :
  Forall (fun c => digit_or_dot c = true) run -> run ≠ [] ->
  starts_without digit_or_dot tail ->
  starts_without (ascii_eqb_ci "v") tail ->
  re_match re_url_id (run ++ tail) = Some (run, tail).
Proof.
  intros Hrun Hne Hdd Hv. apply re_match_rest.
  assert (Hd : starts_without is_digit tail).
  { intros c s' ->. specialize (Hdd c s' eq_refl).
    unfold digit_or_dot in Hdd. by apply orb_false_iff in Hdd as [? _]. }
  assert (HK : rmatch (Seq (Opt (Chr (ascii_eqb_ci "v"))) (Star is_digit)) tail Some
               = Some tail).
  { cbn [rmatch Opt Star]. destruct tail as [|c t].
    - reflexivity.
    - rewrite (Hv c t eq_refl). simpl. by rewrite (Hd c t eq_refl). }
  unfold re_url_id, Plus. cbn [rmatch].
  rewrite (rep_match_greedy _ 1 run tail); [exact HK|exact Hrun|exact Hdd| |by eexists].
  destruct run; [done|simpl; lia].
Qed.

Lemma url_id_revision run k tail :
  Forall (fun c => digit_or_dot c = true) run -> run ≠ [] ->
  digits k -> starts_without is_digit tail ->
  re_match re_url_id (run ++ "v"%char :: k ++ tail)
  = Some (run ++ "v"%char :: k, tail).
Proof.
  intros Hrun Hne Hk Ht.
  replace (run ++ "v"%char :: k ++ tail) with ((run ++ "v"%char :: k) ++ tail)
    by (by rewrite <- app_assoc).
  apply re_match_rest. rewrite <- app_assoc. simpl app.
  assert (HK : rmatch (Seq (Opt (Chr (ascii_eqb_ci "v"))) (Star is_digit))
                 ("v"%char :: k ++ tail) Some = Some tail).
  { cbn [rmatch Opt Star]. 
    change (ascii_eqb_ci "v" "v") with true. cbn iota.
    by rewrite star_digits. }
  unfold re_url_id, Plus. cbn [rmatch].
  rewrite (rep_match_greedy _ 1 run ("v"%char :: k ++ tail));
    [exact HK|exact Hrun| | |by eexists].
  - by intros c s' [= <- _].
  - destruct run; [done|simpl; lia].
Qed.

Lemma search_group_skip prefix group c s :
  re_match prefix (c :: s) = None ->
  search_group prefix group (c :: s) = search_group prefix group s.
Proof. intros H. cbn [search_group]. by rewrite H. Qed.

Lemma search_group_here prefix group s m rest g r :
  re_match prefix s = Some (m, rest) -> re_match group rest = Some (g, r) ->
  search_group prefix group s = Some g.
Proof. intros H1 H2. destruct s; cbn [search_group]; by rewrite H1, H2. Qed.

Lemma abs_prefix_no_a c s :
  ascii_eqb_ci "a" c = false -> re_match re_abs_prefix (c :: s) = None.
Proof. intros H. unfold re_match, re_abs_prefix. cbn. by rewrite H. Qed.

Lemma pdf_prefix_no_a c s :
  ascii_eqb_ci "a" c = false -> re_match re_pdf_prefix (c :: s) = None.
Proof. intros H. unfold re_match, re_pdf_prefix. cbn. by rewrite H. Qed.

Lemma search_abs_skip group pre s :
  no_a pre ->
  search_group re_abs_prefix group (pre ++ s) = search_group re_abs_prefix group s.
Proof.
  induction 1 as [|c pre Hc _ IH]; [done|].
  simpl app. rewrite search_group_skip; [done|]. by apply abs_prefix_no_a.
Qed.

Lemma search_pdf_skip group pre s :
  no_a pre ->
  search_group re_pdf_prefix group (pre ++ s) = search_group re_pdf_prefix group s.
Proof.
  induction 1 as [|c pre Hc _ IH]; [done|].
  simpl app. rewrite search_group_skip; [done|]. by apply pdf_prefix_no_a.
Qed.

Lemma search_abs_none group s :
  no_a s -> search_group re_abs_prefix group s = None.
Proof.
  intros H. rewrite <- (app_nil_r s), search_abs_skip by done. reflexivity.
Qed.

Lemma abs_prefix_match rest :
  rmatch re_abs_prefix (py "arxiv.org/abs/" ++ rest) Some = Some rest.
Proof. reflexivity. Qed.

Lemma pdf_prefix_match rest :
  rmatch re_pdf_prefix (py "arxiv.org/pdf/" ++ rest) Some = Some rest.
Proof. reflexivity. Qed.

Lemma search_abs_over_pdf group rest :
  search_group re_abs_prefix group (py "arxiv.org/pdf/" ++ rest)
  = search_group re_abs_prefix group rest.
Proof. reflexivity. Qed.

Lemma contains_skip p c s :
  starts_with p (c :: s) = false -> contains p (c :: s) = contains p s.
Proof. intros H. cbn [contains]. by rewrite H. Qed.

Lemma contains_arxiv pre rest :
  no_a pre -> contains (py "arxiv.org") (pre ++ py "arxiv.org" ++ rest) = true.
Proof.
  induction 1 as [|c pre Hc _ IH]; [reflexivity|].
  simpl app. rewrite contains_skip; [done|].
  change (py "arxiv.org") with ("a"%char :: py "rxiv.org"). cbn [starts_with].
  destruct (ascii_eqb "a" c) eqn:Ha; [|done].
  apply ascii_eqb_eq in Ha as <-. done.
Qed.

Lemma first_truthy_none (ext_ids : gmap pystr pystr) keys :
  (∀ key v, key ∈ keys -> ext_ids !! key = Some v -> v = []) ->
  first_truthy ext_ids keys = None.
Proof.
  induction keys as [|key keys IH]; intros H; [done|].
  cbn [first_truthy]. destruct (ext_ids !! key) as [[|c v]|] eqn:Hkey.
  - apply IH. intros k' v' Hin. apply H. by right.
  - by specialize (H key (c :: v) ltac:(by left) Hkey).
  - apply IH. intros k' v' Hin. apply H. by right.
Qed.

Lemma digit_or_dot_id c : is_digit c = true -> digit_or_dot c = true.
Proof. unfold digit_or_dot. by intros ->. Qed.

Lemma base_run d1 d2 :
  digits d1 -> digits d2 ->
  Forall (fun c => digit_or_dot c = true) (d1 ++ "."%char :: d2).
Proof.
  intros H1 H2. apply Forall_app. split; [|constructor; [done|]];
    (eapply Forall_weaken; [eassumption|apply digit_or_dot_id]).
Qed.

Lemma id_char_no_a c : id_char c = true -> ascii_eqb_ci "a" c = false.
Proof. all_chars c. Qed.

Lemma url_id_dotted d1 d2 k :
  digits d1 -> digits d2 -> digits k ->
  re_match re_url_id (dotted d1 d2 k) = Some (dotted d1 d2 k, []).
Proof.
  intros H1 H2 Hk. unfold dotted. destruct k as [|c k].
  - rewrite <- (app_nil_r (d1 ++ _ :: d2)) at 1.
    apply url_id_plain; [by apply base_run|by destruct d1|done..].
  - pose proof (url_id_revision (d1 ++ "."%char :: d2) (c :: k) []) as H.
    rewrite app_nil_r in H. apply H; [by apply base_run|by destruct d1|done..].
Qed.

Lemma url_id_dotted_pdf d1 d2 k :
  digits d1 -> digits d2 -> digits k ->
  re_match re_url_id (dotted d1 d2 k ++ py ".pdf")
  = match k with
    | [] => Some (dotted d1 d2 [] ++ py ".", py "pdf")
    | _ :: _ => Some (dotted d1 d2 k, py ".pdf")
    end.
Proof.
  intros H1 H2 Hk. unfold dotted. destruct k as [|c k].
  - replace ((d1 ++ "."%char :: d2) ++ py ".pdf")
      with (((d1 ++ "."%char :: d2) ++ py ".") ++ py "pdf")
      by (by rewrite <- !app_assoc).
    apply url_id_plain.
    + apply Forall_app. split; [by apply base_run|by repeat constructor].
    + by destruct d1.
    + by intros ? ? [= <- _].
    + by intros ? ? [= <- _].
  - rewrite <- app_assoc.
    apply (url_id_revision (d1 ++ "."%char :: d2) (c :: k) (py ".pdf"));
      [by apply base_run|by destruct d1|done|].
    by intros ? ? [= <- _].
Qed.

Lemma trailing_dot_invalid d1 d2 :
  digits d1 -> digits d2 ->
  _is_valid_arxiv_id (dotted d1 d2 [] ++ py ".") = false.
Proof.
  intros H1 H2. apply not_true_is_false. rewrite is_valid_arxiv_id_spec.
  unfold dotted. rewrite re_delete_no_v.
  2: { apply Forall_app. split; [|by repeat constructor].
       apply base_chars; try done. apply id_char_not_v. }
  rewrite <- app_assoc. simpl app.
  intros H. inversion H as [sub y1 y2 m1 m2 num rest Hsub Hy1 Hy2 Hm Hnum Hlen Heos Heq].
  destruct (month_digits m1 m2 Hm) as [Hm1 Hm2].
  destruct Hsub as [|w Hne Hw].
  - apply (app_first_sep "."%char [y1; y2; m1; m2] (num ++ rest) d1
             (d2 ++ py ".")) in Heq as [_ Heq].
    + destruct rest as [|c [|c' rest]]; [|exfalso|done].
      * rewrite app_nil_r in Heq. subst num.
        apply Forall_app in Hnum as [_ Hdot]. by inversion Hdot.
      * apply (app_inj_tail num d2 c "."%char) in Heq as [_ ->]. done.
    + apply digits_no; [done|]. by repeat constructor.
    + by apply digits_no.
  - rewrite <- !app_assoc in Heq.
    apply (app_first_sep "."%char w ([y1; y2; m1; m2; "."%char] ++ num ++ rest)
             d1 (d2 ++ py ".")) in Heq as [_ Heq].
    + apply (app_first_sep "."%char [y1; y2; m1; m2] (num ++ rest) d2 [])
        in Heq as [_ Heq].
      * apply app_eq_nil in Heq as [-> _]. simpl in Hlen. lia.
      * apply digits_no; [done|]. by repeat constructor.
      * by apply digits_no.
    + intros Hin. rewrite Forall_forall in Hw. by apply Hw, word_not_dot in Hin.
    + by apply digits_no.
Qed.

Lemma no_a_dotted d1 d2 k :
  digits d1 -> digits d2 -> digits k -> no_a (dotted d1 d2 k).
Proof.
  intros H1 H2 Hk. by apply dotted_chars; [..|apply id_char_no_a|].
Qed.

(** Without an identifier among the external ids, the identifier of a
    reference is read off its URL.  An abstract link gives the dotted
    identifier with its revision.  A PDF link gives it too when it names a
    revision; without a revision the group also takes the dot of [.pdf], and
    what it captures is never a valid identifier. *)
Theorem url_extraction_forms (ref : raw_ref) (pre d1 d2 k : pystr) :
  digits d1 -> digits d2 -> digits k -> no_a pre ->
  (∀ ext_ids key v,
     ref_externalIds ref = Some ext_ids -> key ∈ ARXIV_KEYS ->
     ext_ids !! key = Some v -> v = []) ->
  (ref_url ref = Some (pre ++ py "arxiv.org/abs/" ++ dotted d1 d2 k) ->
   _extract_arxiv_id_comprehensive ref = Some (dotted d1 d2 k)) ∧
  (ref_url ref = Some (pre ++ py "arxiv.org/pdf/" ++ dotted d1 d2 k ++ py ".pdf") ->
   _extract_arxiv_id_comprehensive ref
   = Some (match k with
           | [] => dotted d1 d2 [] ++ py "."
           | _ :: _ => dotted d1 d2 k
           end)) ∧
  _is_valid_arxiv_id (dotted d1 d2 [] ++ py ".") = false.
Proof.
  intros H1 H2 Hk Hpre Hext.
  assert (Hids : match ref_externalIds ref with
                 | Some ext_ids => first_truthy ext_ids ARXIV_KEYS
                 | None => None
                 end = None).
  { destruct (ref_externalIds ref) as [ext_ids|] eqn:He; [|done].
    apply first_truthy_none. intros key v. by apply Hext. }
  assert (Htruthy : ∀ rest, truthy (pre ++ py "arxiv.org" ++ rest) = true).
  { intros rest. by destruct pre. }
  split_and!.
  - intros Hurl. unfold _extract_arxiv_id_comprehensive.
    fold ARXIV_KEYS. rewrite Hids, Hurl. cbn [from_option id].
    change (py "arxiv.org/abs/" ++ dotted d1 d2 k)
      with (py "arxiv.org" ++ py "/abs/" ++ dotted d1 d2 k) at 1 2.
    rewrite Htruthy, contains_arxiv by done. cbn [andb].
    change (py "arxiv.org" ++ py "/abs/" ++ dotted d1 d2 k)
      with (py "arxiv.org/abs/" ++ dotted d1 d2 k).
    rewrite search_abs_skip by done.
    erewrite search_group_here; [done| |by apply url_id_dotted].
    apply (re_match_rest re_abs_prefix (py "arxiv.org/abs/")), abs_prefix_match.
  - intros Hurl. unfold _extract_arxiv_id_comprehensive.
    fold ARXIV_KEYS. rewrite Hids, Hurl. cbn [from_option id].
    change (py "arxiv.org/pdf/" ++ dotted d1 d2 k ++ py ".pdf")
      with (py "arxiv.org" ++ py "/pdf/" ++ dotted d1 d2 k ++ py ".pdf") at 1 2.
    rewrite Htruthy, contains_arxiv by done. cbn [andb].
    change (py "arxiv.org" ++ py "/pdf/" ++ dotted d1 d2 k ++ py ".pdf")
      with (py "arxiv.org/pdf/" ++ dotted d1 d2 k ++ py ".pdf").
    rewrite search_abs_skip, search_abs_over_pdf, search_abs_none; try done.
    2: { apply Forall_app. split; [by apply no_a_dotted|by repeat constructor]. }
    rewrite search_pdf_skip by done.
    pose proof (url_id_dotted_pdf d1 d2 k H1 H2 Hk) as Hgroup.
    pose proof (re_match_rest re_pdf_prefix (py "arxiv.org/pdf/")
                  (dotted d1 d2 k ++ py ".pdf") (pdf_prefix_match _)) as Hlit.
    destruct k; by erewrite search_group_here.
  - by apply trailing_dot_invalid.
Qed.

Lemma url_extraction_forms_witness :
  let ref url :=
    {| ref_externalIds := Some {[ py "DOI" := py "10.1000/182" ]};
       ref_url := Some url; ref_title := Some (py "A cited paper");
       ref_authors := []; ref_publicationDate := None; ref_year := None;
       ref_paperId := None |} in
  _extract_arxiv_id_comprehensive (ref (py "https://arxiv.org/abs/2401.00002v3"))
  = Some (py "2401.00002v3") ∧
  _extract_arxiv_id_comprehensive (ref (py "https://arxiv.org/pdf/2401.00002.pdf"))
  = Some (py "2401.00002.") ∧
  _is_valid_arxiv_id (py "2401.00002.") = false.
Proof.
  intros ref.
  assert (D : ∀ s, forallb is_digit s = true -> digits s).
  { intros s Hs. apply Forall_forall. intros c Hc.
    rewrite forallb_forall in Hs. apply Hs. by apply list_elem_of_In. }
  assert (P : no_a (py "https://")) by (unfold no_a; cbn; by repeat constructor).
  assert (E : ∀ url (ext_ids : gmap pystr pystr) (key v : pystr),
             ref_externalIds (ref url) = Some ext_ids ->
             key ∈ ARXIV_KEYS -> ext_ids !! key = Some v -> v = []).
  { intros url ext_ids key v Heq Hkey Hv. exfalso.
    injection Heq as <-. apply lookup_singleton_Some in Hv as [Hdoi _].
    subst key. apply list_elem_of_In in Hkey. simpl in Hkey.
    intuition discriminate. }
  pose proof (url_extraction_forms (ref (py "https://arxiv.org/abs/2401.00002v3"))
                (py "https://") (py "2401") (py "00002") (py "3")
                (D (py "2401") eq_refl) (D (py "00002") eq_refl)
                (D (py "3") eq_refl) P (E _)) as (Habs & _ & _).
  pose proof (url_extraction_forms (ref (py "https://arxiv.org/pdf/2401.00002.pdf"))
                (py "https://") (py "2401") (py "00002") []
                (D (py "2401") eq_refl) (D (py "00002") eq_refl)
                (D [] eq_refl) P (E _)) as (_ & Hpdf & Hbad).
  split; [exact (Habs eq_refl)|]. split; [exact (Hpdf eq_refl)|exact Hbad].
Defined.

End UrlFacts.

(* ===================================================================== *)
(** ** The range of identifiers of a run *)
(* ===================================================================== *)

Module CliFacts.
Import PyStr Ids IdsFacts Shapes SpellingFacts Cli.

Lemma uint_digits_digits d : digits (uint_digits d).
Proof.
  unfold uint_digits, digits.
  induction d; cbn; constructor; done.
Qed.

Lemma str_of_Z_digits (z : Z) :
  (0 ≤ z)%Z ->
  ∃ d, d ≠ Decimal.Nil ∧ str_of_Z z = uint_digits d ∧ Z.of_uint d = z.
Proof.
  intros Hz. destruct z as [|p|p]; [| |lia].
  - exists (Decimal.D0 Decimal.Nil). by split.
  - exists (Pos.to_uint p). split; [apply DecimalPos.Unsigned.to_uint_nonnil|].
    split.
    + unfold str_of_Z, uint_digits. cbn [Z.to_int NilZero.string_of_int].
      pose proof (DecimalPos.Unsigned.to_uint_nonnil p) as Hne.
      by destruct (Pos.to_uint p).
    + unfold Z.of_uint. by rewrite DecimalPos.Unsigned.of_to.
Qed.

Lemma zero_fill_digits width d :
  ∃ k, zero_fill width (uint_digits d) = uint_digits (Nat.iter k Decimal.D0 d).
Proof.
  unfold zero_fill. exists (width - length (uint_digits d)).
  induction (width - length (uint_digits d)) as [|k IH]; [done|].
  cbn [replicate app Nat.iter]. by rewrite IH.
Qed.

Lemma iter_D0_value k d : Z.of_uint (Nat.iter k Decimal.D0 d) = Z.of_uint d.
Proof. induction k as [|k IH]; [done|]. by cbn [Nat.iter]. Qed.

Lemma iter_D0_nonnil k d : d ≠ Decimal.Nil -> Nat.iter k Decimal.D0 d ≠ Decimal.Nil.
Proof. destruct k; [done|]. by cbn [Nat.iter]. Qed.

Lemma int_digits_uint d b :
  d ≠ Decimal.Nil ∨ b = true ->
  int_digits b (uint_digits d) = Some (uint_digits d).
Proof.
  revert b. unfold uint_digits.
  induction d as [|d IH|d IH|d IH|d IH|d IH|d IH|d IH|d IH|d IH|d IH];
    intros b Hb; cbn;
    [by destruct Hb as [?| ->]|by rewrite IH by (by right)..].
Qed.

Lemma decimal_value_uint d :
  d ≠ Decimal.Nil -> decimal_value (uint_digits d) = Some (Z.of_uint d).
Proof.
  intros Hd. unfold decimal_value, uint_digits, py.
  rewrite string_of_list_ascii_of_string.
  unfold NilZero.uint_of_string.
  pose proof (NilEmpty.usu d) as Husu.
  destruct (NilEmpty.string_of_uint d) eqn:Hs; [by destruct d|].
  by rewrite Husu.
Qed.

Lemma digit_not_int_space c : is_digit c = true -> is_int_space c = false.
Proof. all_chars c. Qed.

Lemma skip_int_space_none s :
  Forall (fun c => is_int_space c = false) s -> skip_int_space s = s.
Proof. destruct 1 as [|c s Hc _]; [done|]. simpl. by rewrite Hc. Qed.

Lemma trim_none s :
  Forall (fun c => is_int_space c = false) s ->
  rev (skip_int_space (rev (skip_int_space s))) = s.
Proof.
  intros H. rewrite (skip_int_space_none s H).
  rewrite skip_int_space_none by (by apply Forall_rev).
  apply rev_involutive.
Qed.

Lemma uint_digits_head d :
  d ≠ Decimal.Nil ->
  ∃ c s, uint_digits d = c :: s ∧ is_digit c = true.
Proof.
  intros Hd. pose proof (uint_digits_digits d) as H.
  destruct (uint_digits d) as [|c s] eqn:Hs.
  - by destruct d.
  - exists c, s. split; [done|]. by inversion H.
Qed.

Lemma digit_not_sign c :
  is_digit c = true -> ascii_eqb "-" c = false ∧ ascii_eqb "+" c = false.
Proof. all_chars c. Qed.

Lemma py_int_uint d :
  d ≠ Decimal.Nil -> length (uint_digits d) ≤ INT_MAX_STR_DIGITS ->
  py_int (uint_digits d) = Some (Z.of_uint d) ∧
  py_int ("-"%char :: uint_digits d) = Some (- Z.of_uint d)%Z.
Proof.
  intros Hd Hlen.
  assert (Hsp : Forall (fun c => is_int_space c = false) (uint_digits d)).
  { eapply Forall_weaken; [apply uint_digits_digits|]. apply digit_not_int_space. }
  destruct (uint_digits_head d Hd) as (c & s & Hcs & Hc).
  destruct (digit_not_sign c Hc) as [Hminus Hplus].
  apply Nat.leb_le in Hlen.
  split; unfold py_int.
  - rewrite trim_none by done. rewrite Hcs, Hminus, Hplus, <- Hcs.
    rewrite int_digits_uint by (by left). rewrite Hlen.
    by rewrite decimal_value_uint.
  - rewrite trim_none by (by constructor).
    change (ascii_eqb "-" "-") with true. cbn iota.
    rewrite int_digits_uint by (by left). rewrite Hlen.
    by rewrite decimal_value_uint.
Qed.

(** [int] reads back what [:05d] writes. *)
Lemma py_int_format_05d (z : Z) :
  length (format_05d z) ≤ INT_MAX_STR_DIGITS ->
  py_int (format_05d z) = Some z.
Proof.
  unfold format_05d. destruct (Z.ltb_spec z 0) as [Hneg|Hpos]; intros Hlen.
  - destruct (str_of_Z_digits (- z)) as (d & Hd & Hstr & Hval); [lia|].
    destruct (zero_fill_digits 4 d) as [k Hk]. rewrite Hstr, Hk in Hlen |- *.
    destruct (py_int_uint (Nat.iter k Decimal.D0 d)) as [_ ->].
    + by apply iter_D0_nonnil.
    + simpl in Hlen. lia.
    + rewrite iter_D0_value, Hval. f_equal. lia.
  - destruct (str_of_Z_digits z) as (d & Hd & Hstr & Hval); [lia|].
    destruct (zero_fill_digits 5 d) as [k Hk]. rewrite Hstr, Hk in Hlen |- *.
    destruct (py_int_uint (Nat.iter k Decimal.D0 d)) as [-> _].
    + by apply iter_D0_nonnil.
    + done.
    + by rewrite iter_D0_value, Hval.
Qed.


Lemma split_all_no_sep sep s : sep ∉ s -> split_all sep s = [s].
Proof.
  induction s as [|c s IH]; intros Hs; [done|]. cbn [split_all].
  destruct (ascii_eqb sep c) eqn:Hc.
  - apply ascii_eqb_eq in Hc as ->. exfalso. apply Hs. by left.
  - rewrite IH; [done|]. intros Hin. apply Hs. by right.
Qed.

Lemma split_all_first sep a b :
  sep ∉ a -> split_all sep (a ++ sep :: b) = a :: split_all sep b.
Proof.
  induction a as [|c a IH]; intros Ha; cbn [app split_all].
  - unfold ascii_eqb. by rewrite Ascii.eqb_refl.
  - destruct (ascii_eqb sep c) eqn:Hc.
    + apply ascii_eqb_eq in Hc as ->. exfalso. apply Ha. by left.
    + rewrite IH; [done|]. intros Hin. apply Ha. by right.
Qed.

Lemma format_05d_no_dot z : "."%char ∉ format_05d z.
Proof.
  unfold format_05d.
  assert (H : ∀ w y, (0 ≤ y)%Z -> "."%char ∉ zero_fill w (str_of_Z y)).
  { intros w y Hy. destruct (str_of_Z_digits y Hy) as (d & _ & -> & _).
    destruct (zero_fill_digits w d) as [k ->].
    apply digits_no; [done|apply uint_digits_digits]. }
  destruct (Z.ltb_spec z 0).
  - intros Hin. apply elem_of_cons in Hin as [?|Hin]; [done|].
    by apply (H 4%nat (- z)%Z); [lia|].
  - by apply H.
Qed.

Lemma length_count_from n a : length (count_from n a) = n.
Proof. revert a. induction n as [|n IH]; intros a; [done|]. cbn. by rewrite IH. Qed.

Lemma lookup_count_from n a i :
  i < n -> count_from n a !! i = Some (a + Z.of_nat i)%Z.
Proof.
  revert a i. induction n as [|n IH]; intros a [|i] Hi; try lia.
  - cbn. f_equal. lia.
  - cbn. rewrite IH by lia. f_equal. lia.
Qed.

Lemma not_elem_of_eqb (c : ascii) (s : pystr) :
  existsb (ascii_eqb c) s = false -> c ∉ s.
Proof.
  intros H Hin. apply list_elem_of_In in Hin.
  assert (existsb (ascii_eqb c) s = true); [|congruence].
  apply existsb_exists. exists c. split; [done|]. apply Ascii.eqb_refl.
Qed.

(** The shape of a call on well-formed identifiers. *)
Lemma generate_canonical prefix other s e :
  "."%char ∉ prefix -> "."%char ∉ other ->
  length (format_05d s) ≤ INT_MAX_STR_DIGITS ->
  length (format_05d e) ≤ INT_MAX_STR_DIGITS ->
  generate_arxiv_ids (prefix ++ py "." ++ format_05d s)
    (other ++ py "." ++ format_05d e)
  = (fun i => prefix ++ py "." ++ format_05d i) <$> range s (e + 1).
Proof.
  intros Hp Ho Hs He. unfold generate_arxiv_ids, generate_arxiv_ids_body.
  change (py ".") with ["."%char]. cbn [app].
  rewrite !split_all_first by done.
  rewrite !split_all_no_sep by apply format_05d_no_dot.
  unfold item, int_of. cbn [lookup list_lookup and_then].
  rewrite !py_int_format_05d by done. done.
Qed.

(** The identifiers run from the number of the first to the number of the
    last, both included, under the prefix of the first; the prefix of the
    last is not looked at, and a last number below the first gives the empty
    list. *)
Theorem generate_arxiv_ids_range (prefix other : pystr) (s e : Z) :
  "."%char ∉ prefix -> "."%char ∉ other ->
  length (format_05d s) ≤ INT_MAX_STR_DIGITS ->
  length (format_05d e) ≤ INT_MAX_STR_DIGITS ->
  let ids :=
    generate_arxiv_ids (prefix ++ py "." ++ format_05d s)
      (other ++ py "." ++ format_05d e) in
  ids = (fun i => prefix ++ py "." ++ format_05d i) <$> range s (e + 1) ∧
  length ids = Z.to_nat (e + 1 - s) ∧
  (∀ n : nat, n < length ids ->
     ids !! n = Some (prefix ++ py "." ++ format_05d (s + Z.of_nat n))) ∧
  ((e < s)%Z -> ids = []).
Proof.
  intros Hp Ho Hs He. cbv zeta. rewrite generate_canonical by done.
  unfold range. rewrite !length_fmap, length_count_from.
  split_and!; [done..| |].
  - intros n Hn. by rewrite list_lookup_fmap, lookup_count_from.
  - intros Hlt. by replace (Z.to_nat (e + 1 - s)) with 0 by lia.
Qed.

Lemma generate_arxiv_ids_range_witness :
  generate_arxiv_ids (py "2504.13946") (py "2505.13948")
  = [py "2504.13946"; py "2504.13947"; py "2504.13948"].
Proof.
  assert (H1 : "."%char ∉ py "2504") by (by apply not_elem_of_eqb).
  assert (H2 : "."%char ∉ py "2505") by (by apply not_elem_of_eqb).
  assert (L1 : length (format_05d 13946) ≤ INT_MAX_STR_DIGITS)
    by (vm_compute; lia).
  assert (L2 : length (format_05d 13948) ≤ INT_MAX_STR_DIGITS)
    by (vm_compute; lia).
  destruct (generate_arxiv_ids_range (py "2504") (py "2505") 13946 13948
              H1 H2 L1 L2) as [H _].
  exact H.
Defined.

(** An identifier without a dot, first or last, gives the empty list: the
    [IndexError] does not leave the function. *)
Theorem generate_arxiv_ids_without_dot (start_id end_id : pystr) :
  "."%char ∉ start_id ∨ "."%char ∉ end_id ->
  generate_arxiv_ids start_id end_id = [].
Proof.
  intros H. unfold generate_arxiv_ids, generate_arxiv_ids_body.
  destruct H as [H|H]; rewrite (split_all_no_sep _ _ H).
  - done.
  - unfold item. cbn [lookup list_lookup].
    destruct (split_all "." start_id !! 1) as [s_text|]; [|done].
    cbn [and_then]. by destruct (int_of s_text).
Qed.

Lemma generate_arxiv_ids_without_dot_witness :
  generate_arxiv_ids (py "2504.13946") (py "250413948") = [].
Proof.
  apply generate_arxiv_ids_without_dot. right. by apply not_elem_of_eqb.
Defined.


Lemma elem_of_count_from n a z :
  z ∈ count_from n a ↔ (a ≤ z < a + Z.of_nat n)%Z.
Proof.
  revert a. induction n as [|n IH]; intros a; cbn [count_from].
  - rewrite elem_of_nil. lia.
  - rewrite elem_of_cons, IH. lia.
Qed.

Lemma elem_of_range a b z : z ∈ range a b ↔ (a ≤ z < b)%Z.
Proof. unfold range. rewrite elem_of_count_from. lia. Qed.

Lemma NoDup_range a b : NoDup (range a b).
Proof.
  unfold range. generalize (Z.to_nat (b - a)). intros n. revert a.
  induction n as [|n IH]; intros a; cbn [count_from]; constructor; [|done].
  rewrite elem_of_count_from. lia.
Qed.

(** The numbers below 100000 are written with exactly five digits; checked
    on all of them. *)
Lemma format_05d_five_all :
  forallb (fun z => length (format_05d z) =? 5) (range 0 100000) = true.
Proof. vm_compute. reflexivity. Qed.

Lemma format_05d_five z :
  (0 ≤ z < 100000)%Z -> length (format_05d z) = 5 ∧ digits (format_05d z).
Proof.
  intros Hz. split.
  - pose proof format_05d_five_all as H. rewrite forallb_forall in H.
    apply Nat.eqb_eq, H, list_elem_of_In, elem_of_range. lia.
  - unfold format_05d. destruct (Z.ltb_spec z 0); [lia|].
    destruct (str_of_Z_digits z) as (d & _ & -> & _); [lia|].
    destruct (zero_fill_digits 5 d) as [k ->]. apply uint_digits_digits.
Qed.

Lemma format_05d_inj x y :
  length (format_05d x) ≤ INT_MAX_STR_DIGITS ->
  length (format_05d y) ≤ INT_MAX_STR_DIGITS ->
  format_05d x = format_05d y -> x = y.
Proof.
  intros Hx Hy H. apply py_int_format_05d in Hx, Hy.
  rewrite H in Hx. congruence.
Qed.

(** Under a prefix of year and month, and with numbers from 0 to 99999, every
    generated identifier is one [_is_valid_arxiv_id] accepts, and no two of
    them normalise to the same name. *)
Theorem generated_ids_valid (y1 y2 m1 m2 : ascii) (other : pystr) (s e : Z) :
  is_digit y1 = true -> is_digit y2 = true -> is_month m1 m2 = true ->
  "."%char ∉ other -> (0 ≤ s < 100000)%Z -> (0 ≤ e < 100000)%Z ->
  let ids :=
    generate_arxiv_ids ([y1; y2; m1; m2] ++ py "." ++ format_05d s)
      (other ++ py "." ++ format_05d e) in
  Forall (fun id => _is_valid_arxiv_id id = true) ids ∧
  NoDup (format_yymm_id <$> ids).
Proof.
  intros Hy1 Hy2 Hm Ho Hs He. cbv zeta.
  destruct (month_digits m1 m2 Hm) as [Hm1 Hm2].
  assert (Hp : digits [y1; y2; m1; m2]) by (by repeat constructor).
  assert (Hlen : ∀ z, (0 ≤ z < 100000)%Z ->
                      length (format_05d z) ≤ INT_MAX_STR_DIGITS).
  { intros z Hz. destruct (format_05d_five z Hz) as [-> _].
    unfold INT_MAX_STR_DIGITS. lia. }
  rewrite generate_canonical; [|by apply digits_no|done|apply Hlen; lia..].
  split.
  - apply Forall_fmap, Forall_forall. intros i Hi. apply elem_of_range in Hi.
    destruct (format_05d_five i) as [Hfive Hd]; [lia|]. cbn beta.
    apply is_valid_arxiv_id_spec.
    change ([y1; y2; m1; m2] ++ py "." ++ format_05d i)
      with ([y1; y2; m1; m2] ++ "."%char :: format_05d i).
    rewrite re_delete_no_v by (apply base_chars; try done; apply id_char_not_v).
    replace ([y1; y2; m1; m2] ++ "."%char :: format_05d i)
      with ([] ++ [y1; y2; m1; m2; "."%char] ++ format_05d i ++ [])
      by (by rewrite app_nil_r).
    constructor; try done; [constructor|lia].
  - rewrite <- list_fmap_compose.
    apply NoDup_fmap_2_strong; [|apply NoDup_range].
    intros x y Hx Hy. apply elem_of_range in Hx, Hy. cbn.
    destruct (format_05d_five x) as [_ Hdx]; [lia|].
    destruct (format_05d_five y) as [_ Hdy]; [lia|].
    change (y1 :: y2 :: m1 :: m2 :: "."%char :: format_05d x)
      with ([y1; y2; m1; m2] ++ "."%char :: format_05d x).
    change (y1 :: y2 :: m1 :: m2 :: "."%char :: format_05d y)
      with ([y1; y2; m1; m2] ++ "."%char :: format_05d y).
    rewrite !format_yymm_id_base by done.
    intros H. apply app_inv_head in H. injection H as H.
    apply format_05d_inj in H; [done|apply Hlen; lia..].
Qed.

Lemma generated_ids_valid_witness :
  let ids := generate_arxiv_ids (py "2504.13946") (py "2504.13950") in
  length ids = 5 ∧
  Forall (fun id => _is_valid_arxiv_id id = true) ids ∧
  NoDup (format_yymm_id <$> ids).
Proof.
  cbv zeta. split; [vm_compute; reflexivity|].
  assert (Ho : "."%char ∉ py "2504") by (by apply not_elem_of_eqb).
  exact (generated_ids_valid "2" "5" "0" "4" (py "2504") 13946 13950
           eq_refl eq_refl eq_refl Ho ltac:(lia) ltac:(lia)).
Defined.

End CliFacts.

(* ===================================================================== *)
(** ** The cost of version discovery *)
(* ===================================================================== *)

Module DiscoveryFacts.
Import PyStr Ids Data Eff EffFacts Versions VersionsFacts Measures.

Lemma collect_loop_trace (l : list (nat * future bool)) (acc : list nat) :
  trace
    (for_each l acc (fun results '(v, fut) =>
       try_except
         (let* exists_ := future_result Completed fut in
          ret (if exists_ then results ++ [v] else results))
         (fun _ => ret results)))
  = [].
Proof.
  revert acc. induction l as [|[v fut] l IH]; intros acc; cbn [for_each]; [done|].
  destruct fut as [[]|e]; cbn; apply IH.
Qed.

Lemma max_list_bound (l : list nat) n :
  (∀ x, x ∈ l -> x ≤ n) -> max_list l ≤ n.
Proof.
  induction l as [|x l IH]; intros H; simpl; [lia|].
  apply Nat.max_lub; [apply H; by left|]. apply IH. intros y Hy. apply H. by right.
Qed.

Lemma elem_of_confirmed_set probe v :
  v ∈ confirmed_set probe ↔ confirmed (probe v) = true ∧ 1 ≤ v ≤ max_v.
Proof.
  unfold confirmed_set.
  rewrite elem_of_list_to_set, list_elem_of_filter, elem_of_seq.
  destruct (confirmed (probe v)); naive_solver lia.
Qed.

(** The revisions found, in terms of the sorted list of confirmed ones. *)
Lemma discover_prefix probe finish recheck arxiv_id :
  ∃ k, k ≤ max_v ∧
    (∀ v, 1 ≤ v ≤ k -> confirmed (probe v) = true) ∧
    (k = 0 ↔ confirmed (probe 1) = false) ∧
    outcome (_discover_all_versions probe finish recheck arxiv_id)
    = Ok (match k with
          | 0 => if confirmed recheck then [1] else []
          | S _ => seq 1 k
          end) ∧
    trace (_discover_all_versions probe finish recheck arxiv_id)
    = ((fun v => Spawn (trace (probe_task probe arxiv_id v))) <$> seq 1 max_v)
      ++ match k with
         | 0 => trace (_check_version_exists recheck (arxiv_id ++ py "v1"))
         | S _ => []
         end.
Proof.
  set (results := merge_sort Nat.le (collected probe finish arxiv_id)).
  assert (Hmem : ∀ v, v ∈ results ↔ confirmed (probe v) = true ∧ 1 ≤ v ≤ max_v).
  { intros v. unfold results.
    by rewrite merge_sort_Permutation, elem_of_collected, elem_of_confirmed_set. }
  destruct (take_contiguous_seq results 1 (max_list results))
    as (j & Hj & Heq & Hall & Hstop).
  assert (Hmax : max_list results ≤ max_v).
  { apply max_list_bound. intros x Hx. apply Hmem in Hx. lia. }
  exists j. split; [lia|]. split; [|split; [|split]].
  - intros v Hv. apply Hmem, Hall. lia.
  - split.
    + intros ->. destruct (confirmed (probe 1)) eqn:Hc; [|done]. exfalso.
      assert (H1 : 1 ∈ results) by (apply Hmem; split; [done|unfold max_v; simpl; lia]).
      pose proof (max_list_elem_of_le _ _ H1) as Hle.
      apply Hstop; [lia|done].
    + intros Hc. destruct j as [|j]; [done|]. exfalso.
      assert (H1 : 1 ∈ results) by (apply Hall; lia).
      apply Hmem in H1 as [H1 _]. congruence.
  - rewrite discover_outcome. cbv zeta. fold results.
    destruct results as [|r rs] eqn:Hres.
    + assert (j = 0) as -> by (simpl in Hj; lia). done.
    + rewrite Heq. destruct j as [|j]; done.
  - unfold _discover_all_versions.
    rewrite (for_each_submit (fun v => v) (probe_task probe arxiv_id)).
    erewrite trace_bind_ok by reflexivity. cbn [trace app]. f_equal.
    erewrite trace_bind_ok by apply collect_loop_outcome.
    rewrite collect_loop_trace. cbn [app]. cbv zeta.
    change (merge_sort Nat.le
              (omap kept
                 (as_completed finish
                    ((fun x => (x, outcome (probe_task probe arxiv_id x)))
                       <$> seq 1 max_v))))
      with results.
    destruct results as [|r rs] eqn:Hres.
    + assert (j = 0) as -> by (simpl in Hj; lia). cbv iota.
      erewrite trace_bind_ok by apply check_outcome. cbn. by rewrite app_nil_r.
    + rewrite Heq. destruct j as [|j]; [|done]. cbn [seq]. cbv iota.
      erewrite trace_bind_ok by apply check_outcome. cbn. by rewrite app_nil_r.
Qed.



End DiscoveryFacts.

(* ===================================================================== *)
(** ** What the metadata fetch hands on *)
(* ===================================================================== *)

Module MetadataFacts.
Import PyStr Ids Data Eff EffFacts Versions VersionsFacts SS SSFacts Refs
  Download Paper PaperFacts Measures DiscoveryFacts.

Lemma bind_run {A B} (m : M A) (f : A -> M B) (a : A) :
  outcome m = Ok a -> bind m f = Run (trace m ++ trace (f a)) (outcome (f a)).
Proof. unfold bind. by intros ->. Qed.

Lemma try_except_run {A} (t : list op) (a : A) (h : exn -> M A) :
  try_except (Run t (Ok a)) h = Run t (Ok a).
Proof. reflexivity. Qed.

(** A metadata fetch that finds an entry, in full. *)
Lemma fetch_metadata_entry net arxiv_id venue_override paper :
  mn_lookup net = Entry paper ->
  ∃ k r,
    1 ≤ k ≤ MAX_VERSION_TO_CHECK ∧
    (∃ versions,
       outcome (_discover_all_versions (mn_probe net) (mn_finish net)
                  (mn_recheck net) arxiv_id) = Ok versions ∧
       seq 1 k = match versions with [] => [1] | _ :: _ => versions end) ∧
    outcome (_ss_get_cached (mn_ss_cached net) (mn_ss_answers net) arxiv_id
               (py "venue,publicationVenue")) = Ok r ∧
    _fetch_metadata_with_complete_versions net arxiv_id venue_override
    = Run (ArxivSearch arxiv_id
             :: trace (_discover_all_versions (mn_probe net) (mn_finish net)
                         (mn_recheck net) arxiv_id)
             ++ Incr versions_found k
             :: match venue_override with
                | Some (_ :: _) => []
                | _ => trace (_ss_get_cached (mn_ss_cached net)
                                (mn_ss_answers net) arxiv_id
                                (py "venue,publicationVenue"))
                end
             ++ [HttpGet (ARXIV_ABS_URL ++ arxiv_id)])
          (Ok (Some {| m_paper_title := p_title paper;
                       m_authors := p_authors paper;
                       m_submission_date := default [] (p_published paper);
                       m_publication_venue :=
                         match venue_override with
                         | Some (c :: venue) => c :: venue
                         | _ =>
                             if negb (truthy (venue_of_answer r))
                                && truthy_opt (p_journal_ref paper)
                             then strip (default [] (p_journal_ref paper))
                             else venue_of_answer r
                         end;
                       m_revised_dates :=
                         match mn_dates net with
                         | [] => None
                         | _ :: _ => Some (mn_dates net)
                         end |},
               revisions_info arxiv_id k)).
Proof.
  intros Hentry.
  destruct (discover_prefix (mn_probe net) (mn_finish net) (mn_recheck net)
              arxiv_id) as (j & Hj & _ & _ & Hout & _).
  destruct (ss_get_cached_returns (mn_ss_cached net) (mn_ss_answers net)
              arxiv_id (py "venue,publicationVenue")) as (r & Hr).
  set (versions := match j with
                   | 0 => if confirmed (mn_recheck net) then [1] else []
                   | S _ => seq 1 j
                   end) in Hout.
  set (k := Nat.max 1 j).
  assert (Hversions : match versions with [] => [1] | _ :: _ => versions end
                      = seq 1 k).
  { subst versions k. destruct j as [|j]; [by destruct (confirmed _)|].
    replace (1 `max` S j) with (S j) by lia. done. }
  exists k, r. split; [change max_v with MAX_VERSION_TO_CHECK in Hj;
                       unfold MAX_VERSION_TO_CHECK in *; lia|].
  split; [by exists versions|]. split; [done|].
  unfold _fetch_metadata_with_complete_versions, mbind, M_bind.
  rewrite Hentry, bind_emit, bind_ret.
  rewrite (bind_run _ _ versions Hout). rewrite Hversions.
  rewrite bind_emit. unfold _scrape_version_dates_light, mbind, M_bind.
  rewrite length_seq. fold (revisions_info arxiv_id k).
  match goal with
  | |- context [Incr versions_found k :: trace ?X] => set (tail := X)
  end.
  assert (Htail :
    tail = Run (match venue_override with
                | Some (_ :: _) => []
                | _ => trace (_ss_get_cached (mn_ss_cached net)
                                (mn_ss_answers net) arxiv_id
                                (py "venue,publicationVenue"))
                end ++ [HttpGet (ARXIV_ABS_URL ++ arxiv_id)])
               (Ok (Some {| m_paper_title := p_title paper;
                            m_authors := p_authors paper;
                            m_submission_date := default [] (p_published paper);
                            m_publication_venue :=
                              match venue_override with
                              | Some (c :: venue) => c :: venue
                              | _ =>
                                  if negb (truthy (venue_of_answer r))
                                     && truthy_opt (p_journal_ref paper)
                                  then strip (default [] (p_journal_ref paper))
                                  else venue_of_answer r
                              end;
                            m_revised_dates :=
                              match mn_dates net with
                              | [] => None
                              | _ :: _ => Some (mn_dates net)
                              end |},
                    revisions_info arxiv_id k))).
  { subst tail.
    assert (Hcall : ∀ B (f : pystr -> M B),
      bind (let* data := _ss_get_cached (mn_ss_cached net) (mn_ss_answers net)
                           arxiv_id (py "venue,publicationVenue") in
            ret (if negb (truthy (venue_of_answer data))
                    && truthy_opt (p_journal_ref paper)
                 then strip (default [] (p_journal_ref paper))
                 else venue_of_answer data)) f
      = Run (trace (_ss_get_cached (mn_ss_cached net) (mn_ss_answers net)
                      arxiv_id (py "venue,publicationVenue"))
               ++ trace (f (if negb (truthy (venue_of_answer r))
                               && truthy_opt (p_journal_ref paper)
                            then strip (default [] (p_journal_ref paper))
                            else venue_of_answer r)))
            (outcome (f (if negb (truthy (venue_of_answer r))
                            && truthy_opt (p_journal_ref paper)
                         then strip (default [] (p_journal_ref paper))
                         else venue_of_answer r)))).
    { intros B f. erewrite (bind_run (bind _ _)).
      2: { erewrite outcome_bind_ok by exact Hr. reflexivity. }
      erewrite trace_bind_ok by exact Hr. cbn [trace ret]. by rewrite app_nil_r. }
    destruct venue_override as [[|c venue]|].
    - rewrite Hcall. by rewrite bind_emit.
    - rewrite bind_ret. by rewrite bind_emit.
    - rewrite Hcall. by rewrite bind_emit. }
  rewrite Htail. cbn [trace outcome]. by rewrite try_except_run.
Qed.


Lemma discover_no_ss_call probe finish recheck arxiv_id :
  Forall (fun o => is_ss_call o = false)
    (trace (_discover_all_versions probe finish recheck arxiv_id)).
Proof.
  destruct (discover_prefix probe finish recheck arxiv_id)
    as (k & _ & _ & _ & _ & ->).
  apply Forall_app. split.
  - apply Forall_fmap, Forall_forall. by intros v _.
  - destruct k; [|done]. by destruct recheck; repeat constructor.
Qed.

(** A metadata fetch that finds an entry hands on the revisions [1 .. k]
    with [1 <= k <= MAX_VERSION_TO_CHECK], each with the identifier
    [<id>v<n>]: when discovery confirms no revision at all, revision 1 is
    handed on all the same.  It adds [k] to [versions_found], and the title
    and the authors are those of the entry. *)
Theorem metadata_fetch_revisions
    (net : meta_net) (arxiv_id : pystr) (venue_override : option pystr)
    (paper : arxiv_paper) :
  mn_lookup net = Entry paper ->
  let run := _fetch_metadata_with_complete_versions net arxiv_id venue_override in
  ∃ k m,
    1 ≤ k ≤ MAX_VERSION_TO_CHECK ∧
    outcome run
    = Ok (Some m, (fun v => (v, arxiv_id ++ py "v" ++ str_of_nat v)) <$> seq 1 k) ∧
    Incr versions_found k ∈ trace run ∧
    m_paper_title m = p_title paper ∧ m_authors m = p_authors paper ∧
    (outcome (_discover_all_versions (mn_probe net) (mn_finish net)
                (mn_recheck net) arxiv_id) = Ok [] -> k = 1).
Proof.
  intros Hentry. cbv zeta.
  destruct (fetch_metadata_entry net arxiv_id venue_override paper Hentry)
    as (k & r & Hk & (versions & Hout & Hversions) & _ & Hrun).
  rewrite Hrun. cbn [trace outcome]. eexists k, _. split; [done|].
  split; [reflexivity|]. split.
  { apply elem_of_cons. right. apply elem_of_app. right. by left. }
  split; [done|]. split; [done|].
  rewrite Hout. intros Hnone. injection Hnone as ->.
  apply (f_equal (@length _)) in Hversions. by rewrite length_seq in Hversions.
Qed.

Lemma metadata_fetch_revisions_witness :
  ∃ m, outcome (_fetch_metadata_with_complete_versions
                  (example_meta_net (Entry example_paper)) (py "2504.13946")
                  None)
       = Ok (Some m, [(1, py "2504.13946v1"); (2, py "2504.13946v2");
                      (3, py "2504.13946v3")]).
Proof.
  destruct (metadata_fetch_revisions (example_meta_net (Entry example_paper))
              (py "2504.13946") None example_paper eq_refl)
    as (k & m & Hk & Hout & _).
  exists m. rewrite Hout. f_equal. f_equal.
  assert (k = 3) as ->; [|reflexivity].
  apply (f_equal (fun r => match r with
                           | Ok (_, vi) => length vi
                           | Raise _ => 0
                           end)) in Hout.
  rewrite length_fmap, length_seq in Hout. rewrite <- Hout.
  vm_compute. reflexivity.
Defined.

(** With a venue passed in, the fetch writes that venue and does not call
    the citation graph at all. *)
Theorem venue_override_skips_lookup
    (net : meta_net) (arxiv_id : pystr) (c : ascii) (venue : pystr)
    (paper : arxiv_paper) :
  mn_lookup net = Entry paper ->
  let run :=
    _fetch_metadata_with_complete_versions net arxiv_id (Some (c :: venue)) in
  (∃ m vi, outcome run = Ok (Some m, vi) ∧ m_publication_venue m = c :: venue) ∧
  Forall (fun o => is_ss_call o = false) (trace run).
Proof.
  intros Hentry. cbv zeta.
  destruct (fetch_metadata_entry net arxiv_id (Some (c :: venue)) paper Hentry)
    as (k & r & _ & _ & _ & ->).
  cbn [trace outcome]. split; [by eexists _, _|].
  constructor; [done|]. apply Forall_app. split.
  - apply discover_no_ss_call.
  - by repeat constructor.
Qed.

Lemma venue_override_skips_lookup_witness :
  let run :=
    _fetch_metadata_with_complete_versions
      (example_meta_net (Entry example_paper)) (py "2504.13946")
      (Some (py "NeurIPS")) in
  (∃ m vi, outcome run = Ok (Some m, vi) ∧ m_publication_venue m = py "NeurIPS") ∧
  Forall (fun o => is_ss_call o = false) (trace run).
Proof.
  exact (venue_override_skips_lookup (example_meta_net (Entry example_paper))
           (py "2504.13946") "N" (py "eurIPS") example_paper eq_refl).
Defined.

End MetadataFacts.

(* ===================================================================== *)
(** ** The two readers of the venue *)
(* ===================================================================== *)

Module VenueFacts.
Import PyStr Ids Data Eff EffFacts Versions SS Refs Download Paper Measures.

Lemma lstrip_head s :
  lstrip s = [] ∨ ∃ c t, lstrip s = c :: t ∧ is_space c = false.
Proof.
  induction s as [|c s IH]; [by left|]. simpl.
  destruct (is_space c) eqn:Hc; [done|]. right. by exists c, s.
Qed.

Lemma lstrip_fixed c t : is_space c = false -> lstrip (c :: t) = c :: t.
Proof. intros H. simpl. by rewrite H. Qed.

Lemma lstrip_idem s : lstrip (lstrip s) = lstrip s.
Proof.
  destruct (lstrip_head s) as [->|(c & t & -> & Hc)]; [done|].
  by apply lstrip_fixed.
Qed.

Lemma lstrip_snoc y c :
  is_space c = false -> lstrip (y ++ [c]) = lstrip y ++ [c].
Proof.
  intros Hc. induction y as [|d y IH]; simpl.
  - by rewrite Hc.
  - by destruct (is_space d).
Qed.

Lemma strip_idem s : strip (strip s) = strip s.
Proof.
  unfold strip, rstrip.
  destruct (lstrip_head s) as [->|(c & t & -> & Hc)]; [done|].
  cbn [rev]. rewrite lstrip_snoc by done. rewrite rev_app_distr. cbn [rev app].
  rewrite lstrip_fixed by done.
  cbn [rev]. rewrite rev_involutive, lstrip_snoc by done.
  rewrite lstrip_idem. by rewrite rev_app_distr.
Qed.


Lemma usable_strip s : usable (Some s) = truthy (strip s).
Proof. unfold usable. by destruct s. Qed.

Lemma venue_of_refs data :
  paper_venue_of data
  = match ss_publicationVenue data with
    | Some name =>
        if usable name then Some (strip (default [] name))
        else if usable (ss_venue data)
             then Some (strip (default [] (ss_venue data))) else None
    | None =>
        if usable (ss_venue data)
        then Some (strip (default [] (ss_venue data))) else None
    end.
Proof.
  unfold paper_venue_of.
  destruct (ss_publicationVenue data) as [[nm|]|]; cbn [usable].
  - destruct (truthy nm && truthy (strip nm)) eqn:Hnm.
    + apply andb_true_iff in Hnm as [_ Hnm]. cbn [truthy_opt]. by rewrite Hnm.
    + cbn [truthy_opt]. destruct (ss_venue data) as [vs|]; [|done].
      by rewrite usable_strip.
  - cbn [truthy_opt]. destruct (ss_venue data) as [vs|]; [|done].
    by rewrite usable_strip.
  - cbn [truthy_opt]. destruct (ss_venue data) as [vs|]; [|done].
    by rewrite usable_strip.
Qed.

Lemma venue_of_meta data :
  venue_of_answer (Some (PaperDict data))
  = match ss_publicationVenue data with
    | Some name => if usable name then strip (default [] name) else []
    | None =>
        if usable (ss_venue data) then strip (default [] (ss_venue data))
        else []
    end.
Proof.
  unfold venue_of_answer.
  destruct (ss_publicationVenue data) as [[nm|]|]; cbn [usable]; try done.
  destruct (ss_venue data) as [vs|]; [|done]. by rewrite usable_strip.
Qed.

Lemma usable_nonempty o :
  usable o = true -> strip (default [] o) ≠ [].
Proof.
  destruct o as [s|]; [|done]. rewrite usable_strip.
  change (default [] (Some s)) with s. by destruct (strip s).
Qed.

(** The two readers of the venue.  The one of the reference fetch returns
    a venue that is stripped and not empty, or none.  Whenever the one of the
    metadata fetch finds a venue, the reference fetch finds the same.  They
    differ in one case only: when [publicationVenue] is an object without a
    usable name and [venue] is usable, the reference fetch falls back on
    [venue] and the metadata fetch does not. *)
Theorem venue_readers (data : ss_paper) :
  let of_refs := paper_venue_of data in
  let of_meta := venue_of_answer (Some (PaperDict data)) in
  (∀ v, of_refs = Some v -> v ≠ [] ∧ stripped v) ∧
  (of_meta ≠ [] -> of_refs = Some of_meta) ∧
  (of_meta = [] ∧ of_refs ≠ None
   ↔ (∃ name, ss_publicationVenue data = Some name ∧ usable name = false)
     ∧ usable (ss_venue data) = true).
Proof.
  cbv zeta. rewrite venue_of_refs, venue_of_meta. unfold stripped.
  destruct (ss_publicationVenue data) as [name|];
    [destruct (usable name) eqn:Hname|];
    destruct (usable (ss_venue data)) eqn:Hvenue.
  all: split_and!.
  all: try (intros v [= <-]; split; [by apply usable_nonempty|apply strip_idem]).
  all: try done.
  - split; [intros [H _]; by apply usable_nonempty in Hname|].
    intros [(n & [= <-] & Hn) _]. congruence.
  - split; [intros [H _]; by apply usable_nonempty in Hname|]. by intros [_ ?].
  - split; [intros _|done]. split; [by exists name|done].
  - split; [by intros [_ ?]|by intros [_ ?]].
  - split; [intros [H _]; by apply usable_nonempty in Hvenue|].
    by intros [(n & ? & _) _].
  - split; [by intros [_ ?]|by intros [_ ?]].
Qed.

End VenueFacts.

(* ===================================================================== *)
(** ** What a paper leaves behind *)
(* ===================================================================== *)

Module ArtifactFacts.
Import PyStr Ids Data Eff EffFacts Versions SS Refs Download Paper.
Import OnlyFacts PaperFacts Measures.







End ArtifactFacts.

(* ===================================================================== *)
(** ** The reference counters *)
(* ===================================================================== *)

Module ReferenceCountFacts.
Import PyStr Ids Data Eff EffFacts IdsFacts Versions SS Refs Download RefsFacts
  Measures.







End ReferenceCountFacts.

(* ===================================================================== *)
(** ** Answers and failures of the session *)
(* ===================================================================== *)

Module SessionFacts.
Import PyStr Data Eff EffFacts SS SSFacts Measures.

Lemma urlopen_once r left url status_code retry_after body later :
  is_retry r left status_code retry_after = false ->
  urlopen r left url (Response status_code retry_after body :: later)
  = Run [HttpGet url] (Ok (status_code, body)).
Proof.
  intros H. destruct left; cbn [urlopen]; unfold mbind, M_bind;
    by rewrite bind_emit, H.
Qed.

Lemma ss_get_read answers arxiv_id fields t status_code body :
  session_get (SEMANTIC_SCHOLAR_BASE ++ arxiv_id) answers
  = Run t (Ok (status_code, body)) ->
  status_code ≠ 429%Z ->
  _ss_get answers arxiv_id fields
  = Run ([RateLimiterWait; Incr ss_requests_made 1] ++ t
           ++ (read_answer status_code body).1)
        (Ok (read_answer status_code body).2).
Proof.
  intros Hget H429. unfold _ss_get, read_answer. rewrite Hget.
  unfold mbind, M_bind, bind, try_except. cbn [trace outcome emit app].
  destruct (status_code =? 200)%Z eqn:H200.
  - destruct body; cbn; by rewrite ?app_nil_r.
  - destruct (status_code =? 429)%Z eqn:Hs; [by apply Z.eqb_eq in Hs|].
    destruct (status_code =? 404)%Z; cbn; by rewrite ?app_nil_r.
Qed.

Lemma ss_get_raised answers arxiv_id fields t e :
  session_get (SEMANTIC_SCHOLAR_BASE ++ arxiv_id) answers = Run t (Raise e) ->
  _ss_get answers arxiv_id fields
  = Run ([RateLimiterWait; Incr ss_requests_made 1] ++ t ++ [Incr ss_errors 1])
        (Ok None).
Proof.
  intros Hget. unfold _ss_get. rewrite Hget.
  unfold mbind, M_bind, bind, try_except. by cbn [trace outcome emit app].
Qed.

(** An answer the adapter does not retry ends the call after one request.
    With status 200 the call returns the body, and counts an error and
    returns nothing when the body is no JSON.  With any other status it
    returns the empty dictionary and counts no error: a 400, 401 or 403 is
    read like a 404. *)
Theorem ss_answer_not_retried
    (status_code : Z) (retry_after : bool) (body : option ss_json)
    (later : list http_answer) (arxiv_id fields : pystr) :
  is_retry session_retries 2 status_code retry_after = false ->
  _ss_get (Response status_code retry_after body :: later) arxiv_id fields
  = Run ([RateLimiterWait; Incr ss_requests_made 1;
          HttpGet (SEMANTIC_SCHOLAR_BASE ++ arxiv_id)]
           ++ (read_answer status_code body).1)
        (Ok (read_answer status_code body).2).
Proof.
  intros Hretry.
  rewrite (ss_get_read _ _ _ [HttpGet (SEMANTIC_SCHOLAR_BASE ++ arxiv_id)]
             status_code body); [done| |].
  - unfold session_get. change (total session_retries) with 2.
    by apply urlopen_once.
  - intros ->. done.
Qed.

Lemma ss_answer_not_retried_witness :
  _ss_get [Response 403 false None] (py "2504.13946") (py "venue")
  = Run [RateLimiterWait; Incr ss_requests_made 1;
         HttpGet (py "https://api.semanticscholar.org/graph/v1/paper/arXiv:2504.13946")]
        (Ok (Some EmptyDict)).
Proof.
  exact (ss_answer_not_retried 403 false None [] (py "2504.13946") (py "venue")
           eq_refl).
Defined.

Lemma urlopen_failures r left n url answers :
  n ≤ left ->
  urlopen r left url (replicate n Failure ++ answers)
  = Run (replicate n (HttpGet url) ++ trace (urlopen r (left - n) url answers))
        (outcome (urlopen r (left - n) url answers)).
Proof.
  revert left. induction n as [|n IH]; intros left Hn.
  - rewrite Nat.sub_0_r. cbn. by destruct (urlopen r left url answers).
  - destruct left as [|left]; [lia|].
    cbn [replicate app urlopen]. unfold mbind, M_bind. rewrite bind_emit.
    rewrite IH by lia. cbn [trace outcome]. done.
Qed.

Lemma urlopen_exhausted r n url answers :
  urlopen r n url (replicate (S n) Failure ++ answers)
  = Run (replicate (S n) (HttpGet url)) (Raise RequestException).
Proof.
  rewrite replicate_S_end, <- app_assoc. rewrite urlopen_failures by lia.
  rewrite Nat.sub_diag. cbn. by rewrite <- replicate_S_end.
Qed.

(** Requests that fail are sent again, twice at most.  After [n <= 2]
    failures an answer 200 with a JSON body is returned as if nothing had
    happened, at the cost of [n] more requests; after three failures the
    call gives up, counts one error and returns nothing, whatever a fourth
    answer would have been. *)
Theorem ss_failed_requests
    (n : nat) (retry_after : bool) (data : ss_json)
    (later : list http_answer) (arxiv_id fields : pystr) :
  let url := SEMANTIC_SCHOLAR_BASE ++ arxiv_id in
  let answers := replicate n Failure ++ Response 200 retry_after (Some data) :: later in
  (n ≤ 2 ->
   _ss_get answers arxiv_id fields
   = Run ([RateLimiterWait; Incr ss_requests_made 1]
            ++ replicate (S n) (HttpGet url))
         (Ok (Some data))) ∧
  (3 ≤ n ->
   _ss_get answers arxiv_id fields
   = Run ([RateLimiterWait; Incr ss_requests_made 1]
            ++ replicate 3 (HttpGet url) ++ [Incr ss_errors 1])
         (Ok None)).
Proof.
  cbv zeta. split; intros Hn.
  - rewrite (ss_get_read _ _ _
               (replicate (S n) (HttpGet (SEMANTIC_SCHOLAR_BASE ++ arxiv_id)))
               200 (Some data)); [by rewrite app_nil_r| |done].
    unfold session_get. change (total session_retries) with 2.
    rewrite urlopen_failures by done.
    rewrite urlopen_once by (unfold is_retry; cbn; by rewrite andb_false_r).
    cbn [trace outcome]. by rewrite replicate_S_end.
  - rewrite (ss_get_raised _ _ _
               (replicate 3 (HttpGet (SEMANTIC_SCHOLAR_BASE ++ arxiv_id)))
               RequestException); [done|].
    unfold session_get. change (total session_retries) with 2.
    replace n with (3 + (n - 3)) by lia.
    rewrite replicate_add, <- app_assoc.
    by rewrite (urlopen_exhausted session_retries 2).
Qed.

Lemma ss_failed_requests_witness :
  _ss_get [Failure; Response 200 false (Some EmptyDict)] (py "2504.13946")
    (py "venue")
  = Run [RateLimiterWait; Incr ss_requests_made 1;
         HttpGet (py "https://api.semanticscholar.org/graph/v1/paper/arXiv:2504.13946");
         HttpGet (py "https://api.semanticscholar.org/graph/v1/paper/arXiv:2504.13946")]
        (Ok (Some EmptyDict)).
Proof.
  exact (proj1 (ss_failed_requests 1 false EmptyDict [] (py "2504.13946")
                  (py "venue")) ltac:(lia)).
Defined.

End SessionFacts.

(* ===================================================================== *)
(** ** The archive of a revision *)
(* ===================================================================== *)

Module ArchiveFacts.
Import PyStr Ids Data Eff EffFacts Versions SS Refs Download Paper.
Import DownloadFacts PaperFacts Measures MetadataFacts.


Lemma count_loop_run (l : list (nat * future bool)) (n : nat) :
  for_each l n (fun successful_versions vf =>
    try_except
      (let* ok := future_result Completed vf.2 in
       if ok : bool then
         emit (Incr versions_downloaded 1);;
         ret (S successful_versions)
       else ret successful_versions)
      (fun _ => ret successful_versions))
  = Run (replicate (tally (fun vf => succeeded vf.2) l)
           (Incr versions_downloaded 1))
        (Ok (n + tally (fun vf => succeeded vf.2) l)).
Proof.
  match goal with |- for_each _ _ ?b = _ => set (body := b) end.
  revert n. induction l as [|[v fut] l IH]; intros n; cbn [for_each].
  - unfold tally. cbn. by rewrite Nat.add_0_r.
  - assert (Htally : tally (fun vf : nat * future bool => succeeded vf.2)
                       ((v, fut) :: l)
                     = (if succeeded fut then 1 else 0)
                       + tally (fun vf => succeeded vf.2) l) by reflexivity.
    assert (Hstep : body n (v, fut)
                    = Run (replicate (if succeeded fut then 1 else 0)
                             (Incr versions_downloaded 1))
                          (Ok (n + (if succeeded fut then 1 else 0)))).
    { subst body. destruct fut as [[]|e]; cbn; f_equal; f_equal; lia. }
    rewrite Hstep, Htally. unfold bind. cbn [trace outcome]. rewrite IH.
    cbn [trace outcome]. rewrite replicate_add. f_equal. f_equal. lia.
Qed.

(** The download step in full: it creates the [tex] directory, submits one
    task per revision in the order of the list, and only then reads the
    results; [versions_downloaded] grows by one per revision that succeeded,
    which is the number the step returns. *)
Theorem download_step_run
    (output_dir : path) (answer : nat -> download_outcome)
    (unpack : nat -> extract_outcome) (finish : nat -> nat)
    (formatted base_dot_id : pystr) (versions_info : list (nat * pystr)) :
  let successes :=
    tally (fun v : nat * pystr => version_ok (answer v.1) (unpack v.1))
      versions_info in
  let run :=
    _download_versions_concurrently output_dir answer unpack finish formatted
      base_dot_id versions_info in
  run
  = Run (Mkdir (path_join (path_join output_dir formatted) (py "tex"))
           :: ((fun v => Spawn (trace (version_task output_dir answer unpack
                                         formatted v))) <$> versions_info)
           ++ replicate successes (Incr versions_downloaded 1))
        (Ok successes) ∧
  counted versions_downloaded (trace run) = successes.
Proof.
  cbv zeta.
  set (successes := tally (fun v : nat * pystr =>
                             version_ok (answer v.1) (unpack v.1)) versions_info).
  assert (Hrun :
    _download_versions_concurrently output_dir answer unpack finish formatted
      base_dot_id versions_info
    = Run (Mkdir (path_join (path_join output_dir formatted) (py "tex"))
             :: ((fun v => Spawn (trace (version_task output_dir answer unpack
                                           formatted v))) <$> versions_info)
             ++ replicate successes (Incr versions_downloaded 1))
          (Ok successes)).
  { unfold _download_versions_concurrently, ensure_dir, mbind, M_bind.
    rewrite bind_emit.
    rewrite (for_each_ext versions_info [] _
               (fun futs v =>
                  let* fut := submit (version_task output_dir answer unpack
                                        formatted v) in
                  ret (futs ++ [(v.1, fut)])))
      by (by intros futs [version_num version_id]).
    rewrite (for_each_submit (fun v : nat * pystr => v.1)
               (version_task output_dir answer unpack formatted)).
    erewrite bind_run by reflexivity. cbn [trace outcome app].
    rewrite count_loop_run. cbn [trace outcome Nat.add].
    assert (Htally :
      tally (fun vf : nat * future bool => succeeded vf.2)
        (as_completed finish
           ((fun x : nat * pystr =>
               (x.1, outcome (version_task output_dir answer unpack formatted x)))
              <$> versions_info))
      = successes).
    { rewrite (tally_perm _ _ _ (as_completed_perm finish _)), tally_fmap.
      apply tally_ext. intros v. cbn [snd]. unfold version_task.
      by rewrite process_version_outcome; destruct (version_ok _ _). }
    by rewrite Htally. }
  split; [exact Hrun|]. rewrite Hrun. cbn [trace].
  unfold counted. cbn [sum_list_with incr_of]. rewrite sum_list_with_app.
  assert (Hspawns : ∀ l : list (nat * pystr),
            sum_list_with (incr_of versions_downloaded)
              ((fun v => Spawn (trace (version_task output_dir answer unpack
                                         formatted v))) <$> l) = 0).
  { induction l as [|v l IH]; [done|]. rewrite fmap_cons.
    cbn [sum_list_with incr_of Nat.add]. exact IH. }
  assert (Hincrs : ∀ n, sum_list_with (incr_of versions_downloaded)
                          (replicate n (Incr versions_downloaded 1)) = n).
  { induction n as [|n IH]; [done|]. cbn [replicate sum_list_with incr_of].
    rewrite IH. by case_bool_decide. }
  by rewrite Hspawns, Hincrs.
Qed.

End ArchiveFacts.

(* ===================================================================== *)
(** ** The record of a reference *)
(* ===================================================================== *)

Module RecordFacts.
Import PyStr Ids Data Eff EffFacts IdsFacts Versions SS Refs RefsFacts
  Measures VenueFacts.





End RecordFacts.

(* ===================================================================== *)
(** ** What the cache saves *)
(* ===================================================================== *)

Module CacheFacts.
Import PyStr Data Eff EffFacts SS Refs SSFacts BatchFacts Cache.

Lemma cache_find_None k (c : lru) : cache_find k c = None ↔ k ∉ c.*1.
Proof.
  induction c as [|[k' v] c IH]; cbn.
  - split; [intros _; apply not_elem_of_nil|done].
  - case_decide as Hk.
    + subst. split; [done|]. intros H. exfalso. apply H. by left.
    + rewrite IH. rewrite not_elem_of_cons. naive_solver.
Qed.

Lemma cache_remove_absent k (c : lru) : k ∉ c.*1 -> cache_remove k c = c.
Proof.
  unfold cache_remove. induction c as [|[k' v] c IH]; intros H; [done|].
  cbn in H. apply not_elem_of_cons in H as [Hne H].
  rewrite filter_cons_True by (cbn; congruence). by rewrite IH.
Qed.

Lemma cache_remove_keys k (c : lru) : (cache_remove k c).*1 = filter (.≠ k) c.*1.
Proof.
  unfold cache_remove. induction c as [|[k' v] c IH]; [done|].
  rewrite fmap_cons, !filter_cons. cbn [fst].
  case_decide; rewrite ?fmap_cons; cbn [fst]; by rewrite IH.
Qed.

Lemma ss_get_returns answers arxiv_id fields :
  ∃ t r, _ss_get answers arxiv_id fields = Run t (Ok r) ∧
         counted ss_requests_made t = 1 ∧ 1 ≤ requests_sent t ≤ 3.
Proof.
  destruct (ss_get_shape answers arxiv_id fields)
    as (n & tl & r & Hn & -> & Htl & _).
  eexists _, r. split; [reflexivity|].
  rewrite !requests_sent_app, requests_sent_replicate.
  unfold counted. rewrite !sum_list_with_app.
  assert (sum_list_with (incr_of ss_requests_made)
            (replicate n (HttpGet (SEMANTIC_SCHOLAR_BASE ++ arxiv_id))) = 0) as ->.
  { clear. induction n as [|n IH]; [done|]. cbn. exact IH. }
  assert (requests_sent tl = 0 ∧
          sum_list_with (incr_of ss_requests_made) tl = 0) as [-> ->]
    by (destruct Htl as [-> | ->]; split; reflexivity).
  change (requests_sent [RateLimiterWait; Incr ss_requests_made 1]) with 0.
  change (sum_list_with (incr_of ss_requests_made)
            [RateLimiterWait; Incr ss_requests_made 1]) with 1.
  lia.
Qed.

(** What a call does, by cases on the cache. *)
Lemma ss_call_hit c answers arxiv_id fields held :
  cache_find (arxiv_id, fields) c = Some held ->
  ss_call c answers arxiv_id fields
  = Run [] (Ok (held, cache_hit (arxiv_id, fields) held c)).
Proof. intros H. unfold ss_call. by rewrite H. Qed.

Lemma ss_call_miss c answers arxiv_id fields :
  cache_find (arxiv_id, fields) c = None ->
  ∃ t r,
    ss_call c answers arxiv_id fields
    = Run t (Ok (r, cache_miss (arxiv_id, fields) r c)) ∧
    counted ss_requests_made t = 1 ∧ 1 ≤ requests_sent t ≤ 3.
Proof.
  intros H. unfold ss_call. rewrite H. cbn [_ss_get_cached].
  destruct (ss_get_returns answers arxiv_id fields) as (t & r & -> & Ht).
  exists t, r. split; [|done]. unfold bind. cbn. by rewrite app_nil_r.
Qed.

(** A result stays.  Whatever a call returns, data, the empty dictionary or
    nothing at all after a failure, a call with the same identifier and
    fields that follows it returns the same without reaching the client: no
    wait on the rate limiter, no request, no counter.  The cache keeps one
    entry per key and never more than [MAXSIZE] entries. *)
Theorem cached_result_stays
    (c : lru) (answers answers' : list http_answer) (arxiv_id fields : pystr) :
  NoDup c.*1 -> length c ≤ MAXSIZE ->
  ∃ r c',
    outcome (ss_call c answers arxiv_id fields) = Ok (r, c') ∧
    ss_call c' answers' arxiv_id fields = Run [] (Ok (r, c')) ∧
    NoDup c'.*1 ∧ length c' ≤ MAXSIZE.
Proof.
  intros Hnd Hlen. set (k := (arxiv_id, fields)).
  assert (Hfront : ∀ r rest, k ∉ rest.*1 ->
            ss_call ((k, r) :: rest) answers' arxiv_id fields
            = Run [] (Ok (r, (k, r) :: rest))).
  { intros r rest Hk. rewrite (ss_call_hit _ _ _ _ r).
    - fold k. unfold cache_hit. do 4 f_equal. unfold cache_remove.
      rewrite filter_cons_False by (cbn; tauto).
      by apply cache_remove_absent.
    - cbn. fold k. by rewrite decide_True. }
  destruct (cache_find k c) as [held|] eqn:Hfind.
  - rewrite (ss_call_hit _ _ _ _ held Hfind). cbn [outcome]. fold k.
    exists held, (cache_hit k held c).
    assert (Hk : k ∉ (cache_remove k c).*1).
    { rewrite cache_remove_keys. intros Hin.
      apply list_elem_of_filter in Hin as [Hne _]. done. }
    split_and!; [done|by apply Hfront| |].
    + unfold cache_hit. cbn. constructor; [done|].
      rewrite cache_remove_keys. by apply NoDup_filter.
    + unfold cache_hit. cbn [length].
      assert (Hin : k ∈ c.*1).
      { destruct (decide (k ∈ c.*1)) as [?|Hn]; [done|].
        apply cache_find_None in Hn. congruence. }
      assert (length (cache_remove k c) < length c); [|lia].
      rewrite <- (length_fmap fst (cache_remove k c)), <- (length_fmap fst c).
      rewrite cache_remove_keys.
      clear -Hin. induction (c.*1) as [|x l IH]; [by apply elem_of_nil in Hin|].
      rewrite filter_cons. case_decide as Hx; cbn [length].
      * apply elem_of_cons in Hin as [->|Hin]; [done|].
        specialize (IH Hin). lia.
      * apply Nat.lt_succ_r, length_filter.
  - destruct (ss_call_miss c answers arxiv_id fields Hfind) as (t & r & -> & _).
    cbn [outcome]. fold k. exists r, (cache_miss k r c).
    apply cache_find_None in Hfind.
    unfold cache_miss, MAXSIZE. cbn [take].
    fold (take 1023 c). split_and!; [done| | |].
    + apply Hfront. intros Hin. apply Hfind.
      rewrite fmap_take in Hin. by apply elem_of_take in Hin as (? & ?%list_elem_of_lookup_2 & ?).
    + cbn. constructor.
      * intros Hin. apply Hfind. rewrite fmap_take in Hin.
        by apply elem_of_take in Hin as (? & ?%list_elem_of_lookup_2 & ?).
      * rewrite fmap_take. eapply sublist_NoDup; [done|apply sublist_take].
    + cbn [length]. rewrite length_take. lia.
Qed.

Lemma ss_calls_cons c arxiv_id fields answers calls t r c1 :
  ss_call c answers arxiv_id fields = Run t (Ok (r, c1)) ->
  ss_calls c ((arxiv_id, fields, answers) :: calls)
  = Run (t ++ trace (ss_calls c1 calls)) (outcome (ss_calls c1 calls)).
Proof.
  intros H. unfold ss_calls. cbn [for_each fst snd]. rewrite H.
  unfold bind. cbn. by rewrite app_nil_r.
Qed.

Lemma cached_result_stays_witness :
  ∃ c',
    outcome (ss_call [] [Failure; Failure; Failure] (py "2504.13946")
               (py "venue,publicationVenue")) = Ok (None, c') ∧
    ss_call c' [Response 200 false (Some EmptyDict)] (py "2504.13946")
      (py "venue,publicationVenue") = Run [] (Ok (None, c')).
Proof.
  destruct (cached_result_stays [] [Failure; Failure; Failure]
              [Response 200 false (Some EmptyDict)] (py "2504.13946")
              (py "venue,publicationVenue"))
    as (r & c' & Hfirst & Hsecond & _).
  - constructor.
  - cbn. unfold MAXSIZE. lia.
  - assert (r = None) as ->.
    { pose proof Hfirst as H0. vm_compute in H0. congruence. }
    exists c'. split; [exact Hfirst|exact Hsecond].
Defined.

(** From a cache with room for them, calls reach the client once per key
    that is new. *)
Lemma ss_calls_run (calls : list (key * list http_answer)) (c : lru) :
  NoDup c.*1 ->
  size (list_to_set c.*1 ∪ list_to_set calls.*1 : gset key) ≤ MAXSIZE ->
  ∃ t c',
    ss_calls c calls = Run t (Ok c') ∧
    counted ss_requests_made t
    = size (list_to_set calls.*1 ∖ list_to_set c.*1 : gset key) ∧
    requests_sent t
    ≤ 3 * size (list_to_set calls.*1 ∖ list_to_set c.*1 : gset key).
Proof.
  revert c. induction calls as [|[[arxiv_id fields] answers] calls IH];
    intros c Hnd Hsize.
  - exists [], c. cbn. split; [done|].
    replace (∅ ∖ list_to_set c.*1 : gset key) with (∅ : gset key) by set_solver.
    rewrite size_empty. done.
  - set (k := (arxiv_id, fields)).
    rewrite fmap_cons in Hsize |- *. cbn [fst list_to_set] in Hsize |- *.
    fold k in Hsize |- *.
    destruct (cache_find k c) as [held|] eqn:Hfind.
    + assert (Hin : k ∈ c.*1).
      { destruct (decide (k ∈ c.*1)) as [?|Hn]; [done|].
        apply cache_find_None in Hn. congruence. }
      pose proof (ss_call_hit c answers _ _ held Hfind) as Hcall.
      fold k in Hcall.
      assert (Hkeys : (list_to_set (cache_hit k held c).*1 : gset key)
                      = list_to_set c.*1).
      { unfold cache_hit. rewrite fmap_cons, cache_remove_keys. cbn [fst].
        apply set_eq. intros x.
        rewrite list_to_set_cons, elem_of_union, elem_of_singleton,
          !elem_of_list_to_set, list_elem_of_filter.
        destruct (decide (x = k)); naive_solver. }
      destruct (IH (cache_hit k held c)) as (t & c' & Hrun & Hcount & Hsent).
      * unfold cache_hit. rewrite fmap_cons, cache_remove_keys. cbn [fst].
        constructor; [|by apply NoDup_filter].
        intros Hk. by apply list_elem_of_filter in Hk as [? _].
      * rewrite Hkeys. etrans; [|exact Hsize].
        apply subseteq_size. set_solver.
      * exists t, c'. split.
        { rewrite (ss_calls_cons _ _ _ _ _ _ _ _ Hcall), Hrun. done. }
        rewrite Hkeys in Hcount, Hsent.
        match goal with |- context [size ?X] =>
          replace X with (list_to_set calls.*1 ∖ list_to_set c.*1 : gset key)
            by set_solver
        end.
        split; [exact Hcount|exact Hsent].
    + destruct (ss_call_miss c answers arxiv_id fields Hfind)
        as (t1 & r & Hcall & Hc1 & Hs1).
      apply cache_find_None in Hfind. fold k in Hcall.
      assert (Hlen : length c < MAXSIZE).
      { rewrite <- (length_fmap fst c), <- (size_list_to_set (C:=gset key)) by done.
        eapply Nat.lt_le_trans; [|exact Hsize].
        apply subset_size. set_solver. }
      assert (Hmiss : cache_miss k r c = (k, r) :: c).
      { unfold cache_miss. apply take_ge. cbn [length]. lia. }
      rewrite Hmiss in Hcall.
      destruct (IH ((k, r) :: c)) as (t & c' & Hrun & Hcount & Hsent).
      * rewrite fmap_cons. by constructor.
      * rewrite fmap_cons. cbn [fst list_to_set]. etrans; [|exact Hsize].
        apply subseteq_size. set_solver.
      * exists (t1 ++ t), c'. split.
        { rewrite (ss_calls_cons _ _ _ _ _ _ _ _ Hcall), Hrun. done. }
        cbn [fmap list_fmap fst list_to_set] in Hcount, Hsent.
        match type of Hcount with _ = size ?Y =>
          match goal with |- context [size ?X] =>
            replace X with ({[k]} ∪ Y)
          end
        end.
        2: { apply set_eq. intros x.
             rewrite !elem_of_union, !elem_of_difference, !elem_of_union,
               !elem_of_singleton, !elem_of_list_to_set.
             destruct (decide (x = k)); naive_solver. }
        rewrite size_union, size_singleton by set_solver.
        rewrite counted_app, requests_sent_app. lia.
Qed.

(** Once per key.  From the empty cache, a run of citation-graph calls with
    at most [MAXSIZE] different pairs of identifier and fields returns, and
    it reaches the client exactly once per pair: [ss_requests_made] grows by
    the number of different pairs, however often each is asked and whatever
    the server answers, and at most three requests go out per pair. *)
Theorem one_client_call_per_key (calls : list (key * list http_answer)) :
  let keys : gset key := list_to_set calls.*1 in
  size keys ≤ MAXSIZE ->
  ∃ c',
    outcome (ss_calls [] calls) = Ok c' ∧
    counted ss_requests_made (trace (ss_calls [] calls)) = size keys ∧
    requests_sent (trace (ss_calls [] calls)) ≤ 3 * size keys.
Proof.
  cbv zeta. intros Hsize.
  destruct (ss_calls_run calls []) as (t & c' & Hrun & Hcount & Hsent).
  - constructor.
  - cbn. by rewrite (left_id_L ∅ (∪)).
  - match type of Hcount with _ = size ?Y =>
      replace Y with (list_to_set calls.*1 : gset key) in Hcount, Hsent
        by (cbn; set_solver)
    end.
    exists c'. rewrite Hrun. done.
Qed.

Lemma one_client_call_per_key_witness :
  let calls :=
    [((py "2504.13946", py "venue,publicationVenue"), [Failure; Failure; Failure]);
     ((py "2504.13946", REFERENCE_FIELDS), [Response 200 false (Some EmptyDict)]);
     ((py "2504.13946", py "venue,publicationVenue"),
      [Response 200 false (Some EmptyDict)])] in
  counted ss_requests_made (trace (ss_calls [] calls)) = 2 ∧
  requests_sent (trace (ss_calls [] calls)) ≤ 6.
Proof.
  cbv zeta.
  destruct (one_client_call_per_key
    [((py "2504.13946", py "venue,publicationVenue"), [Failure; Failure; Failure]);
     ((py "2504.13946", REFERENCE_FIELDS), [Response 200 false (Some EmptyDict)]);
     ((py "2504.13946", py "venue,publicationVenue"),
      [Response 200 false (Some EmptyDict)])])
    as (c' & _ & Hcount & Hsent).
  - vm_compute. lia.
  - split; [rewrite Hcount|etrans; [exact Hsent|]]; vm_compute; lia.
Defined.

End CacheFacts.

(* ===================================================================== *)
(** ** What the clean-up removes *)
(* ===================================================================== *)

Module CleanupFacts.
Import PyStr Data Eff EffFacts Cleanup.

Lemma rfind_last c pre post :
  c ∉ post -> rfind c (pre ++ c :: post) = Some (length pre).
Proof.
  intros Hpost.
  assert (Hnone : rfind c post = None).
  { induction post as [|x post IH]; [done|].
    apply not_elem_of_cons in Hpost as [Hx Hpost]. cbn. rewrite (IH Hpost).
    unfold ascii_eqb. destruct (Ascii.eqb_spec x c); congruence. }
  induction pre as [|x pre IH]; cbn.
  - rewrite Hnone. unfold ascii_eqb. by rewrite Ascii.eqb_refl.
  - by rewrite IH.
Qed.

Lemma rfind_Some c s i :
  rfind c s = Some i ->
  ∃ pre post, s = pre ++ c :: post ∧ length pre = i ∧ c ∉ post.
Proof.
  revert i. induction s as [|x s IH]; intros i; cbn; [done|].
  destruct (rfind c s) as [j|] eqn:Hj.
  - intros [= <-]. destruct (IH j eq_refl) as (pre & post & -> & <- & Hpost).
    by exists (x :: pre), post.
  - unfold ascii_eqb. destruct (Ascii.eqb_spec x c) as [->|]; [|done].
    intros [= <-]. exists [], s. split_and!; [done..|].
    clear IH. induction s as [|y s IH]; [apply not_elem_of_nil|].
    cbn in Hj. destruct (rfind c s) eqn:Hs; [done|].
    unfold ascii_eqb in Hj. destruct (Ascii.eqb_spec y c); [done|].
    apply not_elem_of_cons. split; [congruence|by apply IH].
Qed.

Lemma lower_char_dot c : lower_char c = "."%char -> c = "."%char.
Proof.
  intros H. destruct c as [[] [] [] [] [] [] [] []]; vm_compute in H; congruence.
Qed.

Lemma lower_ext_no_dot ext :
  str_lower ext = py "tex" ∨ str_lower ext = py "bib" -> "."%char ∉ ext.
Proof.
  intros H Hin. apply (list_elem_of_fmap_2 lower_char) in Hin.
  fold (str_lower ext) in Hin. change (lower_char ".") with "."%char in Hin.
  destruct H as [H|H]; rewrite H in Hin; vm_compute in Hin;
    repeat (apply elem_of_cons in Hin as [Hin|Hin]; [discriminate|]);
    by apply elem_of_nil in Hin.
Qed.

(** The test of the loop, on names. *)
Lemma kept_iff (p : path) :
  str_lower (suffix p) ∈ keep_extensions ↔ source_name (name p).
Proof.
  unfold suffix, source_name. set (n := name p). split.
  - destruct (rfind "." n) as [i|] eqn:Hi.
    2: { intros H. vm_compute in H.
         repeat (apply elem_of_cons in H as [H|H]; [discriminate|]).
         by apply elem_of_nil in H. }
    destruct (rfind_Some _ _ _ Hi) as (pre & post & Hn & Hlen & Hpost).
    destruct ((0 <? i) && (i <? length n - 1)) eqn:Hc.
    2: { intros H. vm_compute in H.
         repeat (apply elem_of_cons in H as [H|H]; [discriminate|]).
         by apply elem_of_nil in H. }
    apply andb_true_iff in Hc as [Hpos _]. apply Nat.ltb_lt in Hpos.
    rewrite Hn, <- Hlen, drop_app_length.
    intros H. exists pre, post. split_and!; [done| |].
    + intros ->. cbn in Hlen. lia.
    + unfold keep_extensions in H. cbn [str_lower fmap list_fmap] in H.
      change (lower_char ".") with "."%char in H.
      apply elem_of_cons in H as [H|H]; [left; by injection H|].
      apply elem_of_cons in H as [H|H]; [right; by injection H|].
      by apply elem_of_nil in H.
  - intros (stem & ext & Hn & Hstem & Hext).
    rewrite Hn, (rfind_last _ _ _ (lower_ext_no_dot _ Hext)).
    assert (Hl : length ext = 3).
    { rewrite <- (length_fmap lower_char ext). fold (str_lower ext).
      by destruct Hext as [-> | ->]. }
    rewrite length_app. cbn [length].
    destruct stem as [|c stem]; [done|]. cbn [length].
    replace ((0 <? S (length stem))
             && (S (length stem) <? S (length stem) + S (length ext) - 1))
      with true.
    2: { symmetry. apply andb_true_iff. split; apply Nat.ltb_lt; lia. }
    change (S (length stem)) with (length (c :: stem)).
    rewrite drop_app_length. cbn [str_lower fmap list_fmap].
    change (lower_char ".") with "."%char. fold (str_lower ext).
    unfold keep_extensions.
    destruct Hext as [-> | ->]; [by left|right; by left].
Qed.

Lemma removal_loop_run (walk : list walked) (removed : nat) :
  for_each walk removed (fun removed p =>
    if w_is_file p
       && negb (bool_decide (str_lower (suffix (w_path p)) ∈ keep_extensions))
    then
      try_except
        (unlink (w_unlink p) (w_path p);;
         ret (S removed))
        (fun _ => ret removed)
    else ret removed)
  = Run (Unlink ∘ w_path <$> List.filter goes walk)
        (Ok (removed + length (List.filter goes walk))).
Proof.
  revert removed. induction walk as [|e walk IH]; intros removed.
  - cbn. by rewrite Nat.add_0_r.
  - cbn [for_each List.filter].
    destruct (goes e) eqn:Hgo; unfold goes in Hgo.
    + apply andb_true_iff in Hgo as [Hc Hun]. rewrite Hc, Hun.
      cbn [unlink]. unfold bind at 1. cbn. rewrite IH. cbn.
      do 2 f_equal. lia.
    + destruct (w_is_file e
                && negb (bool_decide
                           (str_lower (suffix (w_path e)) ∈ keep_extensions)))
        eqn:Hc.
      * cbn [andb] in Hgo. rewrite Hgo.
        cbn [unlink]. unfold bind at 1. cbn. by rewrite IH.
      * rewrite bind_ret. apply IH.
Qed.

(** What the clean-up removes.  [remove_non_tex_bib] does nothing but
    unlink, in the order of the walk; it unlinks a path exactly when the
    walk yields it as a file whose name is no source name and its [unlink]
    goes through.  A source name ends in [.tex] or [.bib], in small or
    capital letters, after at least one more character: [Main.TEX] and
    [refs.v2.bib] stay, and so does every directory, while a file called
    [.tex], [paper.tex.] or [paper.tex.gz] goes.  The number returned is the
    number of files unlinked, and the function raises only when the walk
    does, after the removals. *)
Theorem cleanup_removes_iff (walk : list walked) (walk_raises : bool) :
  let run := remove_non_tex_bib walk walk_raises in
  trace run = Unlink ∘ w_path <$> List.filter goes walk ∧
  (∀ p, Unlink p ∈ trace run ↔
        ∃ e, e ∈ walk ∧ w_path e = p ∧ w_is_file e = true ∧
             w_unlink e = true ∧ ¬ source_name (name p)) ∧
  outcome run
  = (if walk_raises then Raise OSError else Ok (length (trace run))).
Proof.
  cbv zeta. unfold remove_non_tex_bib.
  rewrite removal_loop_run. unfold bind. cbn [outcome trace Nat.add].
  assert (Htrace :
    trace (if walk_raises then raise OSError
           else ret (length (List.filter goes walk))) = []).
  { by destruct walk_raises. }
  rewrite Htrace, app_nil_r. split_and!.
  - done.
  - intros p. rewrite list_elem_of_fmap. split.
    + intros (e & Hp & He). injection Hp as ->.
      apply list_elem_of_In, List.filter_In in He as [He Hgo].
      apply list_elem_of_In in He. unfold goes in Hgo.
      apply andb_true_iff in Hgo as [Hgo Hun].
      apply andb_true_iff in Hgo as [Hfile Hkeep].
      apply negb_true_iff, bool_decide_eq_false in Hkeep.
      exists e. split_and!; [done..|]. by rewrite <- kept_iff.
    + intros (e & He & <- & Hfile & Hun & Hname).
      exists e. split; [done|].
      apply list_elem_of_In, List.filter_In. split; [by apply list_elem_of_In|].
      unfold goes. rewrite Hfile, Hun, andb_true_r. cbn [andb].
      apply negb_true_iff, bool_decide_eq_false. by rewrite kept_iff.
  - destruct walk_raises; [done|]. cbn. by rewrite length_fmap.
Qed.

(** The names of the description. *)
Example cleanup_names :
  let file n ok := {| w_path := [py "tex"; py "2504-13946v1"; py n];
                      w_is_file := true; w_unlink := ok |} in
  remove_non_tex_bib
    [file "Main.TEX" true; file "refs.v2.bib" true; file ".tex" true;
     file "paper.tex." true; file "paper.tex.gz" true; file "fig.pdf" false;
     {| w_path := [py "tex"; py "2504-13946v1"; py "figures"];
        w_is_file := false; w_unlink := true |}] false
  = Run [Unlink [py "tex"; py "2504-13946v1"; py ".tex"];
         Unlink [py "tex"; py "2504-13946v1"; py "paper.tex."];
         Unlink [py "tex"; py "2504-13946v1"; py "paper.tex.gz"]]
        (Ok 3).
Proof. vm_compute. reflexivity. Qed.

End CleanupFacts.
